(** * SlimeE: a shallow embedding of [src/index.tsx]

    First the program: JavaScript string primitives, pattern matching,
    the query classifier, the markdown renderer, code extraction, JSON
    text, the data model and its serialisation, the generation handlers
    and the session controller.  Then its properties.

    Modelling conventions.
    - A JavaScript string is a [string]: a sequence of code units, here
      restricted to the range 0..255.  Every pattern and literal of the
      source is ASCII, and the functions below treat the code units
      128..255 as JavaScript treats U+0080..U+00FF.
    - A JavaScript number that holds a chat id is a [Z]; the source only
      ever increments it from 1, which is exact below 2^53.
    - Objects that are mutated through several references (the pending
      model message) live in a store and are named by their location. *)

From Stdlib Require Import Ascii String List ZArith Bool Lia.
From Stdlib Require Import DecimalString DecimalPos DecimalZ.
From stdpp Require Import base list strings.
Import ListNotations.
Local Open Scope Z_scope.

(** ** JavaScript string primitives *)
Module Js.

Definition code (c : ascii) : nat := nat_of_ascii c.

(** [WhiteSpace] and [LineTerminator] code points below 256: TAB, LF, VT,
    FF, CR, SP and NBSP.  These are the characters [String.prototype.trim]
    strips and the regular expression class [\s] matches. *)
Definition isWhiteSpace (c : ascii) : bool :=
  let n := code c in
  ((9 <=? n) && (n <=? 13) || (n =? 32) || (n =? 160))%nat.

(** Regular expression class [\w]: [A-Za-z0-9_]. *)
Definition isWordChar (c : ascii) : bool :=
  let n := code c in
  ((48 <=? n) && (n <=? 57) || (65 <=? n) && (n <=? 90)
   || (n =? 95) || (97 <=? n) && (n <=? 122))%nat.

(** The characters the regular expression atom [.] refuses. *)
Definition isLineTerminator (c : ascii) : bool :=
  let n := code c in ((n =? 10) || (n =? 13))%nat.

(** [Canonicalize] of a case-insensitive regular expression without the
    unicode flag: [toUpperCase], except that a non-ASCII character is never
    mapped to an ASCII one.  Against ASCII patterns only the letters a-z
    are affected. *)
Definition canonicalize (c : ascii) : ascii :=
  let n := code c in
  if ((97 <=? n) && (n <=? 122))%nat then ascii_of_nat (n - 32) else c.

(** [String.prototype.toLowerCase] on code units below 256. *)
Definition lowerChar (c : ascii) : ascii :=
  let n := code c in
  if ((65 <=? n) && (n <=? 90)
      || (192 <=? n) && (n <=? 222) && negb (n =? 215))%nat
  then ascii_of_nat (n + 32) else c.

Fixpoint toLowerCase (s : string) : string :=
  match s with
  | EmptyString => EmptyString
  | String c s' => String (lowerChar c) (toLowerCase s')
  end.

Fixpoint drop (n : nat) (s : string) : string :=
  match n, s with
  | O, _ => s
  | S n', String _ s' => drop n' s'
  | S _, EmptyString => EmptyString
  end.

(** [s.startsWith(p)] *)
Fixpoint startsWith (p s : string) : bool :=
  match p, s with
  | EmptyString, _ => true
  | String a p', String b s' => if Ascii.eqb a b then startsWith p' s' else false
  | String _ _, EmptyString => false
  end.

(** [s.includes(p)] *)
Fixpoint includes (p s : string) : bool :=
  startsWith p s ||
  match s with
  | EmptyString => false
  | String _ s' => includes p s'
  end.

(** The first occurrence of [p] in [s]: the text before it and the text
    after it. *)
Fixpoint splitAtFirst (p s : string) : option (string * string) :=
  if startsWith p s then Some (EmptyString, drop (String.length p) s)
  else match s with
       | EmptyString => None
       | String c s' =>
           match splitAtFirst p s' with
           | Some (before, after) => Some (String c before, after)
           | None => None
           end
       end.

Fixpoint trimStart (s : string) : string :=
  match s with
  | EmptyString => EmptyString
  | String c s' => if isWhiteSpace c then trimStart s' else s
  end.

Fixpoint trimEnd (s : string) : string :=
  match s with
  | EmptyString => EmptyString
  | String c s' =>
      match trimEnd s' with
      | EmptyString => if isWhiteSpace c then EmptyString else String c EmptyString
      | t => String c t
      end
  end.

(** [s.trim()] *)
Definition trim (s : string) : string := trimEnd (trimStart s).

(** [s.split(sep)] for a one-character separator. *)
Fixpoint splitChar (sep : ascii) (s : string) : list string :=
  match s with
  | EmptyString => [EmptyString]
  | String c s' =>
      if Ascii.eqb c sep then EmptyString :: splitChar sep s'
      else match splitChar sep s' with
           | [] => [String c EmptyString]
           | w :: ws => String c w :: ws
           end
  end.

(** The maximal run of characters satisfying [p] at the head of [s], and
    the rest: how a greedy [\w*] consumes when it is followed by a
    character outside the class. *)
Fixpoint span (p : ascii -> bool) (s : string) : string * string :=
  match s with
  | EmptyString => (EmptyString, EmptyString)
  | String c s' =>
      if p c then let '(a, b) := span p s' in (String c a, b)
      else (EmptyString, s)
  end.

(** [s.replace(/c/g, rep)] for a one-character pattern [c]. *)
Fixpoint replaceChar (c : ascii) (rep : string) (s : string) : string :=
  match s with
  | EmptyString => EmptyString
  | String a s' =>
      if Ascii.eqb a c then rep +:+ replaceChar c rep s'
      else String a (replaceChar c rep s')
  end.

Definition eqb (a b : string) : bool := String.eqb a b.

(** The strings of a list one after the other. *)
Fixpoint concatAll (l : list string) : string :=
  match l with
  | [] => EmptyString
  | s :: rest => s +:+ concatAll rest
  end.

(** Every character of the string satisfies [p]. *)
Fixpoint allChars (p : ascii -> bool) (s : string) : bool :=
  match s with
  | EmptyString => true
  | String c s' => p c && allChars p s'
  end.

Definition isAscii (c : ascii) : bool := (code c <? 128)%nat.

Definition allAscii (s : string) : bool := allChars isAscii s.

(** A JavaScript value is falsy as a string exactly when it is empty. *)
Definition isEmpty (s : string) : bool :=
  match s with EmptyString => true | _ => false end.

End Js.

(** ** Anchored regular-expression matching

    A matcher looks at the text from the current position on and answers
    with what it captured and how many characters the match spans.  The
    three drivers below walk the positions left to right just as
    [RegExp.prototype.exec] with the [g] flag, [String.prototype.replace]
    and [String.prototype.split] do; none of the source's patterns can
    match the empty string, so a match always spans at least one
    character and the next search resumes after it. *)
Module Regex.

Section Drivers.
Context {A : Type}.
Variable m : string -> option (A * nat).

(** [while ((match = re.exec(s)) !== null)]: every match, left to right.
    [skip] counts characters still covered by the previous match. *)
Fixpoint execAll (skip : nat) (s : string) : list A :=
  match s with
  | EmptyString => []
  | String _ s' =>
      match skip with
      | S k => execAll k s'
      | O =>
          match m s with
          | Some (a, len) => a :: execAll (Nat.pred len) s'
          | None => execAll O s'
          end
      end
  end.

(** [s.replace(re, f)] with the [g] flag. *)
Fixpoint replaceAll (f : A -> string) (skip : nat) (s : string) : string :=
  match s with
  | EmptyString => EmptyString
  | String c s' =>
      match skip with
      | S k => replaceAll f k s'
      | O =>
          match m s with
          | Some (a, len) => f a +:+ replaceAll f (Nat.pred len) s'
          | None => String c (replaceAll f O s')
          end
      end
  end.

(** [s.split(re)] where [re] is one capturing group around the whole
    pattern: the pieces between the matches, interleaved with the
    matches themselves ([f] gives the captured text).  [cur] is the piece
    being collected, in reverse. *)
Fixpoint splitAll (f : A -> string) (skip : nat) (cur : list ascii)
         (s : string) : list string :=
  match s with
  | EmptyString => [string_of_list_ascii (rev cur)]
  | String c s' =>
      match skip with
      | S k => splitAll f k cur s'
      | O =>
          match m s with
          | Some (a, len) =>
              string_of_list_ascii (rev cur) :: f a
                :: splitAll f (Nat.pred len) [] s'
          | None => splitAll f O (c :: cur) s'
          end
      end
  end.
End Drivers.

(** A literal matched case-insensitively at the head of the text; on
    success the last character consumed and the remaining text. *)
Fixpoint litCI (lit : string) (prev : option ascii) (s : string)
  : option (option ascii * string) :=
  match lit, s with
  | EmptyString, _ => Some (prev, s)
  | String a lit', String b s' =>
      if Ascii.eqb (Js.canonicalize a) (Js.canonicalize b)
      then litCI lit' (Some b) s' else None
  | String _ _, EmptyString => None
  end.

Definition wordAt (c : option ascii) : bool :=
  match c with Some a => Js.isWordChar a | None => false end.

Definition head (s : string) : option ascii :=
  match s with EmptyString => None | String c _ => Some c end.


(** The assertion [\b] between the character [before] and the text [s]. *)
Definition boundary (before : option ascii) (s : string) : bool :=
  xorb (wordAt before) (wordAt (head s)).

(** [/^(a1|a2|...)/i.test(s)] *)
Definition testPrefixCI (alts : list string) (s : string) : bool :=
  existsb (fun alt => match litCI alt None s with Some _ => true | None => false end) alts.

(** [\b(a1|a2|...)\b] tried at one position. *)
Definition wordAltAt (alts : list string) (prev : option ascii) (s : string) : bool :=
  boundary prev s &&
  existsb (fun alt =>
             match litCI alt prev s with
             | Some (last, rest) => boundary last rest
             | None => false
             end) alts.

(** [/\b(a1|a2|...)\b/i.test(s)]: some position matches. *)
Fixpoint testWordCI (alts : list string) (prev : option ascii) (s : string) : bool :=
  wordAltAt alts prev s ||
  match s with
  | EmptyString => false
  | String c s' => testWordCI alts (Some c) s'
  end.

End Regex.

(** ** The query classifier (the dispatch of [handleSearch]) *)
Module Classifier.

Inductive Mode := Image | Video | Code | TextSearch.

Definition imagePrefixes : list string :=
  ["draw"; "create"; "generate"; "make an image of"; "show me a picture of"].
Definition videoPhrases : list string :=
  ["video of"; "animate"; "generate a video"; "create a video"].
Definition codeWords : list string :=
  ["code"; "write"; "html"; "css"; "javascript"; "js"; "function";
   "snippet"; "app"; "component"].

Definition imageKeywords (q : string) : bool := Regex.testPrefixCI imagePrefixes q.
Definition videoKeywords (q : string) : bool := Regex.testWordCI videoPhrases None q.
Definition codeKeywords (q : string) : bool := Regex.testWordCI codeWords None q.


(** The [if]/[else if] chain of [handleSearch]. *)
Definition classify (q : string) : Mode :=
  if imageKeywords q then Image
  else if videoKeywords q then Video
  else if codeKeywords q then Code
  else TextSearch.

End Classifier.

(** ** Markdown rendering and code extraction *)
Module Markdown.

Definition LF : ascii := ascii_of_nat 10.
Definition nl : string := String LF EmptyString.
Definition dquote : string := String (ascii_of_nat 34) EmptyString.

Definition fence : string := "```".

Definition notBacktick (c : ascii) : bool := negb (Ascii.eqb c "`").

(** A fenced block as a text: the fence, the language tag, a line feed,
    the body, the fence. *)
Definition fenced (tag body : string) : string :=
  fence +:+ tag +:+ String LF (body +:+ fence).

(** Five global replacements in a row: the ampersand first, then the
    two angle brackets, the double quote and the apostrophe. *)
Definition escapeHtml (unsafe : string) : string :=
  Js.replaceChar "'" "&#039;"
    (Js.replaceChar (ascii_of_nat 34) "&quot;"
       (Js.replaceChar ">" "&gt;"
          (Js.replaceChar "<" "&lt;"
             (Js.replaceChar "&" "&amp;" unsafe)))).

(** The pattern of a fenced block tried at the head of the text: the
    fence, the longest run of word characters (group 1, greedy), a line
    feed, and the shortest text up to the next fence (group 2, lazy).
    Captures the language tag and the body. *)
Definition matchFence (s : string) : option ((string * string) * nat) :=
  if Js.startsWith fence s then
    let '(lang, r) := Js.span Js.isWordChar (Js.drop 3 s) in
    match r with
    | String c r' =>
        if Ascii.eqb c LF then
          match Js.splitAtFirst fence r' with
          | Some (body, _) =>
              Some ((lang, body),
                    (3 + String.length lang + 1 + String.length body + 3)%nat)
          | None => None
          end
        else None
    | EmptyString => None
    end
  else None.

(** The shortest run of characters other than line terminators that is
    followed by [close]: a lazy run of dots in front of a literal. *)
Fixpoint lazyDots (close : string) (s : string) : option string :=
  if Js.startsWith close s then Some EmptyString
  else match s with
       | EmptyString => None
       | String c s' =>
           if Js.isLineTerminator c then None
           else match lazyDots close s' with
                | Some t => Some (String c t)
                | None => None
                end
       end.

(** The bold pattern at the head of the text: two asterisks, a lazy run
    of dots (group 1), two asterisks. *)
Definition matchBold (s : string) : option (string * nat) :=
  if Js.startsWith "**" s then
    match lazyDots "**" (Js.drop 2 s) with
    | Some inner => Some (inner, (4 + String.length inner)%nat)
    | None => None
    end
  else None.

(** The pattern of an already rendered code block at the head of the
    text: the opening tag, the shortest text up to the closing tag, the
    closing tag; the one group captures the whole match. *)
Definition matchPre (s : string) : option (string * nat) :=
  if Js.startsWith "<pre>" s then
    match Js.splitAtFirst "</pre>" (Js.drop 5 s) with
    | Some (body, _) =>
        Some ("<pre>" +:+ body +:+ "</pre>", (5 + String.length body + 6)%nat)
    | None => None
    end
  else None.

Definition renderFence (m : string * string) : string :=
  let '(lang, code) := m in
  "<pre><code class=" +:+ dquote +:+ "language-" +:+ lang +:+ dquote +:+ ">"
    +:+ escapeHtml (Js.trim code) +:+ "</code></pre>".

Definition renderBold (inner : string) : string :=
  "<strong>" +:+ inner +:+ "</strong>".

(** [line.trim().startsWith('* ')] *)
Definition isListItem (line : string) : bool :=
  Js.startsWith "* " (Js.trim line).

(** One turn of the loop over the lines of a part; the state is
    [(inList, sectionHtml)]. *)
Definition lineStep (st : bool * string) (line : string) : bool * string :=
  let '(inList, sectionHtml) := st in
  if isListItem line then
    let sectionHtml := if inList then sectionHtml else sectionHtml +:+ "<ul>" in
    (true, sectionHtml +:+ "<li>" +:+ Js.drop 2 (Js.trim line) +:+ "</li>")
  else
    let sectionHtml := if inList then sectionHtml +:+ "</ul>" else sectionHtml in
    (false, sectionHtml +:+ "<p>" +:+ line +:+ "</p>").

(** [part.split('\n').filter(line => line.trim() !== '')] *)
Definition nonBlankLines (part : string) : list string :=
  List.filter (fun line => negb (Js.isEmpty (Js.trim line))) (Js.splitChar LF part).

(** The body of the loop over [parts] for a part that is not a code
    block. *)
Definition renderSection (part : string) : string :=
  let '(inList, sectionHtml) :=
    fold_left lineStep (nonBlankLines part) (false, EmptyString) in
  if inList then sectionHtml +:+ "</ul>" else sectionHtml.

Definition renderPart (part : string) : string :=
  if Js.startsWith "<pre>" part then part else renderSection part.

Definition simpleMarkdownToHtml (markdown : string) : string :=
  let html := Regex.replaceAll matchFence renderFence O markdown in
  let html := Regex.replaceAll matchBold renderBold O html in
  let parts := Regex.splitAll matchPre (fun whole => whole) O [] html in
  fold_left (fun finalHtml part => finalHtml +:+ renderPart part) parts EmptyString.

(** *** The rule in the words of the specification

    The remaining text is a sequence of blocks: a run of item lines is
    one list, any other line is a paragraph.  [item] decides what an item
    line is. *)
Inductive Block :=
| Paragraph (line : string)
| UList (items : list string).

Section Grouping.
Variable item : string -> bool.

Fixpoint groupLines (lines : list string) : list Block :=
  match lines with
  | [] => []
  | line :: rest =>
      if item line then
        match groupLines rest with
        | UList items :: blocks => UList (line :: items) :: blocks
        | blocks => UList [line] :: blocks
        end
      else Paragraph line :: groupLines rest
  end.
End Grouping.

(** The lines of a sequence of blocks, in order. *)
Fixpoint linesOf (bs : list Block) : list string :=
  match bs with
  | [] => []
  | Paragraph line :: rest => line :: linesOf rest
  | UList items :: rest => items ++ linesOf rest
  end.

(** A list holds item lines, at least one; a paragraph holds a line that
    is not an item line. *)
Definition wellTagged (item : string -> bool) (b : Block) : Prop :=
  match b with
  | Paragraph line => item line = false
  | UList items => items <> [] /\ Forall (fun line => item line = true) items
  end.

(** No list is followed by a list: the runs are maximal. *)
Fixpoint separated (bs : list Block) : Prop :=
  match bs with
  | UList _ :: ((UList _ :: _) as rest) => False
  | _ :: rest => separated rest
  | [] => True
  end.

Definition itemHtml (line : string) : string :=
  "<li>" +:+ Js.drop 2 (Js.trim line) +:+ "</li>".

Definition blockHtml (b : Block) : string :=
  match b with
  | Paragraph line => "<p>" +:+ line +:+ "</p>"
  | UList items => "<ul>" +:+ Js.concatAll (map itemHtml items) +:+ "</ul>"
  end.

Definition blocksHtml (bs : list Block) : string :=
  Js.concatAll (map blockHtml bs).

(** The blocks of a part as the code draws the line between items and
    paragraphs. *)
Definition blocksOf (part : string) : list Block :=
  groupLines isListItem (nonBlankLines part).

(** The blocks of a part when an item line is, literally, a line that
    starts with an asterisk and a space. *)
Definition blocksOfLiteral (part : string) : list Block :=
  groupLines (Js.startsWith "* ") (nonBlankLines part).

End Markdown.

(** ** [extractCode] *)
Module Extract.

Record Code := mkCode { html : string; css : string; javascript : string }.

(** One turn of the [while ((match = codeBlockRegex.exec(markdown)))] loop;
    the state is [(extracted, hasCode)]. *)
Definition blockStep (st : Code * bool) (m : string * string) : Code * bool :=
  let '(extracted, hasCode) := st in
  let lang := Js.toLowerCase (fst m) in
  let code := Js.trim (snd m) in
  if Js.eqb lang "html" then
    (mkCode (html extracted +:+ code +:+ Markdown.nl) (css extracted)
            (javascript extracted), true)
  else if Js.eqb lang "css" then
    (mkCode (html extracted) (css extracted +:+ code +:+ Markdown.nl)
            (javascript extracted), true)
  else if Js.eqb lang "javascript" || Js.eqb lang "js" then
    (mkCode (html extracted) (css extracted)
            (javascript extracted +:+ code +:+ Markdown.nl), true)
  else (extracted, hasCode).

(** The matches of the fenced-block pattern, in order: language tag and
    body of each. *)
Definition codeBlocks (markdown : string) : list (string * string) :=
  Regex.execAll Markdown.matchFence O markdown.

Definition extractCode (markdown : string) : option Code :=
  let '(extracted, hasCode) :=
    fold_left blockStep (codeBlocks markdown)
              (mkCode EmptyString EmptyString EmptyString, false) in
  if hasCode then Some extracted else None.

(** The language a block counts for, if any. *)
Inductive Lang := LHtml | LCss | LJs.

Definition langOf (m : string * string) : option Lang :=
  let lang := Js.toLowerCase (fst m) in
  if Js.eqb lang "html" then Some LHtml
  else if Js.eqb lang "css" then Some LCss
  else if Js.eqb lang "javascript" || Js.eqb lang "js" then Some LJs
  else None.

Definition isLang (l : Lang) (m : string * string) : bool :=
  match langOf m, l with
  | Some LHtml, LHtml | Some LCss, LCss | Some LJs, LJs => true
  | _, _ => false
  end.

Definition recognized (m : string * string) : bool :=
  match langOf m with Some _ => true | None => false end.

(** The trimmed bodies of the blocks of one language, each followed by a
    line feed, one after the other. *)
Definition joined (l : Lang) (blocks : list (string * string)) : string :=
  Js.concatAll
    (map (fun m => Js.trim (snd m) +:+ Markdown.nl) (List.filter (isLang l) blocks)).

End Extract.

(** ** Sample texts *)
Module Samples.
Import Markdown.

(** A bold word, then two list items, on three lines. *)
Definition boldThenList : string :=
  "**bold** " +:+ nl +:+ "* item1" +:+ nl +:+ "* item2".

(** An indented item line. *)
Definition indentedItem : string := "  * item".

(** A marker with nothing after it. *)
Definition bareMarker : string := "* ".

(** One html block, some prose, one css block. *)
Definition htmlAndCss : string :=
  fence +:+ "html" +:+ nl +:+ "<h1>Hi</h1>" +:+ nl +:+ fence +:+ nl
    +:+ "Some words." +:+ nl
    +:+ fence +:+ "css" +:+ nl +:+ "h1 { color: red; }" +:+ nl +:+ fence.

(** Two script blocks, tagged [js] and [JavaScript]. *)
Definition twoScripts : string :=
  fence +:+ "js" +:+ nl +:+ "let a;" +:+ nl +:+ fence +:+ nl
    +:+ fence +:+ "JavaScript" +:+ nl +:+ "let b;" +:+ nl +:+ fence.

(** A block in a language the extraction does not know. *)
Definition pythonOnly : string :=
  fence +:+ "python" +:+ nl +:+ "print(1)" +:+ nl +:+ fence.

End Samples.

(** ** JSON text: [JSON.stringify] and [JSON.parse]

    Numbers are the integers ([Z]): that is all the session holds.  An
    object is the list of its properties in insertion order. *)
Module Json.

#[local] Unset Elimination Schemes.
Inductive json :=
| JNull
| JBool (b : bool)
| JNum (n : Z)
| JStr (s : string)
| JArr (items : list json)
| JObj (props : list (string * json)).
#[local] Set Elimination Schemes.

Definition dq : ascii := ascii_of_nat 34.
Definition backslash : ascii := ascii_of_nat 92.

Definition hexDigit (n : nat) : ascii :=
  ascii_of_nat (if (n <? 10)%nat then 48 + n else 87 + n).

(** [QuoteJSONString], one code unit at a time. *)
Definition escapeChar (c : ascii) : string :=
  let n := Js.code c in
  if (n =? 34)%nat then String backslash (String dq EmptyString)
  else if (n =? 92)%nat then String backslash (String backslash EmptyString)
  else if (n =? 8)%nat then String backslash "b"
  else if (n =? 9)%nat then String backslash "t"
  else if (n =? 10)%nat then String backslash "n"
  else if (n =? 12)%nat then String backslash "f"
  else if (n =? 13)%nat then String backslash "r"
  else if (n <? 32)%nat then
    String backslash
      (String "u" (String "0" (String "0"
         (String (hexDigit (n / 16)) (String (hexDigit (n mod 16)) EmptyString)))))
  else String c EmptyString.

Fixpoint escapeString (s : string) : string :=
  match s with
  | EmptyString => EmptyString
  | String c s' => escapeChar c +:+ escapeString s'
  end.

Definition quote (s : string) : string :=
  String dq (escapeString s +:+ String dq EmptyString).

(** [Number::toString] of an integer. *)
Definition numberToString (n : Z) : string :=
  NilZero.string_of_int (Z.to_int n).

Fixpoint joinWith (sep : string) (parts : list string) : string :=
  match parts with
  | [] => EmptyString
  | [p] => p
  | p :: rest => p +:+ sep +:+ joinWith sep rest
  end.

(** [JSON.stringify(value)] with no indentation. *)
Fixpoint stringify (j : json) : string :=
  match j with
  | JNull => "null"
  | JBool true => "true"
  | JBool false => "false"
  | JNum n => numberToString n
  | JStr s => quote s
  | JArr items => "[" +:+ joinWith "," (map stringify items) +:+ "]"
  | JObj props =>
      "{" +:+ joinWith ","
                (map (fun kv => quote (fst kv) +:+ ":" +:+ stringify (snd kv)) props)
          +:+ "}"
  end.

(** *** Parsing *)

(** JSON white space: space, tab, line feed, carriage return. *)
Definition isJsonSpace (c : ascii) : bool :=
  let n := Js.code c in ((n =? 32) || (n =? 9) || (n =? 10) || (n =? 13))%nat.

Fixpoint skipWs (s : string) : string :=
  match s with
  | String c s' => if isJsonSpace c then skipWs s' else s
  | EmptyString => EmptyString
  end.

Definition hexValue (c : ascii) : option nat :=
  let n := Js.code c in
  if ((48 <=? n) && (n <=? 57))%nat then Some (n - 48)%nat
  else if ((97 <=? n) && (n <=? 102))%nat then Some (n - 87)%nat
  else if ((65 <=? n) && (n <=? 70))%nat then Some (n - 55)%nat
  else None.

(** The character a two-character escape stands for. *)
Definition unescape (e : ascii) : option ascii :=
  let n := Js.code e in
  if (n =? 34)%nat then Some dq
  else if (n =? 92)%nat then Some backslash
  else if (n =? 47)%nat then Some (ascii_of_nat 47)
  else if (n =? 98)%nat then Some (ascii_of_nat 8)
  else if (n =? 102)%nat then Some (ascii_of_nat 12)
  else if (n =? 110)%nat then Some (ascii_of_nat 10)
  else if (n =? 114)%nat then Some (ascii_of_nat 13)
  else if (n =? 116)%nat then Some (ascii_of_nat 9)
  else None.

Definition consTo (c : ascii) (r : option (string * string)) : option (string * string) :=
  match r with
  | Some (t, rest) => Some (String c t, rest)
  | None => None
  end.

(** The characters of a string literal after its opening quote, up to
    and including the closing quote.  A hexadecimal escape that names a
    code unit above 255 is outside the alphabet of this model. *)
Fixpoint parseChars (s : string) : option (string * string) :=
  match s with
  | EmptyString => None
  | String c s' =>
      if Ascii.eqb c dq then Some (EmptyString, s')
      else if Ascii.eqb c backslash then
        match s' with
        | EmptyString => None
        | String e s'' =>
            match unescape e with
            | Some c' => consTo c' (parseChars s'')
            | None =>
                if Ascii.eqb e "u" then
                  match s'' with
                  | String h3 (String h2 (String h1 (String h0 rest))) =>
                      match hexValue h3, hexValue h2, hexValue h1, hexValue h0 with
                      | Some O, Some O, Some h, Some l =>
                          consTo (ascii_of_nat (16 * h + l)) (parseChars rest)
                      | _, _, _, _ => None
                      end
                  | _ => None
                  end
                else None
            end
        end
      else if (Js.code c <? 32)%nat then None
      else consTo c (parseChars s')
  end.

Definition isDigit (c : ascii) : bool :=
  let n := Js.code c in ((48 <=? n) && (n <=? 57))%nat.

Definition isNumberChar (c : ascii) : bool :=
  isDigit c || Ascii.eqb c "-".

(** An integer literal in the only form [numberToString] writes (no
    leading zero, no fraction, no exponent), or a negative zero. *)
Definition parseNumber (s : string) : option (Z * string) :=
  let '(tok, rest) := Js.span isNumberChar s in
  if Js.eqb tok "-0" then Some (0, rest)
  else match NilZero.int_of_string tok with
       | Some d =>
           let n := Z.of_int d in
           if Js.eqb (numberToString n) tok then Some (n, rest) else None
       | None => None
       end.

Definition expect (lit : string) (s : string) : option string :=
  if Js.startsWith lit s then Some (Js.drop (String.length lit) s) else None.

(** A value, then the rest of the text.  [fuel] bounds the depth of the
    recursion; every recursive call is made on a strictly shorter text,
    so the length of the text is always enough. *)
Fixpoint parseValue (fuel : nat) (s : string) : option (json * string) :=
  match fuel with
  | O => None
  | S fuel' =>
      match skipWs s with
      | EmptyString => None
      | String c r as s0 =>
          if Ascii.eqb c "n" then option_map (pair JNull) (expect "null" s0)
          else if Ascii.eqb c "t" then option_map (pair (JBool true)) (expect "true" s0)
          else if Ascii.eqb c "f" then option_map (pair (JBool false)) (expect "false" s0)
          else if Ascii.eqb c dq then
            match parseChars r with
            | Some (t, rest) => Some (JStr t, rest)
            | None => None
            end
          else if Ascii.eqb c "[" then
            match skipWs r with
            | String c' r' =>
                if Ascii.eqb c' "]" then Some (JArr [], r')
                else match parseItems fuel' r with
                     | Some (items, rest) => Some (JArr items, rest)
                     | None => None
                     end
            | EmptyString => None
            end
          else if Ascii.eqb c "{" then
            match skipWs r with
            | String c' r' =>
                if Ascii.eqb c' "}" then Some (JObj [], r')
                else match parseProps fuel' r with
                     | Some (props, rest) => Some (JObj props, rest)
                     | None => None
                     end
            | EmptyString => None
            end
          else match parseNumber s0 with
               | Some (n, rest) => Some (JNum n, rest)
               | None => None
               end
      end
  end
with parseItems (fuel : nat) (s : string) : option (list json * string) :=
  match fuel with
  | O => None
  | S fuel' =>
      match parseValue fuel' s with
      | Some (v, r) =>
          match skipWs r with
          | String c r' =>
              if Ascii.eqb c "," then
                match parseItems fuel' r' with
                | Some (vs, rest) => Some (v :: vs, rest)
                | None => None
                end
              else if Ascii.eqb c "]" then Some ([v], r')
              else None
          | EmptyString => None
          end
      | None => None
      end
  end
with parseProps (fuel : nat) (s : string) : option (list (string * json) * string) :=
  match fuel with
  | O => None
  | S fuel' =>
      match skipWs s with
      | String q r =>
          if Ascii.eqb q dq then
            match parseChars r with
            | Some (k, r1) =>
                match skipWs r1 with
                | String colon r2 =>
                    if Ascii.eqb colon ":" then
                      match parseValue fuel' r2 with
                      | Some (v, r3) =>
                          match skipWs r3 with
                          | String c r4 =>
                              if Ascii.eqb c "," then
                                match parseProps fuel' r4 with
                                | Some (kvs, rest) => Some ((k, v) :: kvs, rest)
                                | None => None
                                end
                              else if Ascii.eqb c "}" then Some ([(k, v)], r4)
                              else None
                          | EmptyString => None
                          end
                      | None => None
                      end
                    else None
                | EmptyString => None
                end
            | None => None
            end
          else None
      | EmptyString => None
      end
  end.

(** [JSON.parse(text)]: one value and nothing but white space after it;
    [None] is the [SyntaxError]. *)
Definition parse (text : string) : option json :=
  match parseValue (S (String.length text)) text with
  | Some (v, rest) =>
      match skipWs rest with
      | EmptyString => Some v
      | String _ _ => None
      end
  | None => None
  end.

(** *** Notions for the round trip *)

(** The text that follows a number does not go on with a digit or a
    sign. *)
Definition endsNumber (rest : string) : bool :=
  match rest with
  | EmptyString => true
  | String c _ => negb (isNumberChar c)
  end.

Fixpoint size (j : json) : nat :=
  match j with
  | JArr items => S (list_sum (map (fun x => S (size x)) items))
  | JObj props => S (list_sum (map (fun kv => S (size (snd kv))) props))
  | _ => 1%nat
  end.

(** What may follow a value in a text [stringify] writes: nothing, a
    comma, or a closing bracket or brace. *)
Definition follows (rest : string) : bool :=
  match rest with
  | EmptyString => true
  | String c _ => Ascii.eqb c "," || Ascii.eqb c "]" || Ascii.eqb c "}"
  end.

(** A value never starts with white space or a closing bracket. *)
Definition opens (s : string) : bool :=
  match s with
  | EmptyString => false
  | String c _ => negb (isJsonSpace c) && negb (Ascii.eqb c "]") && negb (Ascii.eqb c "}")
  end.

(** [parseValue] reads back what [stringify] wrote, given fuel for the
    size of the value and a text after it that can follow a value. *)
Definition readsBack (j : json) : Prop :=
  forall fuel rest,
    (size j <= fuel)%nat -> follows rest = true ->
    parseValue fuel (stringify j +:+ rest) = Some (j, rest).

(** Property access [obj.key] on a parsed object: when a key is written
    twice the last one counts. *)
Fixpoint field (key : string) (props : list (string * json)) : option json :=
  match props with
  | [] => None
  | (k, v) :: rest =>
      match field key rest with
      | Some v' => Some v'
      | None => if Js.eqb k key then Some v else None
      end
  end.

End Json.

(** ** The data model *)
Module Model.

Inductive Role := User | Assistant.

(** A grounding chunk as [createModelMessageBubble] reads it: an object
    with an optional [web] part holding an optional [uri] and [title]. *)
Record Web := mkWeb { uri : option string; webTitle : option string }.
Record Citation := mkCitation { web : option Web }.

Record Message := mkMessage {
  role : Role;
  text : string;
  image : option string;
  video : option string;
  sources : option (list Citation);
  code : option Extract.Code
}.

(** A location in the store of message objects. *)
Abbreviation loc := nat.

(** A chat object; its history array holds references to message
    objects. *)
Record Chat := mkChat {
  id : Z;
  title : string;
  history : list loc
}.

Record AppState := mkAppState {
  isAuthenticated : bool;
  chats : list Chat;
  activeChatId : option Z;
  nextChatId : Z
}.

(** The initial value of [state], also what sign-out assigns. *)
Definition defaultState : AppState :=
  mkAppState false [] None 1.

Definition userMessage (query : string) : Message :=
  mkMessage User query None None None None.

Definition emptyModelMessage : Message :=
  mkMessage Assistant EmptyString None None None None.

Definition setText (t : string) (m : Message) : Message :=
  mkMessage (role m) t (image m) (video m) (sources m) (code m).
Definition setImage (i : string) (m : Message) : Message :=
  mkMessage (role m) (text m) (Some i) (video m) (sources m) (code m).
Definition setVideo (v : string) (m : Message) : Message :=
  mkMessage (role m) (text m) (image m) (Some v) (sources m) (code m).
Definition setSources (s : list Citation) (m : Message) : Message :=
  mkMessage (role m) (text m) (image m) (video m) (Some s) (code m).
Definition setCode (c : option Extract.Code) (m : Message) : Message :=
  mkMessage (role m) (text m) (image m) (video m) (sources m) c.

(** [!state.activeChatId]: [null] and [0] are falsy. *)
Definition noActiveChat (a : option Z) : bool :=
  match a with
  | None => true
  | Some n => n =? 0
  end.

(** [state.chats.find(c => c.id === state.activeChatId)] *)
Definition findChat (cs : list Chat) (a : option Z) : option Chat :=
  match a with
  | None => None
  | Some n => List.find (fun c => id c =? n) cs
  end.

(** [chat.history.push(l)] on the chat object that [findChat] returns:
    the first chat of the array with that id. *)
Fixpoint pushHistory (n : Z) (l : loc) (cs : list Chat) : list Chat :=
  match cs with
  | [] => []
  | c :: rest =>
      if id c =? n then mkChat (id c) (title c) (history c ++ [l]) :: rest
      else c :: pushHistory n l rest
  end.

(** The message objects a history refers to. *)
Definition messagesOf (store : list Message) (h : list loc) : list Message :=
  omap (fun l => store !! l) h.

End Model.

(** ** The session as JSON: what [JSON.stringify(state)] walks and what
    [JSON.parse] gives back *)
Module Codec.
Import Json Model.

Definition optProp {A} (key : string) (enc : A -> json) (o : option A)
  : list (string * json) :=
  match o with
  | Some a => [(key, enc a)]
  | None => []
  end.

Definition encodeWeb (w : Web) : json :=
  JObj (optProp "uri" JStr (uri w) ++ optProp "title" JStr (webTitle w)).

Definition encodeCitation (c : Citation) : json :=
  JObj (optProp "web" encodeWeb (web c)).

Definition encodeCode (c : Extract.Code) : json :=
  JObj [("html", JStr (Extract.html c)); ("css", JStr (Extract.css c));
        ("javascript", JStr (Extract.javascript c))].

Definition encodeRole (r : Role) : json :=
  JStr (match r with User => "user" | Assistant => "model" end).

(** A property whose value is [undefined] is left out. *)
Definition encodeMessage (m : Message) : json :=
  JObj ([("role", encodeRole (role m)); ("text", JStr (text m))]
        ++ optProp "image" JStr (image m)
        ++ optProp "video" JStr (video m)
        ++ optProp "sources" (fun l => JArr (map encodeCitation l)) (sources m)
        ++ optProp "code" encodeCode (code m)).

Definition encodeChat (store : list Message) (c : Chat) : json :=
  JObj [("id", JNum (id c)); ("title", JStr (title c));
        ("history", JArr (map encodeMessage (messagesOf store (history c))))].

Definition encodeState (store : list Message) (s : AppState) : json :=
  JObj [("isAuthenticated", JBool (isAuthenticated s));
        ("chats", JArr (map (encodeChat store) (chats s)));
        ("activeChatId", match activeChatId s with Some n => JNum n | None => JNull end);
        ("nextChatId", JNum (nextChatId s))].

(** *** Reading a parsed value at the types of the source

    [None] means the value does not have the shape the type annotations
    of the source promise. *)
Definition asString (j : json) : option string :=
  match j with JStr s => Some s | _ => None end.

Definition asProps (j : json) : option (list (string * json)) :=
  match j with JObj ps => Some ps | _ => None end.

(** An optional property: absent, or present with a value [dec] reads. *)
Definition optField {A} (key : string) (dec : json -> option A)
           (ps : list (string * json)) : option (option A) :=
  match field key ps with
  | None => Some None
  | Some j => match dec j with Some a => Some (Some a) | None => None end
  end.

Definition reqField {A} (key : string) (dec : json -> option A)
           (ps : list (string * json)) : option A :=
  match field key ps with
  | None => None
  | Some j => dec j
  end.

Fixpoint decodeList {A} (dec : json -> option A) (js : list json) : option (list A) :=
  match js with
  | [] => Some []
  | j :: rest =>
      match dec j, decodeList dec rest with
      | Some a, Some l => Some (a :: l)
      | _, _ => None
      end
  end.

Definition asList {A} (dec : json -> option A) (j : json) : option (list A) :=
  match j with JArr js => decodeList dec js | _ => None end.

Definition decodeWeb (j : json) : option Web :=
  match asProps j with
  | Some ps =>
      match optField "uri" asString ps, optField "title" asString ps with
      | Some u, Some t => Some (mkWeb u t)
      | _, _ => None
      end
  | None => None
  end.

Definition decodeCitation (j : json) : option Citation :=
  match asProps j with
  | Some ps =>
      match optField "web" decodeWeb ps with
      | Some w => Some (mkCitation w)
      | None => None
      end
  | None => None
  end.

Definition decodeCode (j : json) : option Extract.Code :=
  match asProps j with
  | Some ps =>
      match reqField "html" asString ps, reqField "css" asString ps,
            reqField "javascript" asString ps with
      | Some h, Some c, Some s => Some (Extract.mkCode h c s)
      | _, _, _ => None
      end
  | None => None
  end.

Definition decodeRole (j : json) : option Role :=
  match j with
  | JStr s =>
      if Js.eqb s "user" then Some User
      else if Js.eqb s "model" then Some Assistant
      else None
  | _ => None
  end.

Definition decodeMessage (j : json) : option Message :=
  match asProps j with
  | Some ps =>
      match reqField "role" decodeRole ps, reqField "text" asString ps,
            optField "image" asString ps, optField "video" asString ps,
            optField "sources" (asList decodeCitation) ps,
            optField "code" decodeCode ps with
      | Some r, Some t, Some i, Some v, Some s, Some c => Some (mkMessage r t i v s c)
      | _, _, _, _, _, _ => None
      end
  | None => None
  end.

Definition asNumber (j : json) : option Z :=
  match j with JNum n => Some n | _ => None end.

Definition asBool (j : json) : option bool :=
  match j with JBool b => Some b | _ => None end.

Definition asNullable {A} (dec : json -> option A) (j : json) : option (option A) :=
  match j with
  | JNull => Some None
  | _ => match dec j with Some a => Some (Some a) | None => None end
  end.

(** A parsed chat: its messages are fresh objects. *)
Record ChatValue := mkChatValue {
  cv_id : Z;
  cv_title : string;
  cv_history : list Message
}.

Record StateValue := mkStateValue {
  sv_isAuthenticated : bool;
  sv_chats : list ChatValue;
  sv_activeChatId : option Z;
  sv_nextChatId : Z
}.

Definition decodeChat (j : json) : option ChatValue :=
  match asProps j with
  | Some ps =>
      match reqField "id" asNumber ps, reqField "title" asString ps,
            reqField "history" (asList decodeMessage) ps with
      | Some i, Some t, Some h => Some (mkChatValue i t h)
      | _, _, _ => None
      end
  | None => None
  end.

Definition decodeState (j : json) : option StateValue :=
  match asProps j with
  | Some ps =>
      match reqField "isAuthenticated" asBool ps,
            reqField "chats" (asList decodeChat) ps,
            reqField "activeChatId" (asNullable asNumber) ps,
            reqField "nextChatId" asNumber ps with
      | Some a, Some cs, Some act, Some n => Some (mkStateValue a cs act n)
      | _, _, _, _ => None
      end
  | None => None
  end.

(** The session by value: every history replaced by the messages it
    refers to. *)
Definition chatValue (store : list Message) (c : Chat) : ChatValue :=
  mkChatValue (id c) (title c) (messagesOf store (history c)).

Definition stateValue (store : list Message) (s : AppState) : StateValue :=
  mkStateValue (isAuthenticated s) (map (chatValue store) (chats s))
               (activeChatId s) (nextChatId s).

(** Allocation of the objects of a parsed session: every message goes
    to a fresh location at the end of the store. *)
Definition allocChat (acc : list Message * list Chat) (c : ChatValue)
  : list Message * list Chat :=
  let '(store, cs) := acc in
  (store ++ cv_history c,
   cs ++ [mkChat (cv_id c) (cv_title c)
                 (seq (length store) (length (cv_history c)))]).

Definition allocState (store : list Message) (v : StateValue)
  : list Message * AppState :=
  let '(store', cs) := fold_left allocChat (sv_chats v) (store, []) in
  (store', mkAppState (sv_isAuthenticated v) cs (sv_activeChatId v) (sv_nextChatId v)).

(** Every history refers to messages that exist. *)
Definition validIn (store : list Message) (c : Chat) : Prop :=
  Forall (fun l => (l < length store)%nat) (history c).

End Codec.

(** ** The generation handlers

    A handler talks to collaborators the source only calls: the model
    API, the key-selection dialog, timers, [fetch].  The environment is
    the script of their answers, one list per operation, consumed front
    to back; an operation whose list is empty never answers.  A handler
    is a function of the script, of the pending message it was handed,
    and of the effects carried out so far. *)
Module Handlers.
Import Model.

(** A thrown value; the handlers only ever read [error.message]. *)
Record JsError := mkError { message : option string }.

Definition Error (msg : string) : JsError := mkError (Some msg).

(** Reading a property of [undefined]. *)
Definition TypeError : JsError := Error "Cannot read properties of undefined".

(** A settled promise. *)
Inductive Reply (A : Type) :=
| Resolve (a : A)
| Reject (e : JsError).
Arguments Resolve {A} a.
Arguments Reject {A} e.

(** A video operation: its [done] flag and the download link
    [operation.response?.generatedVideos?.[0]?.video?.uri]. *)
Record Operation := mkOperation { done : bool; downloadLink : option string }.

(** What the handler reads of a [fetch] response. *)
Record Response := mkResponse { ok : bool; statusText : string }.

(** A content part: its [inlineData.data], if it has inline data. *)
Definition Part := option string.

(** [response.candidates]: the parts of each candidate. *)
Record GenerateContentResponse := mkGenerated { candidates : list (list Part) }.

(** An increment of a stream: [chunk.text] and
    [chunk.candidates?.[0]?.groundingMetadata?.groundingChunks]. *)
Record Chunk := mkChunk {
  chunkText : option string;
  groundingChunks : option (list Citation)
}.

(** How an asynchronous iteration ends after its last increment. *)
Inductive StreamEnd :=
| EndOfStream
| StreamFails (e : JsError)
| StreamStalls.

Record Stream := mkStream { chunks : list Chunk; ending : StreamEnd }.

Record Env := mkEnv {
  apiKey : string;
  hasSelectedApiKey : list (Reply bool);
  openSelectKey : list (Reply unit);
  generateContent : list (Reply GenerateContentResponse);
  generateContentStream : list (Reply Stream);
  generateVideos : list (Reply Operation);
  getVideosOperation : list (Reply Operation);
  fetch : list (Reply Response);
  blob : list (Reply string)
}.

(** The effects a handler has on the world outside the message. *)
Inductive Effect :=
| SetAnswerHtml (html : string)
| SetVideoStatus (textContent : string)
| ScrollToEnd
| Sleep (ms : Z)
| CallHasSelectedApiKey
| CallOpenSelectKey
| CallGenerateContent (model prompt : string)
| CallGenerateContentStream (model prompt : string)
| CallGenerateVideos (prompt : string)
| CallGetVideosOperation
| CallFetch (url : string)
| CallBlob
| ConsoleError.

Record HState := mkHState {
  msg : Message;
  env : Env;
  effects : list Effect
}.

(** How far a computation got: it returned, it threw, or it is waiting
    for an answer that never comes. *)
Inductive Outcome (A : Type) :=
| Returned (a : A)
| Threw (e : JsError)
| Waiting.
Arguments Returned {A} a.
Arguments Threw {A} e.
Arguments Waiting {A}.

Definition Handler (A : Type) := HState -> Outcome A * HState.

Definition ret {A} (a : A) : Handler A := fun st => (Returned a, st).

Definition bind {A B} (h : Handler A) (k : A -> Handler B) : Handler B :=
  fun st =>
    match h st with
    | (Returned a, st') => k a st'
    | (Threw e, st') => (Threw e, st')
    | (Waiting, st') => (Waiting, st')
    end.

Definition throw {A} (e : JsError) : Handler A := fun st => (Threw e, st).

(** [try { h } catch (error) { k error }] *)
Definition tryCatch {A} (h : Handler A) (k : JsError -> Handler A) : Handler A :=
  fun st =>
    match h st with
    | (Threw e, st') => k e st'
    | r => r
    end.

Notation "x <- h ;; k" := (bind h (fun x => k))
  (at level 100, h at level 99, right associativity).
Notation "h ;; k" := (bind h (fun _ => k))
  (at level 100, right associativity).

Definition effect (e : Effect) : Handler unit :=
  fun st => (Returned tt, mkHState (msg st) (env st) (effects st ++ [e])).

Definition modifyMessage (f : Message -> Message) : Handler unit :=
  fun st => (Returned tt, mkHState (f (msg st)) (env st) (effects st)).

Definition setEnv (f : Env -> Env) : Handler unit :=
  fun st => (Returned tt, mkHState (msg st) (f (env st)) (effects st)).

Definition getEnv {A} (f : Env -> A) : Handler A :=
  fun st => (Returned (f (env st)), st).

(** The answer [r] arrives and [rest] stays in the script. *)
Definition deliver {A} (put : list (Reply A) -> Env -> Env)
           (r : Reply A) (rest : list (Reply A)) : Handler A :=
  setEnv (put rest) ;;
  match r with
  | Resolve a => ret a
  | Reject e => throw e
  end.

(** [await op(...)]: the call is made, then the next answer of the
    script is awaited. *)
Definition await {A} (made : Effect) (get : Env -> list (Reply A))
           (put : list (Reply A) -> Env -> Env) : Handler A :=
  effect made ;;
  script <- getEnv get ;;
  match script with
  | [] => fun st => (Waiting, st)
  | r :: rest => deliver put r rest
  end.

Definition putHasSelectedApiKey l e :=
  mkEnv (apiKey e) l (openSelectKey e) (generateContent e) (generateContentStream e)
        (generateVideos e) (getVideosOperation e) (fetch e) (blob e).
Definition putOpenSelectKey l e :=
  mkEnv (apiKey e) (hasSelectedApiKey e) l (generateContent e) (generateContentStream e)
        (generateVideos e) (getVideosOperation e) (fetch e) (blob e).
Definition putGenerateContent l e :=
  mkEnv (apiKey e) (hasSelectedApiKey e) (openSelectKey e) l (generateContentStream e)
        (generateVideos e) (getVideosOperation e) (fetch e) (blob e).
Definition putGenerateContentStream l e :=
  mkEnv (apiKey e) (hasSelectedApiKey e) (openSelectKey e) (generateContent e) l
        (generateVideos e) (getVideosOperation e) (fetch e) (blob e).
Definition putGenerateVideos l e :=
  mkEnv (apiKey e) (hasSelectedApiKey e) (openSelectKey e) (generateContent e)
        (generateContentStream e) l (getVideosOperation e) (fetch e) (blob e).
Definition putGetVideosOperation l e :=
  mkEnv (apiKey e) (hasSelectedApiKey e) (openSelectKey e) (generateContent e)
        (generateContentStream e) (generateVideos e) l (fetch e) (blob e).
Definition putFetch l e :=
  mkEnv (apiKey e) (hasSelectedApiKey e) (openSelectKey e) (generateContent e)
        (generateContentStream e) (generateVideos e) (getVideosOperation e) l (blob e).
Definition putBlob l e :=
  mkEnv (apiKey e) (hasSelectedApiKey e) (openSelectKey e) (generateContent e)
        (generateContentStream e) (generateVideos e) (getVideosOperation e) (fetch e) l.

(** [await new Promise(resolve => setTimeout(resolve, ms))] *)
Definition sleep (ms : Z) : Handler unit := effect (Sleep ms).

(** *** [handleImageGeneration] *)

(** The loop over the parts: the data of the first part that has inline
    data, or the empty string. *)
Fixpoint firstInlineData (parts : list Part) : string :=
  match parts with
  | [] => EmptyString
  | Some data :: _ => data
  | None :: rest => firstInlineData rest
  end.

Definition handleImageGeneration (query : string) : Handler unit :=
  effect (SetAnswerHtml "<p>Generating your image...</p>") ;;
  response <- await (CallGenerateContent "gemini-2.5-flash-image" query)
                    generateContent putGenerateContent ;;
  match candidates response with
  | [] => throw TypeError
  | parts :: _ =>
      let base64ImageBytes := firstInlineData parts in
      if negb (Js.isEmpty base64ImageBytes) then
        modifyMessage (setImage ("data:image/png;base64," +:+ base64ImageBytes)) ;;
        modifyMessage (setText ("Here is the image you requested for: "
                                  +:+ Markdown.dquote +:+ query +:+ Markdown.dquote))
      else modifyMessage (setText "Sorry, I couldn't create that image.")
  end.

(** *** [handleVideoGeneration] *)

Definition keyPromptHtml : string :=
  "<p>To generate videos, you need to select a Gemini API key with billing enabled. Opening the key selection dialog now...</p><a href="
  +:+ Markdown.dquote +:+ "https://ai.google.dev/gemini-api/docs/billing" +:+ Markdown.dquote
  +:+ " target=" +:+ Markdown.dquote +:+ "_blank" +:+ Markdown.dquote
  +:+ " style=" +:+ Markdown.dquote +:+ "color: var(--primary-color);" +:+ Markdown.dquote
  +:+ ">Learn more</a>".

Definition kickoffHtml : string :=
  "<p id=" +:+ Markdown.dquote +:+ "videoStatus" +:+ Markdown.dquote
  +:+ ">Kicking off video generation... this may take a few minutes.</p>".

Definition retryHtml : string :=
  "<p>Video generation failed due to an API key issue. Reopening key selection for a retry...</p>".

Definition videoDoneText : string := "Here is the video you requested.".
Definition videoFailedAgainText : string :=
  "Video generation failed again. Please ensure your selected key is valid and has billing enabled.".
Definition videoFailedText : string := "Sorry, I couldn't create that video.".

(** [error.message?.includes('Requested entity was not found')] *)
Definition credentialInvalid (error : JsError) : bool :=
  match message error with
  | Some m => Js.includes "Requested entity was not found" m
  | None => false
  end.

(** [while (!operation.done)]: one answer of the polling script per
    turn.  The status element was created by the assignment just before
    the loop, so it is always found. *)
Fixpoint pollLoop (script : list (Reply Operation)) (operation : Operation)
  : Handler Operation :=
  if done operation then ret operation
  else
    effect (SetVideoStatus "Video is processing... please wait.") ;;
    sleep 10000 ;;
    effect CallGetVideosOperation ;;
    match script with
    | [] => fun st => (Waiting, st)
    | r :: rest =>
        operation <- deliver putGetVideosOperation r rest ;;
        pollLoop rest operation
    end.

(** [!downloadLink]: absent or empty. *)
Definition usableLink (l : option string) : option string :=
  match l with
  | Some s => if Js.isEmpty s then None else Some s
  | None => None
  end.

(** The body of the [try] block. *)
Definition videoAttempt (query : string) (isRetry : bool) : Handler unit :=
  (if negb isRetry then
     hasKey <- await CallHasSelectedApiKey hasSelectedApiKey putHasSelectedApiKey ;;
     if negb hasKey then
       effect (SetAnswerHtml keyPromptHtml) ;;
       sleep 2500 ;;
       await CallOpenSelectKey openSelectKey putOpenSelectKey
     else ret tt
   else ret tt) ;;
  effect (SetAnswerHtml kickoffHtml) ;;
  operation <- await (CallGenerateVideos query) generateVideos putGenerateVideos ;;
  script <- getEnv getVideosOperation ;;
  operation <- pollLoop script operation ;;
  effect (SetVideoStatus "Almost there! Fetching your video...") ;;
  match usableLink (downloadLink operation) with
  | None => throw (Error "No download link provided.")
  | Some link =>
      key <- getEnv apiKey ;;
      videoResponse <- await (CallFetch (link +:+ "&key=" +:+ key)) fetch putFetch ;;
      if negb (ok videoResponse) then
        throw (Error ("Failed to download video: " +:+ statusText videoResponse))
      else
        objectUrl <- await CallBlob blob putBlob ;;
        modifyMessage (setVideo objectUrl) ;;
        modifyMessage (setText videoDoneText)
  end.

(** The [catch] block; [again] is the recursive call
    [handleVideoGeneration(query, message, bubble, true)]. *)
Definition videoCatch (again : Handler unit) (isRetry : bool) (error : JsError)
  : Handler unit :=
  if credentialInvalid error then
    if isRetry then modifyMessage (setText videoFailedAgainText)
    else
      effect (SetAnswerHtml retryHtml) ;;
      sleep 3000 ;;
      await CallOpenSelectKey openSelectKey putOpenSelectKey ;;
      again
  else
    effect ConsoleError ;;
    modifyMessage (setText videoFailedText).

(** The function with its recursive call unfolded at most [depth]
    times; a call deeper than that is cut off as [Waiting]. *)
Fixpoint handleVideoGenerationAt (depth : nat) (query : string) (isRetry : bool)
  : Handler unit :=
  tryCatch (videoAttempt query isRetry)
           (videoCatch
              (match depth with
               | O => fun st => (Waiting, st)
               | S d => handleVideoGenerationAt d query true
               end)
              isRetry).

(** The recursive call passes [isRetry = true], and a call with
    [isRetry = true] makes no recursive call: one unfolding is all a run
    can use (lemma [handleVideoGeneration_depth] below). *)
Definition handleVideoGeneration (query : string) (isRetry : bool) : Handler unit :=
  handleVideoGenerationAt 1 query isRetry.

(** *** The streaming handlers *)

Definition systemInstruction : string :=
  "You are a coding assistant. Provide complete, runnable code for a single HTML file, including CSS in a <style> tag and JavaScript in a <script> tag. Use markdown fences with the language specified.".

(** [if (chunkText) { fullText += chunkText; ... }] *)
Definition appendChunkText (fullText : string) (chunk : Chunk) : Handler string :=
  match chunkText chunk with
  | Some t =>
      if Js.isEmpty t then ret fullText
      else
        let fullText := fullText +:+ t in
        effect (SetAnswerHtml (Markdown.simpleMarkdownToHtml fullText)) ;;
        effect ScrollToEnd ;;
        ret fullText
  | None => ret fullText
  end.

(** [for await (const chunk of stream) body]: the body once per
    increment, then the end of the iteration. *)
Fixpoint forAwait (body : string -> Chunk -> Handler string)
         (cs : list Chunk) (fin : StreamEnd) (fullText : string) : Handler string :=
  match cs with
  | chunk :: rest =>
      fullText <- body fullText chunk ;;
      forAwait body rest fin fullText
  | [] =>
      match fin with
      | EndOfStream => ret fullText
      | StreamFails e => throw e
      | StreamStalls => fun st => (Waiting, st)
      end
  end.

(** The text a stream adds up to. *)
Definition fullTextOf (cs : list Chunk) : string :=
  Js.concatAll (map (fun c => match chunkText c with Some t => t | None => EmptyString end) cs).

Definition handleCodeGeneration (query : string) : Handler unit :=
  stream <- await (CallGenerateContentStream "gemini-2.5-pro" query)
                  generateContentStream putGenerateContentStream ;;
  fullText <- forAwait appendChunkText (chunks stream) (ending stream) EmptyString ;;
  modifyMessage (setText fullText) ;;
  modifyMessage (setCode (Extract.extractCode fullText)).

(** [if (groundingMetadata?.groundingChunks?.length > 0)
      message.sources = groundingMetadata.groundingChunks] *)
Definition takeSources (chunk : Chunk) (m : Message) : Message :=
  match groundingChunks chunk with
  | Some (c :: cs) => setSources (c :: cs) m
  | Some [] => m
  | None => m
  end.

Definition textSearchStep (fullText : string) (chunk : Chunk) : Handler string :=
  fullText <- appendChunkText fullText chunk ;;
  modifyMessage (takeSources chunk) ;;
  ret fullText.

(** How the iteration ends once the increments are through. *)
Definition ended (fin : StreamEnd) (fullText : string) : Outcome string :=
  match fin with
  | EndOfStream => Returned fullText
  | StreamFails e => Threw e
  | StreamStalls => Waiting
  end.

(** What the loop makes of the message: the increments' citation lists
    applied in order. *)
Definition sourcesAfter (cs : list Chunk) (m : Message) : Message :=
  fold_left (fun m chunk => takeSources chunk m) cs m.

(** In the words of the specification: the last citation list of the
    stream that is not empty, if there is one. *)
Fixpoint lastNonEmpty (cs : list Chunk) : option (list Citation) :=
  match cs with
  | [] => None
  | chunk :: rest =>
      match lastNonEmpty rest with
      | Some l => Some l
      | None =>
          match groundingChunks chunk with
          | Some (c :: l) => Some (c :: l)
          | _ => None
          end
      end
  end.

Definition handleTextSearch (query : string) : Handler unit :=
  stream <- await (CallGenerateContentStream "gemini-2.5-flash" query)
                  generateContentStream putGenerateContentStream ;;
  fullText <- forAwait textSearchStep (chunks stream) (ending stream) EmptyString ;;
  modifyMessage (setText fullText).

(** The handler [handleSearch] awaits for a query. *)
Definition dispatch (query : string) : Handler unit :=
  match Classifier.classify query with
  | Classifier.Image => handleImageGeneration query
  | Classifier.Video => handleVideoGeneration query false
  | Classifier.Code => handleCodeGeneration query
  | Classifier.TextSearch => handleTextSearch query
  end.

End Handlers.

(** ** Sample scripts of the environment *)
Module Scripts.
Import Model Handlers.

Definition quiet : Env := mkEnv "KEY" [] [] [] [] [] [] [] [].

Definition fresh (e : Env) : HState := mkHState emptyModelMessage e [].

Definition notFound {A} : Reply A :=
  Reject (Error "404: Requested entity was not found.").

(** A key is selected; video generation is refused twice for the
    credential; the key dialog answers once. *)
Definition refusedTwice : Env :=
  mkEnv "KEY" [Resolve true] [Resolve tt] [] [] [notFound; notFound] [] [] [].

(** No key is selected; the first submission is refused for the
    credential, the second is accepted, polled twice and downloaded. *)
Definition refusedOnce : Env :=
  mkEnv "KEY" [Resolve false] [Resolve tt; Resolve tt] [] []
        [notFound; Resolve (mkOperation false None)]
        [Resolve (mkOperation false None); Resolve (mkOperation true (Some "https://v/1?x=1"))]
        [Resolve (mkResponse true "OK")] [Resolve "blob:1"].

(** The download answers with a status that is not OK. *)
Definition downloadRefused : Env :=
  mkEnv "KEY" [Resolve true] [Resolve tt] [] []
        [Resolve (mkOperation true (Some "https://v/1?x=1"))] []
        [Resolve (mkResponse false "Forbidden")] [].

Definition citeA : Citation := mkCitation (Some (mkWeb (Some "https://a.example") (Some "A"))).
Definition citeB : Citation := mkCitation (Some (mkWeb (Some "https://b.example") None)).

(** Three increments with citations: A and B, then none, then B
    twice; an increment without text in between. *)
Definition cited : Stream :=
  mkStream [mkChunk (Some "The cup ") (Some [citeA; citeB]);
            mkChunk None (Some []);
            mkChunk (Some "was won.") (Some [citeB; citeB]);
            mkChunk (Some "") None]
           EndOfStream.

Definition citedSearch : Env :=
  mkEnv "KEY" [] [] [] [Resolve cited] [] [] [] [].

End Scripts.

(** ** The session controller *)
Module Controller.
Import Model Handlers.

(** A message bubble of the chat container. *)
Record Bubble := mkBubble {
  ofUser : bool;
  content : string;          (* textContent of a user bubble, innerHTML of a model bubble *)
  artifactButton : bool;
  activeArtifact : bool
}.

(** What [chatContainer] shows: what the document came with, the
    sign-in prompt, the welcome screen of an empty chat, or the bubbles of
    a history. *)
Inductive View :=
| AsLoaded
| SignInPrompt
| Welcome
| Bubbles (bs : list Bubble).

(** The frame of a [handleSearch] call suspended at its [await]: the
    query and the reference to the pending model message. *)
Record Frame := mkFrame { query : string; modelMessage : loc }.

(** Everything the module-level variables and the page hold. *)
Record World := mkWorld {
  state : AppState;
  isLoading : bool;
  activeArtifactMessageIndex : option nat;
  store : list Message;
  localStorage : option string;      (* the item [slimeeState] *)
  searchInput : string;              (* [searchInput.value] *)
  chatContainer : View;
  inFlight : list Frame
}.

Definition withState (s : AppState) (w : World) : World :=
  mkWorld s (isLoading w) (activeArtifactMessageIndex w) (store w)
          (localStorage w) (searchInput w) (chatContainer w) (inFlight w).
Definition withLoading (b : bool) (w : World) : World :=
  mkWorld (state w) b (activeArtifactMessageIndex w) (store w)
          (localStorage w) (searchInput w) (chatContainer w) (inFlight w).
Definition withArtifact (a : option nat) (w : World) : World :=
  mkWorld (state w) (isLoading w) a (store w)
          (localStorage w) (searchInput w) (chatContainer w) (inFlight w).
Definition withStore (st : list Message) (w : World) : World :=
  mkWorld (state w) (isLoading w) (activeArtifactMessageIndex w) st
          (localStorage w) (searchInput w) (chatContainer w) (inFlight w).
Definition withStorage (s : option string) (w : World) : World :=
  mkWorld (state w) (isLoading w) (activeArtifactMessageIndex w) (store w)
          s (searchInput w) (chatContainer w) (inFlight w).
Definition withInput (s : string) (w : World) : World :=
  mkWorld (state w) (isLoading w) (activeArtifactMessageIndex w) (store w)
          (localStorage w) s (chatContainer w) (inFlight w).
Definition withView (v : View) (w : World) : World :=
  mkWorld (state w) (isLoading w) (activeArtifactMessageIndex w) (store w)
          (localStorage w) (searchInput w) v (inFlight w).
Definition withInFlight (fs : list Frame) (w : World) : World :=
  mkWorld (state w) (isLoading w) (activeArtifactMessageIndex w) (store w)
          (localStorage w) (searchInput w) (chatContainer w) fs.

(** *** State persistence *)

Definition serialized (w : World) : string :=
  Json.stringify (Codec.encodeState (store w) (state w)).

Definition saveState (w : World) : World :=
  withStorage (Some (serialized w)) w.

Inductive LoadFailure :=
| SyntaxError          (* [JSON.parse] throws *)
| NotASession.         (* the value is not of type [AppState] *)

(** [loadState]: an absent or empty item leaves [state] alone. *)
Definition loadState (w : World) : World + LoadFailure :=
  match localStorage w with
  | None => inl w
  | Some savedState =>
      if Js.isEmpty savedState then inl w
      else match Json.parse savedState with
           | None => inr SyntaxError
           | Some j =>
               match Codec.decodeState j with
               | None => inr NotASession
               | Some v =>
                   let '(store', s) := Codec.allocState (store w) v in
                   inl (withState s (withStore store' w))
               end
           end
  end.

(** *** Rendering the chat *)

Definition attr (name value : string) : string :=
  " " +:+ name +:+ "=" +:+ Markdown.dquote +:+ value +:+ Markdown.dquote.

Definition undefinedOr (o : option string) : string :=
  match o with Some s => s | None => "undefined" end.

(** [chunk.web.title || 'Untitled'] *)
Definition titleOr (o : option string) : string :=
  match o with
  | Some s => if Js.isEmpty s then "Untitled" else s
  | None => "Untitled"
  end.

Definition indent (n : nat) : string := string_of_list_ascii (repeat " "%char n).

Definition sourceLink (chunk : Citation) : string :=
  match web chunk with
  | Some w =>
      "<a" +:+ attr "href" (undefinedOr (uri w)) +:+ attr "target" "_blank"
        +:+ attr "class" "source-link" +:+ ">" +:+ Markdown.nl +:+ indent 20
        +:+ "<span" +:+ attr "class" "title" +:+ ">" +:+ titleOr (webTitle w) +:+ "</span>"
        +:+ Markdown.nl +:+ indent 20
        +:+ "<span" +:+ attr "class" "uri" +:+ ">" +:+ undefinedOr (uri w) +:+ "</span>"
        +:+ Markdown.nl +:+ indent 16 +:+ "</a>"
  | None => EmptyString
  end.

Definition loaderHtml : string :=
  "<div" +:+ attr "class" "loader-container" +:+ "><div" +:+ attr "class" "loader"
    +:+ "></div></div>".

(** A string is truthy when it is not empty. *)
Definition truthy (o : option string) : option string :=
  match o with
  | Some s => if Js.isEmpty s then None else Some s
  | None => None
  end.

Definition createUserMessageBubble (message : Message) : Bubble :=
  mkBubble true (text message) false false.

Definition createModelMessageBubble (message : Message) (showLoader : bool) : Bubble :=
  let contentHTML := if showLoader then loaderHtml else EmptyString in
  let contentHTML :=
    contentHTML +:+ "<div" +:+ attr "class" "answer-content" +:+ ">"
      +:+ Markdown.simpleMarkdownToHtml (text message) +:+ "</div>" in
  let contentHTML :=
    match truthy (image message) with
    | Some i =>
        contentHTML +:+ "<img" +:+ attr "src" i +:+ attr "alt" "Generated image"
          +:+ attr "class" "result-media" +:+ ">"
    | None => contentHTML
    end in
  let contentHTML :=
    match truthy (video message) with
    | Some v =>
        contentHTML +:+ "<video" +:+ attr "src" v +:+ " controls"
          +:+ attr "class" "result-media" +:+ "></video>"
    | None => contentHTML
    end in
  let contentHTML :=
    match sources message with
    | Some (c :: cs) =>
        contentHTML +:+ "<div" +:+ attr "class" "sources-container" +:+ "><h3"
          +:+ attr "class" "sources-header" +:+ ">Sources</h3><div"
          +:+ attr "class" "sources-list" +:+ ">"
          +:+ Js.concatAll (map sourceLink (c :: cs)) +:+ "</div></div>"
    | _ => contentHTML
    end in
  mkBubble false contentHTML
           (match code message with Some _ => true | None => false end) false.

Definition markActive (active : option nat) (index : nat) (b : Bubble) : Bubble :=
  match active with
  | Some a =>
      if (a =? index)%nat
      then mkBubble (ofUser b) (content b) (artifactButton b) true else b
  | None => b
  end.

Definition bubbleOf (active : option nat) (index : nat) (message : Message) : Bubble :=
  markActive active index
    (match role message with
     | User => createUserMessageBubble message
     | Assistant => createModelMessageBubble message false
     end).

Definition renderedHistory (w : World) : View :=
  match findChat (chats (state w)) (activeChatId (state w)) with
  | None => Welcome
  | Some activeChat =>
      match messagesOf (store w) (history activeChat) with
      | [] => Welcome
      | ms => Bubbles (imap (bubbleOf (activeArtifactMessageIndex w)) ms)
      end
  end.

Definition renderChatHistory (w : World) : World :=
  withView (renderedHistory w) w.

(** [chatContainer.appendChild(bubble)] *)
Definition appendBubble (b : Bubble) (v : View) : View :=
  match v with
  | Bubbles bs => Bubbles (bs ++ [b])
  | AsLoaded | SignInPrompt | Welcome => Bubbles [b]
  end.

(** [renderApp]: signed in, the chat history is rendered; signed out,
    the container shows the welcome screen. *)
Definition renderApp (w : World) : World :=
  if isAuthenticated (state w) then renderChatHistory w
  else withView SignInPrompt w.

(** *** Event handlers *)

Definition closeArtifactPane (w : World) : World :=
  renderChatHistory (saveState (withArtifact None w)).

Definition handleNewChat (w : World) : World :=
  let s := state w in
  let newChat := mkChat (nextChatId s)
                        ("Chat " +:+ Json.numberToString (nextChatId s)) [] in
  let s := mkAppState (isAuthenticated s) (chats s ++ [newChat])
                      (Some (id newChat)) (nextChatId s + 1) in
  closeArtifactPane (withState s w).

Definition handleAuthClick (w : World) : World :=
  let w :=
    if isAuthenticated (state w) then
      closeArtifactPane (withState defaultState w)
    else
      let s := state w in
      let w := withState (mkAppState true (chats s) (activeChatId s) (nextChatId s)) w in
      match chats s with
      | [] => handleNewChat w
      | _ :: _ => w
      end in
  renderApp (saveState w).

Definition sameId (a : option Z) (n : Z) : bool :=
  match a with Some m => m =? n | None => false end.

Definition handleTabSwitch (chatId : Z) (w : World) : World :=
  if sameId (activeChatId (state w)) chatId then w
  else
    let s := state w in
    closeArtifactPane
      (withState (mkAppState (isAuthenticated s) (chats s) (Some chatId) (nextChatId s)) w).

Definition handleArtifactView (index : nat) (w : World) : World :=
  renderChatHistory (withArtifact (Some index) w).

(** *** [handleSearch]

    The function runs in two stretches, separated by the [await] of the
    handler: [handleSearchBegin] up to the call of the handler,
    [handleSearchEnd] from the moment the handler has settled. *)

Inductive Begun :=
| Dropped                 (* the early [return] *)
| Started (f : Frame)     (* suspended at the [await] *)
| Crashed (e : JsError).  (* [activeChat] is [undefined] *)

Definition apology : string := "Sorry, an error occurred. Please try again.".

Definition alloc (m : Message) (w : World) : loc * World :=
  (length (store w), withStore (store w ++ [m]) w).

Definition pushToChat (chatId : Z) (l : loc) (w : World) : World :=
  let s := state w in
  withState (mkAppState (isAuthenticated s) (pushHistory chatId l (chats s))
                        (activeChatId s) (nextChatId s)) w.

Definition handleSearchBegin (w : World) : Begun * World :=
  let query := Js.trim (searchInput w) in
  if Js.isEmpty query || isLoading w || noActiveChat (activeChatId (state w))
  then (Dropped, w)
  else
    let w := withLoading true w in
    match findChat (chats (state w)) (activeChatId (state w)) with
    | None => (Crashed TypeError, w)
    | Some activeChat =>
        let '(userLoc, w) := alloc (userMessage query) w in
        let w := pushToChat (id activeChat) userLoc w in
        let w := saveState w in
        let w := renderChatHistory w in
        let w := withInput EmptyString w in
        let '(modelLoc, w) := alloc emptyModelMessage w in
        let w := pushToChat (id activeChat) modelLoc w in
        let w := withView (appendBubble (createModelMessageBubble emptyModelMessage true)
                                        (chatContainer w)) w in
        let f := mkFrame query modelLoc in
        (Started f, withInFlight (inFlight w ++ [f]) w)
    end.

(** Assignment to a property of the message object at [l]. *)
Definition writeMessage (l : loc) (f : Message -> Message) (w : World) : World :=
  match store w !! l with
  | Some m => withStore (<[l := f m]> (store w)) w
  | None => w
  end.

Definition removeFrame (f : Frame) (fs : list Frame) : list Frame :=
  List.filter (fun g => negb ((modelMessage g =? modelMessage f)%nat)) fs.

(** The [catch] and [finally] blocks, given how the handler settled and
    the pending message as the handler left it. *)
Definition handleSearchEnd (f : Frame) (settled : Outcome unit) (left : Message)
           (w : World) : World :=
  let w := writeMessage (modelMessage f) (fun _ => left) w in
  let w := withInFlight (removeFrame f (inFlight w)) w in
  let w :=
    match settled with
    | Threw _ => writeMessage (modelMessage f) (setText apology) w
    | _ => w
    end in
  let w := withLoading false w in
  let w := renderChatHistory w in
  saveState w.

(** The pending message as [handleSearch] leaves it. *)
Definition settledMessage (settled : Outcome unit) (left : Message) : Message :=
  match settled with
  | Threw _ => setText apology left
  | _ => left
  end.

(** The handler of frame [f] run against the script [e]. *)
Definition runHandler (f : Frame) (e : Env) (w : World) : Outcome unit * HState :=
  match store w !! modelMessage f with
  | Some m => dispatch (query f) (mkHState m e [])
  | None => (Waiting, mkHState emptyModelMessage e [])
  end.

(** *** The page as a transition system *)

Inductive Event :=
| Type_ (text : string)          (* the user edits the search box *)
| Submit                         (* the form is submitted *)
| Settle (n : nat) (e : Env)     (* the handler of the n-th suspended call settles *)
| Reload                         (* the page is loaded anew over the same storage *)
| AuthClick
| NewChat
| TabSwitch (chatId : Z)
| ArtifactView (index : nat)
| CloseArtifact.


(** A page as the browser hands it to the script, over a given
    storage. *)
Definition freshPage (storage : option string) : World :=
  mkWorld defaultState false None [] storage EmptyString AsLoaded [].

(** The [DOMContentLoaded] handler on a page whose API key is
    configured: [loadState], then [renderApp].  When [loadState] throws,
    the handler stops there. *)
Definition pageLoad (storage : option string) : World :=
  match loadState (freshPage storage) with
  | inl w => renderApp w
  | inr _ => freshPage storage
  end.

Definition step (w : World) (ev : Event) : World :=
  match ev with
  | Type_ t => withInput t w
  | Submit => snd (handleSearchBegin w)
  | Settle n e =>
      match inFlight w !! n with
      | Some f =>
          match runHandler f e w with
          | (Waiting, _) => w
          | (settled, st) => handleSearchEnd f settled (msg st) w
          end
      | None => w
      end
  | Reload => pageLoad (localStorage w)
  | AuthClick => handleAuthClick w
  | NewChat => handleNewChat w
  | TabSwitch chatId => handleTabSwitch chatId w
  | ArtifactView index => handleArtifactView index w
  | CloseArtifact => closeArtifactPane w
  end.

Definition run (w : World) (evs : list Event) : World := fold_left step evs w.

(** The page on a first visit: nothing stored. *)
Definition boot : World := pageLoad None.


(** A frame is suspended only while the loading flag is set, and never
    more than one. *)
Definition oneInFlight (w : World) : Prop :=
  (isLoading w = false -> inFlight w = []) /\ (length (inFlight w) <= 1)%nat.

(** [handleSearch] from call to return when the handler settles on the
    script [e] without any other event in between. *)
Definition handleSearch (e : Env) (w : World) : Outcome unit * World :=
  match handleSearchBegin w with
  | (Dropped, w') => (Returned tt, w')
  | (Crashed err, w') => (Threw err, w')
  | (Started f, w') =>
      match runHandler f e w' with
      | (Waiting, _) => (Waiting, w')
      | (settled, st) => (Returned tt, handleSearchEnd f settled (msg st) w')
      end
  end.

End Controller.

(** ** Sample pages *)
Module Pages.
Import Model Handlers Controller.

(** The model API cannot be reached. *)
Definition offline : Env :=
  mkEnv "KEY" [] [] [] [Reject (Error "Failed to fetch")] [] [] [] [].

(** Signed in, one chat, a question typed. *)
Definition asked : World := run boot [AuthClick; Type_ "who won the 2022 world cup"].

(** A session of two chats: the first empty, the second with a request,
    an image answer and a code answer. *)
Definition sessionStore : list Message :=
  [userMessage "draw a cat";
   mkMessage Assistant "Here is the image you requested for: draw a cat"
             (Some "data:image/png;base64,iVBORw0KGgo=") None None None;
   mkMessage Assistant Samples.htmlAndCss None None None
             (Some (Extract.mkCode ("<h1>Hi</h1>" +:+ Markdown.nl)
                                   ("h1 { color: red; }" +:+ Markdown.nl)
                                   EmptyString))].

Definition session : AppState :=
  mkAppState true
             [mkChat 1 "Chat 1" []; mkChat 2 "Chat 2" [0; 1; 2]%nat]
             (Some 2) 3.

Definition sessionPage : World :=
  mkWorld session false None sessionStore None EmptyString Welcome [].

End Pages.

(** ** Classes of characters of a text to render *)
Module Html.

(** The characters that open or close markup or an attribute value. *)
Definition markup (c : ascii) : bool :=
  Ascii.eqb c "<" || Ascii.eqb c ">" || Ascii.eqb c (ascii_of_nat 34) || Ascii.eqb c "'".

(** The characters [escapeHtml] replaces. *)
Definition special (c : ascii) : bool := Ascii.eqb c "&" || markup c.

(** The five entities [escapeHtml] writes. *)
Definition entities : list string := ["&amp;"; "&lt;"; "&gt;"; "&quot;"; "&#039;"].

(** Every ampersand of the text opens one of the five entities. *)
Fixpoint entitiesOnly (s : string) : bool :=
  match s with
  | EmptyString => true
  | String c s' =>
      (if Ascii.eqb c "&" then existsb (fun e => Js.startsWith e s) entities else true)
      && entitiesOnly s'
  end.

(** The characters of a text in front of a code block that no pattern
    of the renderer reacts to. *)
Definition prose (c : ascii) : bool :=
  negb (Ascii.eqb c "`") && negb (Ascii.eqb c "*") && negb (Ascii.eqb c "<").

(** The characters of the body of a code block that stay out of the
    fence and bold patterns. *)
Definition codeChar (c : ascii) : bool :=
  negb (Ascii.eqb c "`") && negb (Ascii.eqb c "*").

(** The characters of a bold span: prose that stays on the line. *)
Definition inline (c : ascii) : bool := prose c && negb (Js.isLineTerminator c).

End Html.

(** ** Matches as the boundary test sees them *)
Module Matching.

(** What a match leaves behind, seen through what the boundary test
    reads of it. *)
Definition seen (r : option (option ascii * string)) : option (bool * bool) :=
  match r with
  | Some (last, rest) => Some (Regex.wordAt last, Regex.wordAt (Regex.head rest))
  | None => None
  end.

End Matching.

(** ** What a handler does to the script and to the message *)
Module Outcomes.
Import Model Handlers.

(** No answer of the script is a rejection. *)
Definition neverRejects {A} (script : list (Reply A)) : bool :=
  forallb (fun r => match r with Resolve _ => true | Reject _ => false end) script.

(** One turn of the polling loop, as the effects it has. *)
Definition pollTurn : list Effect :=
  [SetVideoStatus "Video is processing... please wait."; Sleep 10000; CallGetVideosOperation].

(** The key dialog of the state's script never rejects. *)
Definition dialogAnswers (st : HState) : Prop :=
  neverRejects (openSelectKey (env st)) = true.

Definition keeps {A} (h : Handler A) : Prop :=
  forall st, dialogAnswers st -> dialogAnswers (snd (h st)).

(** A computation that leaves the message alone. *)
Definition silent {A} (h : Handler A) : Prop :=
  forall st, msg (snd (h st)) = msg st.

(** A computation that, when it returns, has set the video and the
    success text, and otherwise has left the message alone. *)
Definition delivers (h : Handler unit) : Prop :=
  forall st,
    match fst (h st) with
    | Returned _ =>
        exists url, msg (snd (h st)) = setText videoDoneText (setVideo url (msg st))
    | _ => msg (snd (h st)) = msg st
    end.

(** What a call leaves in the message: on return, the video with the
    success text or one of the two failure texts; otherwise nothing. *)
Definition settlesVideo (h : Handler unit) : Prop :=
  forall st,
    match fst (h st) with
    | Returned _ =>
        (exists url, msg (snd (h st)) = setText videoDoneText (setVideo url (msg st)))
        \/ msg (snd (h st)) = setText videoFailedAgainText (msg st)
        \/ msg (snd (h st)) = setText videoFailedText (msg st)
    | _ => msg (snd (h st)) = msg st
    end.

(** The texts of the increments that carry one, in order: [chunk.text]
    when it is truthy. *)
Fixpoint textsOf (cs : list Chunk) : list string :=
  match cs with
  | [] => []
  | chunk :: rest =>
      match chunkText chunk with
      | Some t => if Js.isEmpty t then textsOf rest else t :: textsOf rest
      | None => textsOf rest
      end
  end.

(** What the answer area is made to show while the texts arrive: after
    each text, the rendering of everything received so far, scrolled to
    its end. *)
Definition rendersOf (acc : string) (texts : list string) : list Effect :=
  flat_map (fun k => [SetAnswerHtml (Markdown.simpleMarkdownToHtml
                                       (acc +:+ Js.concatAll (firstn (S k) texts)));
                      ScrollToEnd])
           (seq 0 (length texts)).

Definition imageText (query : string) : string :=
  "Here is the image you requested for: " +:+ Markdown.dquote +:+ query +:+ Markdown.dquote.

Definition noImageText : string := "Sorry, I couldn't create that image.".

(** The key check at the head of a first attempt. *)
Definition keyPart : Handler unit :=
  hasKey <- await CallHasSelectedApiKey hasSelectedApiKey putHasSelectedApiKey ;;
  if negb hasKey then
    effect (SetAnswerHtml keyPromptHtml) ;;
    sleep 2500 ;;
    await CallOpenSelectKey openSelectKey putOpenSelectKey
  else ret tt.

(** The effects of the key check: the question, and the notice, the
    pause and the dialog when no key is selected. *)
Definition keyCheck (hasKey : bool) : list Effect :=
  CallHasSelectedApiKey
    :: (if hasKey then [] else [SetAnswerHtml keyPromptHtml; Sleep 2500; CallOpenSelectKey]).

(** The effects of an attempt from the kick-off to the download, with
    [polls] turns of the polling loop. *)
Definition videoRun (query : string) (polls : nat) (link key : string) : list Effect :=
  [SetAnswerHtml kickoffHtml; CallGenerateVideos query]
    ++ concat (repeat pollTurn polls)
    ++ [SetVideoStatus "Almost there! Fetching your video...";
        CallFetch (link +:+ "&key=" +:+ key); CallBlob].

End Outcomes.

(** ** The rest of the page: tab bar, artifact pane, controls

    [Controller] follows the session, the chat container and the
    storage.  Here are the other elements the script writes to, and each
    function of the source as the sequence of calls it makes, on the
    world and on these elements. *)
Module Page.
Import Model Handlers Controller.

(** A tab as [renderTabs] creates it: its [textContent], its
    [dataset.chatId], whether it carries the class [active], and the id
    its click listener passes to [handleTabSwitch]. *)
Record Tab := mkTab {
  tabText : string;
  dataChatId : string;
  tabActive : bool;
  opens : Z
}.

(** What the script has made of the elements; [None]: as the document
    came.  [tabsContainer = Some ts] is the tabs [ts] followed by the
    new-chat button. *)
Record Dom := mkDom {
  authButtonText : option string;        (* authButton.textContent *)
  tabsHidden : option bool;              (* class hidden of tabsContainer *)
  tabsContainer : option (list Tab);
  searchFormHidden : option bool;        (* class hidden of searchFormContainer *)
  appHidden : option bool;               (* class hidden of appContainer *)
  artifactVisible : option bool;         (* class artifact-visible of appContainer *)
  mainDisplay : option string;           (* mainContent.style.display *)
  artifactHidden : option bool;          (* class hidden of artifactContainer *)
  srcdoc : option string;                (* artifactFrame.srcdoc *)
  searchButtonDisabled : option bool;
  searchInputDisabled : option bool
}.

Definition asLoaded : Dom :=
  mkDom None None None None None None None None None None None.

Record Page := mkPage { world : World; dom : Dom }.

Definition onWorld (f : World -> World) (p : Page) : Page := mkPage (f (world p)) (dom p).
Definition onDom (f : Dom -> Dom) (p : Page) : Page := mkPage (world p) (f (dom p)).

Definition setAuthButtonText (t : string) (d : Dom) : Dom :=
  mkDom (Some t) (tabsHidden d) (tabsContainer d) (searchFormHidden d) (appHidden d)
        (artifactVisible d) (mainDisplay d) (artifactHidden d) (srcdoc d)
        (searchButtonDisabled d) (searchInputDisabled d).
Definition setTabsHidden (b : bool) (d : Dom) : Dom :=
  mkDom (authButtonText d) (Some b) (tabsContainer d) (searchFormHidden d) (appHidden d)
        (artifactVisible d) (mainDisplay d) (artifactHidden d) (srcdoc d)
        (searchButtonDisabled d) (searchInputDisabled d).
Definition setTabsContainer (ts : list Tab) (d : Dom) : Dom :=
  mkDom (authButtonText d) (tabsHidden d) (Some ts) (searchFormHidden d) (appHidden d)
        (artifactVisible d) (mainDisplay d) (artifactHidden d) (srcdoc d)
        (searchButtonDisabled d) (searchInputDisabled d).
Definition setSearchFormHidden (b : bool) (d : Dom) : Dom :=
  mkDom (authButtonText d) (tabsHidden d) (tabsContainer d) (Some b) (appHidden d)
        (artifactVisible d) (mainDisplay d) (artifactHidden d) (srcdoc d)
        (searchButtonDisabled d) (searchInputDisabled d).
Definition setAppHidden (b : bool) (d : Dom) : Dom :=
  mkDom (authButtonText d) (tabsHidden d) (tabsContainer d) (searchFormHidden d) (Some b)
        (artifactVisible d) (mainDisplay d) (artifactHidden d) (srcdoc d)
        (searchButtonDisabled d) (searchInputDisabled d).
Definition setArtifactVisible (b : bool) (d : Dom) : Dom :=
  mkDom (authButtonText d) (tabsHidden d) (tabsContainer d) (searchFormHidden d) (appHidden d)
        (Some b) (mainDisplay d) (artifactHidden d) (srcdoc d)
        (searchButtonDisabled d) (searchInputDisabled d).
Definition setMainDisplay (v : string) (d : Dom) : Dom :=
  mkDom (authButtonText d) (tabsHidden d) (tabsContainer d) (searchFormHidden d) (appHidden d)
        (artifactVisible d) (Some v) (artifactHidden d) (srcdoc d)
        (searchButtonDisabled d) (searchInputDisabled d).
Definition setArtifactHidden (b : bool) (d : Dom) : Dom :=
  mkDom (authButtonText d) (tabsHidden d) (tabsContainer d) (searchFormHidden d) (appHidden d)
        (artifactVisible d) (mainDisplay d) (Some b) (srcdoc d)
        (searchButtonDisabled d) (searchInputDisabled d).
Definition setSrcdoc (v : string) (d : Dom) : Dom :=
  mkDom (authButtonText d) (tabsHidden d) (tabsContainer d) (searchFormHidden d) (appHidden d)
        (artifactVisible d) (mainDisplay d) (artifactHidden d) (Some v)
        (searchButtonDisabled d) (searchInputDisabled d).
Definition setDisabled (b : bool) (d : Dom) : Dom :=
  mkDom (authButtonText d) (tabsHidden d) (tabsContainer d) (searchFormHidden d) (appHidden d)
        (artifactVisible d) (mainDisplay d) (artifactHidden d) (srcdoc d)
        (Some b) (Some b).

(** *** Rendering *)

Definition tabOf (s : AppState) (chat : Chat) : Tab :=
  mkTab (title chat) (Json.numberToString (id chat))
        (sameId (activeChatId s) (id chat)) (id chat).

Definition renderTabs (p : Page) : Page :=
  let s := state (world p) in
  onDom (setTabsContainer (map (tabOf s) (chats s))) p.

Definition renderChatHistory (p : Page) : Page := onWorld Controller.renderChatHistory p.

Definition saveState (p : Page) : Page := onWorld Controller.saveState p.

(** The document of the artifact frame. *)
Definition artifactDoc (c : Extract.Code) : string :=
  "<html><head><style>" +:+ Extract.css c +:+ "</style></head><body>"
    +:+ Extract.html c +:+ "<script>" +:+ Extract.javascript c
    +:+ "</script></body></html>".

(** The code [renderArtifactPane] finds to show: that of the message of
    the active chat at the chosen index. *)
Definition artifactOf (w : World) : option Extract.Code :=
  match findChat (chats (state w)) (activeChatId (state w)),
        activeArtifactMessageIndex w with
  | Some activeChat, Some index =>
      match messagesOf (store w) (history activeChat) !! index with
      | Some message => code message
      | None => None
      end
  | _, _ => None
  end.

Definition renderArtifactPane (p : Page) : Page :=
  match artifactOf (world p) with
  | Some c =>
      onDom (fun d => setArtifactVisible true
                        (setArtifactHidden false (setSrcdoc (artifactDoc c) d))) p
  | None =>
      onDom (fun d => setArtifactVisible false (setArtifactHidden true d)) p
  end.

Definition updateUIForLoading (p : Page) : Page :=
  onDom (setDisabled (isLoading (world p))) p.

Definition renderApp (p : Page) : Page :=
  if isAuthenticated (state (world p)) then
    let p := onDom (fun d => setSearchFormHidden false
                               (setTabsHidden false (setAuthButtonText "Sign Out" d))) p in
    renderArtifactPane (renderChatHistory (renderTabs p))
  else
    let p := onDom (fun d => setAppHidden true
                               (setSearchFormHidden true
                                  (setTabsHidden true (setAuthButtonText "Sign In" d)))) p in
    let p := onWorld (withView SignInPrompt) p in
    onDom (fun d => setAppHidden false (setMainDisplay "flex" d)) p.

(** *** Event handlers *)

Definition closeArtifactPane (p : Page) : Page :=
  let p := onWorld (withArtifact None) p in
  renderArtifactPane (renderChatHistory (renderTabs (saveState p))).

Definition handleNewChat (p : Page) : Page :=
  let s := state (world p) in
  let newChat := mkChat (nextChatId s)
                        ("Chat " +:+ Json.numberToString (nextChatId s)) [] in
  let s := mkAppState (isAuthenticated s) (chats s ++ [newChat])
                      (Some (id newChat)) (nextChatId s + 1) in
  closeArtifactPane (onWorld (withState s) p).

Definition handleAuthClick (p : Page) : Page :=
  let p :=
    if isAuthenticated (state (world p)) then
      closeArtifactPane (onWorld (withState defaultState) p)
    else
      let s := state (world p) in
      let p := onWorld (withState (mkAppState true (chats s) (activeChatId s)
                                              (nextChatId s))) p in
      match chats s with
      | [] => handleNewChat p
      | _ :: _ => p
      end in
  renderApp (saveState p).

Definition handleTabSwitch (chatId : Z) (p : Page) : Page :=
  if sameId (activeChatId (state (world p))) chatId then p
  else
    let s := state (world p) in
    closeArtifactPane
      (onWorld (withState (mkAppState (isAuthenticated s) (chats s) (Some chatId)
                                      (nextChatId s))) p).

Definition handleArtifactView (index : nat) (p : Page) : Page :=
  renderArtifactPane (renderChatHistory (onWorld (withArtifact (Some index)) p)).

(** [handleSearch] up to the [await]: once the flag is set the controls
    are disabled; the rest of the stretch writes to the world only. *)
Definition handleSearchBegin (p : Page) : Begun * Page :=
  match Controller.handleSearchBegin (world p) with
  | (Dropped, _) => (Dropped, p)
  | (begun, w) => (begun, updateUIForLoading (mkPage w (dom p)))
  end.

(** The [catch] and [finally] blocks: the controls are enabled again
    when the flag is cleared. *)
Definition handleSearchEnd (f : Frame) (settled : Outcome unit) (left : Message)
           (p : Page) : Page :=
  updateUIForLoading (onWorld (Controller.handleSearchEnd f settled left) p).

(** *** The page as a transition system *)

(** What the [DOMContentLoaded] listener makes of the document. *)
Inductive Document :=
| ConfigurationError           (* the body is replaced by the error message *)
| Running (p : Page)
| Failed (e : LoadFailure) (p : Page).   (* [loadState] threw: nothing is rendered *)

Definition domContentLoaded (apiKey : option string) (storage : option string) : Document :=
  match truthy apiKey with
  | None => ConfigurationError
  | Some _ =>
      match loadState (freshPage storage) with
      | inl w => Running (renderApp (mkPage w asLoaded))
      | inr e => Failed e (mkPage (freshPage storage) asLoaded)
      end
  end.

(** The page a load gives when the key is configured. *)
Definition load (storage : option string) : Page :=
  match domContentLoaded (Some "KEY") storage with
  | Running p | Failed _ p => p
  | ConfigurationError => mkPage (freshPage storage) asLoaded
  end.

(** An event of the user needs its element: a tab for a switch, the
    new-chat button for a new chat, the button of a bubble for an
    artifact view. *)
Definition enabled (p : Page) (ev : Event) : bool :=
  match ev with
  | TabSwitch chatId =>
      match tabsContainer (dom p) with
      | Some ts => existsb (fun t => opens t =? chatId) ts
      | None => false
      end
  | NewChat =>
      match tabsContainer (dom p) with Some _ => true | None => false end
  | ArtifactView index =>
      match chatContainer (world p) with
      | Bubbles bs =>
          match bs !! index with
          | Some b => artifactButton b
          | None => false
          end
      | _ => false
      end
  | _ => true
  end.

Definition fire (p : Page) (ev : Event) : Page :=
  match ev with
  | Type_ t => onWorld (withInput t) p
  | Submit => snd (handleSearchBegin p)
  | Settle n e =>
      match inFlight (world p) !! n with
      | Some f =>
          match runHandler f e (world p) with
          | (Waiting, _) => p
          | (settled, st) => handleSearchEnd f settled (msg st) p
          end
      | None => p
      end
  | Reload => load (localStorage (world p))
  | AuthClick => handleAuthClick p
  | NewChat => handleNewChat p
  | TabSwitch chatId => handleTabSwitch chatId p
  | ArtifactView index => handleArtifactView index p
  | CloseArtifact => closeArtifactPane p
  end.

Definition step (p : Page) (ev : Event) : Page :=
  if enabled p ev then fire p ev else p.

Definition run (p : Page) (evs : list Event) : Page := fold_left step evs p.

(** The page on a first visit. *)
Definition boot : Page := load None.

End Page.

(** ** A well-formed session *)
Module Session.
Import Model Handlers Controller.

(** The id and the title of every chat, in order. *)
Definition entries (s : AppState) : list (Z * string) :=
  map (fun c => (id c, title c)) (chats s).

(** The session is well formed: every chat has an id from 1 up to the
    counter and is titled after it; no two chats share an id; the active
    chat is one of the chats, and there is one as soon as there is a
    chat; a signed-in session has a chat. *)
Definition wellFormed (s : AppState) : Prop :=
  1 <= nextChatId s
  /\ Forall (fun e => 1 <= fst e < nextChatId s
                      /\ snd e = "Chat " +:+ Json.numberToString (fst e)) (entries s)
  /\ NoDup (map fst (entries s))
  /\ match activeChatId s with
     | None => entries s = []
     | Some i => In i (map fst (entries s))
     end
  /\ (isAuthenticated s = true -> entries s <> []).

(** What is stored is the serialisation of a well-formed session. *)
Definition storedWell (storage : option string) : Prop :=
  forall text,
    storage = Some text ->
    exists store0 s0,
      text = Json.stringify (Codec.encodeState store0 s0) /\ wellFormed s0.

(** The event comes from an element of the page: a tab switch names a
    chat of the session. *)
Definition grounded (w : World) (ev : Event) : Prop :=
  match ev with
  | TabSwitch chatId => In chatId (map fst (entries (state w)))
  | _ => True
  end.

End Session.

(** ** The elements follow the session *)
Module Synced.
Import Model Handlers Controller Session Page.

(** The label of the sign-in button. *)
Definition label (auth : bool) : string := if auth then "Sign Out" else "Sign In".

(** The tab bar shows the chats of the session; it is there as soon as
    the user is signed in. *)
Definition tabsSynced (p : Page) : Prop :=
  match tabsContainer (dom p) with
  | None => isAuthenticated (state (world p)) = false
  | Some ts => ts = map (tabOf (state (world p))) (chats (state (world p)))
  end.

(** The button, the tab bar and the search form show whether the user
    is signed in; the application is not left hidden. *)
Definition signSynced (p : Page) : Prop :=
  let auth := isAuthenticated (state (world p)) in
  authButtonText (dom p) = Some (label auth)
  /\ tabsHidden (dom p) = Some (negb auth)
  /\ searchFormHidden (dom p) = Some (negb auth)
  /\ appHidden (dom p) <> Some true.

(** The search box and its button are disabled while a request is
    pending, and only then. *)
Definition loadingSynced (p : Page) : Prop :=
  searchInputDisabled (dom p) = searchButtonDisabled (dom p)
  /\ match searchButtonDisabled (dom p) with
     | None => isLoading (world p) = false
     | Some b => b = isLoading (world p)
     end.

(** The artifact pane is open only on an artifact that was chosen, and
    then its frame holds a document. *)
Definition paneSynced (p : Page) : Prop :=
  match artifactHidden (dom p) with
  | None => artifactVisible (dom p) = None
  | Some hidden =>
      artifactVisible (dom p) = Some (negb hidden)
      /\ (hidden = false ->
          activeArtifactMessageIndex (world p) <> None
          /\ exists c, srcdoc (dom p) = Some (artifactDoc c))
  end.

Definition synced (p : Page) : Prop :=
  wellFormed (state (world p))
  /\ storedWell (localStorage (world p))
  /\ tabsSynced p
  /\ signSynced p
  /\ loadingSynced p
  /\ paneSynced p.

(** The part of the elements the sign-in state and the loading flag
    show in. *)
Definition controls (d : Dom) :=
  (authButtonText d, tabsHidden d, searchFormHidden d, appHidden d,
   searchInputDisabled d, searchButtonDisabled d).

(** The part of the elements the artifact pane is made of. *)
Definition pane (d : Dom) := (artifactHidden d, artifactVisible d, srcdoc d).

End Synced.

(** ** Reloading and showing the session *)
Module Reloads.
Import Model Handlers Controller.

(** The session by value. *)
Definition sessionOf (w : World) : Codec.StateValue :=
  Codec.stateValue (store w) (state w).

(** A reload would give back the session as it is. *)
Definition restored (w : World) : Prop :=
  sessionOf (pageLoad (localStorage w)) = sessionOf w.

(** Signed in and with no request pending, the chat container shows the
    history of the active chat. *)
Definition shown (w : World) : Prop :=
  isAuthenticated (state w) = true -> isLoading w = false ->
  chatContainer w = renderedHistory w.

End Reloads.

(** ** While a request is pending *)
Module Meanwhile.
Import Model Handlers Controller.

(** What the user can do while a request is pending without leaving
    the session: type, submit, open a chat, switch tabs, look at an
    artifact, close it. *)
Definition bystander (ev : Event) : bool :=
  match ev with
  | Type_ _ | Submit | NewChat | TabSwitch _ | ArtifactView _ | CloseArtifact => true
  | Settle _ _ | Reload | AuthClick => false
  end.

(** The request of frame [f], asked in the chat [asked], is pending:
    the flag is set, the frame is the one suspended, the message objects
    are those of [store0], and the chat has the history [h]. *)
Definition pendingIn (f : Frame) (asked : Z) (store0 : list Message) (h : list loc)
           (w : World) : Prop :=
  isLoading w = true
  /\ inFlight w = [f]
  /\ store w = store0
  /\ exists t, findChat (chats (state w)) (Some asked) = Some (mkChat asked t h).

End Meanwhile.

(** ** What a session keeps *)
Module Kept.
Import Model Handlers Controller.

(** The chat [c'] is the chat [c] with, at most, more messages. *)
Definition grows (c c' : Chat) : Prop :=
  id c' = id c /\ title c' = title c /\ exists added, history c' = history c ++ added.

(** The chats [cs] are all there in [cs'], in their places, each with
    its messages; [cs'] may have more chats after them. *)
Definition keptChats (cs cs' : list Chat) : Prop :=
  exists old more, cs' = old ++ more /\ Forall2 grows cs old.

(** No call of [handleSearch] is waiting to write to the message
    object at [l]. *)
Definition settledAt (w : World) (l : loc) : Prop :=
  forall f, In f (inFlight w) -> modelMessage f <> l.

(** From [w] to [w'] no chat and no message is lost, and no message
    object that is settled is changed. *)
Definition kept (w w' : World) : Prop :=
  keptChats (chats (state w)) (chats (state w'))
  /\ forall l m, store w !! l = Some m -> settledAt w l ->
                 store w' !! l = Some m /\ settledAt w' l.

(** The events that neither sign the user out nor reload the page. *)
Definition lasting (ev : Event) : bool :=
  match ev with
  | AuthClick | Reload => false
  | _ => true
  end.

End Kept.

(** ** More sample scripts and pages *)
Module Demo.
Import Model Handlers Controller.

(** An image request answered with a text part and an image part. *)
Definition pictured : Env :=
  mkEnv "KEY" [] [] [Resolve (mkGenerated [[None; Some "iVBORw0KGgo="]])] [] [] [] [] [].

(** A code request answered in two increments. *)
Definition coded : Env :=
  mkEnv "KEY" [] [] []
        [Resolve (mkStream [mkChunk (Some "Here you are.") None;
                            mkChunk (Some (Markdown.nl +:+ Samples.htmlAndCss)) None]
                           EndOfStream)]
        [] [] [] [].

(** A search whose stream breaks off after an increment with
    citations. *)
Definition broken : Stream :=
  mkStream [mkChunk (Some "The cup ") (Some [Scripts.citeA])]
           (StreamFails (Error "network error")).

Definition brokenSearch : Env :=
  mkEnv "KEY" [] [] [] [Resolve broken] [] [] [] [].

(** An operation that is running, and one that is done. *)
Definition running : Operation := mkOperation false None.
Definition finished : Operation := mkOperation true (Some "https://v/1?x=1").

(** A video request with a key selected: the operation is running when
    it comes and at the first poll, and done at the second; the download
    succeeds. *)
Definition filmed : Env :=
  mkEnv "KEY" [Resolve true] [] [] [] [Resolve running]
        [Resolve running; Resolve finished]
        [Resolve (mkResponse true "OK")] [Resolve "blob:1"].

(** The page with a search pending. *)
Definition asking : Page.Page :=
  Page.run Page.boot [AuthClick; Type_ "who won the 2022 world cup"; Submit].

(** The page after a code request was answered. *)
Definition answered : Page.Page :=
  Page.run Page.boot [AuthClick; Type_ "write a page"; Submit; Settle 0 coded].

End Demo.

(** * Properties *)

(** ** Strings *)
Module StringFacts.

Lemma app_cons (c : ascii) (a b : string) : String c a +:+ b = String c (a +:+ b).
Proof. reflexivity. Qed.

Lemma app_nil_l (s : string) : EmptyString +:+ s = s.
Proof. reflexivity. Qed.

Lemma app_nil_r (s : string) : s +:+ EmptyString = s.
Proof. induction s as [|c s IH]; [reflexivity|]. now rewrite app_cons, IH. Qed.

Lemma app_assoc (a b c : string) : (a +:+ b) +:+ c = a +:+ b +:+ c.
Proof. induction a as [|x a IH]; [reflexivity|]. now rewrite !app_cons, IH. Qed.

Lemma app_not_empty_r (a b : string) : b <> EmptyString -> a +:+ b <> EmptyString.
Proof. destruct a; [trivial | discriminate]. Qed.

Lemma concatAll_app (l1 l2 : list string) :
  Js.concatAll (l1 ++ l2) = Js.concatAll l1 +:+ Js.concatAll l2.
Proof.
  induction l1 as [|s l1 IH]; [reflexivity|].
  cbn [Js.concatAll app]. now rewrite IH, app_assoc.
Qed.

Lemma allChars_impl (p q : ascii -> bool) (s : string) :
  (forall c, p c = true -> q c = true) -> Js.allChars p s = true -> Js.allChars q s = true.
Proof.
  intros H. induction s as [|c s IH]; [reflexivity|]. cbn.
  intros E. apply andb_true_iff in E as [E1 E2]. rewrite (H _ E1), (IH E2). reflexivity.
Qed.

Lemma span_all (p : ascii -> bool) (tok rest : string) :
  Js.allChars p tok = true ->
  match rest with EmptyString => true | String c _ => negb (p c) end = true ->
  Js.span p (tok +:+ rest) = (tok, rest).
Proof.
  intros Htok Hrest. induction tok as [|c tok IH].
  - rewrite app_nil_l. destruct rest as [|c r]; [reflexivity|].
    cbn [Js.span]. apply negb_true_iff in Hrest. rewrite Hrest. reflexivity.
  - cbn [Js.allChars] in Htok. apply andb_true_iff in Htok as [Hc Htok].
    rewrite app_cons. cbn [Js.span]. rewrite Hc, (IH Htok). reflexivity.
Qed.

Lemma length_app (a b : string) :
  String.length (a +:+ b) = (String.length a + String.length b)%nat.
Proof.
  induction a as [|c a IH]; [reflexivity|].
  rewrite app_cons. cbn [String.length]. now rewrite IH.
Qed.

Lemma isWordChar_lowerChar (c : ascii) :
  Js.isWordChar (Js.lowerChar c) = true -> Js.isWordChar c = true.
Proof.
  destruct c as [[] [] [] [] [] [] [] []]; vm_compute; intros H;
    first [reflexivity | discriminate H].
Qed.

Lemma allWord_toLowerCase (tag : string) :
  Js.allChars Js.isWordChar (Js.toLowerCase tag) = true ->
  Js.allChars Js.isWordChar tag = true.
Proof.
  induction tag as [|c tag IH]; [reflexivity|].
  cbn [Js.toLowerCase Js.allChars]. intros H. apply andb_true_iff in H as [Hc Htag].
  rewrite (isWordChar_lowerChar _ Hc), (IH Htag). reflexivity.
Qed.

End StringFacts.

(** Appends reassociated to the right, empty strings dropped. *)
Ltac string_normal :=
  repeat rewrite ?StringFacts.app_assoc, ?StringFacts.app_nil_r, ?StringFacts.app_nil_l.

(** ** Pattern matching over a text *)
Module RegexFacts.

Lemma includes_cons (p : string) (c : ascii) (s : string) :
  Js.includes p (String c s) = false ->
  Js.startsWith p (String c s) = false /\ Js.includes p s = false.
Proof. cbn [Js.includes]. intros H. apply orb_false_iff in H. exact H. Qed.

Section NoMatch.
Context {A : Type}.
Variable m : string -> option (A * nat).
Variable opening : string.
Hypothesis m_opening : forall s, Js.startsWith opening s = false -> m s = None.

Lemma replaceAll_no_match (f : A -> string) (s : string) :
  Js.includes opening s = false -> Regex.replaceAll m f O s = s.
Proof.
  induction s as [|c s IH]; [reflexivity|].
  intros H. apply includes_cons in H as [Hhere Hrest].
  cbn [Regex.replaceAll]. rewrite (m_opening _ Hhere), (IH Hrest). reflexivity.
Qed.

Lemma execAll_no_match (s : string) :
  Js.includes opening s = false -> Regex.execAll m O s = [].
Proof.
  induction s as [|c s IH]; [reflexivity|].
  intros H. apply includes_cons in H as [Hhere Hrest].
  cbn [Regex.execAll]. rewrite (m_opening _ Hhere). now apply IH.
Qed.

Lemma string_of_snoc (l : list ascii) (c : ascii) (s : string) :
  string_of_list_ascii (l ++ [c]) +:+ s = string_of_list_ascii l +:+ String c s.
Proof.
  induction l as [|x l IH]; [reflexivity|].
  cbn [app string_of_list_ascii]. rewrite !StringFacts.app_cons, IH. reflexivity.
Qed.

Lemma splitAll_no_match (f : A -> string) (s : string) :
  forall cur,
    Js.includes opening s = false ->
    Regex.splitAll m f O cur s = [string_of_list_ascii (rev cur) +:+ s].
Proof.
  induction s as [|c s IH]; intros cur H.
  - cbn. rewrite StringFacts.app_nil_r. reflexivity.
  - apply includes_cons in H as [Hhere Hrest].
    cbn [Regex.splitAll]. rewrite (m_opening _ Hhere), (IH _ Hrest).
    cbn [rev]. rewrite string_of_snoc. reflexivity.
Qed.
End NoMatch.

Lemma matchFence_opening (s : string) :
  Js.startsWith Markdown.fence s = false -> Markdown.matchFence s = None.
Proof. intros H. unfold Markdown.matchFence. rewrite H. reflexivity. Qed.

Lemma matchBold_opening (s : string) :
  Js.startsWith "**" s = false -> Markdown.matchBold s = None.
Proof. intros H. unfold Markdown.matchBold. rewrite H. reflexivity. Qed.

Lemma matchPre_opening (s : string) :
  Js.startsWith "<pre>" s = false -> Markdown.matchPre s = None.
Proof. intros H. unfold Markdown.matchPre. rewrite H. reflexivity. Qed.

Lemma includes_startsWith (p s : string) :
  Js.includes p s = false -> Js.startsWith p s = false.
Proof.
  destruct s; cbn [Js.includes]; intros H; apply orb_false_iff in H; apply H.
Qed.


Section Quiet.
Context {A : Type}.
Variable m : string -> option (A * nat).
Variable quiet : ascii -> bool.
Hypothesis m_quiet : forall c r, quiet c = true -> m (String c r) = None.

(** No match starts on a quiet character: a quiet stretch in front of
    the text changes nothing. *)
Lemma execAll_quiet_prefix (pre s : string) :
  Js.allChars quiet pre = true ->
  Regex.execAll m O (pre +:+ s) = Regex.execAll m O s.
Proof.
  induction pre as [|c pre IH]; [reflexivity|].
  cbn [Js.allChars]. intros H. apply andb_true_iff in H as [Hc Hpre].
  rewrite StringFacts.app_cons. cbn [Regex.execAll].
  rewrite (m_quiet _ _ Hc). now apply IH.
Qed.

Lemma execAll_quiet (s : string) :
  Js.allChars quiet s = true -> Regex.execAll m O s = [].
Proof.
  intros H. rewrite <- (StringFacts.app_nil_r s). now rewrite execAll_quiet_prefix.
Qed.

(** The characters of a match are skipped. *)
Lemma execAll_skip (s1 s2 : string) :
  Regex.execAll m (String.length s1) (s1 +:+ s2) = Regex.execAll m O s2.
Proof.
  induction s1 as [|c s1 IH]; [reflexivity|].
  rewrite StringFacts.app_cons. cbn [String.length Regex.execAll]. exact IH.
Qed.

(** A match at the head of the text is reported and the search resumes
    after it. *)
Lemma execAll_match (matched rest : string) (a : A) :
  matched <> EmptyString ->
  m (matched +:+ rest) = Some (a, String.length matched) ->
  Regex.execAll m O (matched +:+ rest) = a :: Regex.execAll m O rest.
Proof.
  destruct matched as [|c matched]; [intros H; now elim H|]. intros _ Hm.
  rewrite StringFacts.app_cons in *. cbn [Regex.execAll]. rewrite Hm.
  cbn [String.length Nat.pred]. f_equal. apply execAll_skip.
Qed.
End Quiet.

Lemma splitAtFirst_fence (body rest : string) :
  Js.allChars Markdown.notBacktick body = true ->
  Js.splitAtFirst Markdown.fence (body +:+ Markdown.fence +:+ rest) = Some (body, rest).
Proof.
  induction body as [|c body IH]; [reflexivity|].
  cbn [Js.allChars]. intros H. apply andb_true_iff in H as [Hc Hbody].
  rewrite StringFacts.app_cons. cbn [Js.splitAtFirst].
  assert (Hs : Js.startsWith Markdown.fence (String c (body +:+ Markdown.fence +:+ rest)) = false).
  { unfold Markdown.fence. cbn [Js.startsWith].
    unfold Markdown.notBacktick in Hc. apply negb_true_iff in Hc.
    rewrite Ascii.eqb_sym, Hc. reflexivity. }
  rewrite Hs, (IH Hbody). reflexivity.
Qed.

Lemma matchFence_quiet (c : ascii) (r : string) :
  Markdown.notBacktick c = true -> Markdown.matchFence (String c r) = None.
Proof.
  intros Hc. apply matchFence_opening. unfold Markdown.fence. cbn [Js.startsWith].
  unfold Markdown.notBacktick in Hc. apply negb_true_iff in Hc.
  rewrite Ascii.eqb_sym, Hc. reflexivity.
Qed.

(** The pattern matches a fenced block whose tag is made of word
    characters and whose body has no backtick, and captures both. *)
Lemma matchFence_fenced (tag body rest : string) :
  Js.allChars Js.isWordChar tag = true ->
  Js.allChars Markdown.notBacktick body = true ->
  Markdown.matchFence (Markdown.fenced tag body +:+ rest)
  = Some ((tag, body), String.length (Markdown.fenced tag body)).
Proof.
  intros Htag Hbody. unfold Markdown.fenced, Markdown.matchFence.
  rewrite !StringFacts.app_assoc.
  change (Js.startsWith Markdown.fence
            (Markdown.fence +:+ tag +:+ String Markdown.LF (body +:+ Markdown.fence) +:+ rest))
    with true. cbn iota.
  change (Js.drop 3 (Markdown.fence +:+ tag +:+ String Markdown.LF (body +:+ Markdown.fence) +:+ rest))
    with (tag +:+ String Markdown.LF (body +:+ Markdown.fence) +:+ rest).
  rewrite StringFacts.app_cons.
  rewrite (StringFacts.span_all Js.isWordChar tag _ Htag) by reflexivity.
  rewrite Ascii.eqb_refl, StringFacts.app_assoc, (splitAtFirst_fence _ _ Hbody).
  f_equal. f_equal. rewrite !StringFacts.length_app. cbn [String.length]. 
  rewrite StringFacts.length_app. cbn. lia.
Qed.

Lemma fenced_not_empty (tag body : string) : Markdown.fenced tag body <> EmptyString.
Proof. discriminate. Qed.

(** Searching a text that begins with such a block. *)
Lemma execAll_fenced (tag body rest : string) :
  Js.allChars Js.isWordChar tag = true ->
  Js.allChars Markdown.notBacktick body = true ->
  Regex.execAll Markdown.matchFence O (Markdown.fenced tag body +:+ rest)
  = (tag, body) :: Regex.execAll Markdown.matchFence O rest.
Proof.
  intros Htag Hbody. apply execAll_match; [apply fenced_not_empty|].
  now apply matchFence_fenced.
Qed.

End RegexFacts.

(** ** Code extraction *)
Module ExtractFacts.
Import Extract.

(** The loop adds to each field the blocks of its language, in order,
    and raises the flag at the first recognised block. *)
Lemma fold_blockStep (blocks : list (string * string)) :
  forall c0 h0,
    fold_left blockStep blocks (c0, h0)
    = (mkCode (html c0 +:+ joined LHtml blocks)
              (css c0 +:+ joined LCss blocks)
              (javascript c0 +:+ joined LJs blocks),
       h0 || existsb recognized blocks).
Proof.
  induction blocks as [|m blocks IH]; intros c0 h0.
  - unfold joined. cbn. rewrite !StringFacts.app_nil_r, orb_false_r.
    destruct c0; reflexivity.
  - cbn [fold_left]. unfold blockStep at 2.
    unfold joined, isLang, recognized, langOf in *.
    cbn [List.filter existsb map].
    destruct (Js.eqb (Js.toLowerCase (fst m)) "html") eqn:Eh.
    { rewrite IH. cbn [html css javascript List.filter map Js.concatAll].
      rewrite orb_true_r. string_normal. reflexivity. }
    destruct (Js.eqb (Js.toLowerCase (fst m)) "css") eqn:Ec.
    { rewrite IH. cbn [html css javascript List.filter map Js.concatAll].
      rewrite orb_true_r. string_normal. reflexivity. }
    destruct (Js.eqb (Js.toLowerCase (fst m)) "javascript"
              || Js.eqb (Js.toLowerCase (fst m)) "js") eqn:Ej.
    { rewrite IH. cbn [html css javascript List.filter map Js.concatAll].
      rewrite orb_true_r. string_normal. reflexivity. }
    rewrite IH. reflexivity.
Qed.

Lemma extractCode_eq (markdown : string) :
  extractCode markdown
  = if existsb recognized (codeBlocks markdown)
    then Some (mkCode (joined LHtml (codeBlocks markdown))
                      (joined LCss (codeBlocks markdown))
                      (joined LJs (codeBlocks markdown)))
    else None.
Proof.
  unfold extractCode. rewrite fold_blockStep. reflexivity.
Qed.

Lemma existsb_recognized_filter (l : Lang) (blocks : list (string * string)) :
  List.filter (isLang l) blocks <> [] -> existsb recognized blocks = true.
Proof.
  induction blocks as [|m blocks IH]; [intros H; now elim H|].
  cbn [List.filter existsb]. unfold isLang at 1, recognized at 1.
  destruct (langOf m) as [[]|]; cbn; auto; destruct l; auto.
Qed.

Lemma joined_single (l : Lang) (blocks : list (string * string)) :
  length (List.filter (isLang l) blocks) = 1%nat -> joined l blocks <> EmptyString.
Proof.
  unfold joined. destruct (List.filter (isLang l) blocks) as [|m [|m' rest]];
    try discriminate.
  intros _. cbn [map Js.concatAll]. string_normal.
  apply StringFacts.app_not_empty_r. discriminate.
Qed.

(** *** Texts with fenced blocks *)

(** The blocks of a text made of two fenced blocks with quiet text
    around them. *)
Lemma codeBlocks_two (pre tag1 body1 mid tag2 body2 post : string) :
  Js.allChars Js.isWordChar tag1 = true ->
  Js.allChars Js.isWordChar tag2 = true ->
  Js.allChars Markdown.notBacktick pre = true ->
  Js.allChars Markdown.notBacktick body1 = true ->
  Js.allChars Markdown.notBacktick mid = true ->
  Js.allChars Markdown.notBacktick body2 = true ->
  Js.allChars Markdown.notBacktick post = true ->
  codeBlocks (pre +:+ Markdown.fenced tag1 body1 +:+ mid
                +:+ Markdown.fenced tag2 body2 +:+ post)
  = [(tag1, body1); (tag2, body2)].
Proof.
  intros Ht1 Ht2 Hpre Hb1 Hmid Hb2 Hpost. unfold codeBlocks.
  rewrite (RegexFacts.execAll_quiet_prefix _ _ RegexFacts.matchFence_quiet _ _ Hpre).
  rewrite (RegexFacts.execAll_fenced _ _ _ Ht1 Hb1).
  rewrite (RegexFacts.execAll_quiet_prefix _ _ RegexFacts.matchFence_quiet _ _ Hmid).
  rewrite (RegexFacts.execAll_fenced _ _ _ Ht2 Hb2).
  rewrite (RegexFacts.execAll_quiet _ _ RegexFacts.matchFence_quiet _ Hpost).
  reflexivity.
Qed.

Lemma extractCode_html_css (pre tagH a mid tagC b post : string) :
  Js.toLowerCase tagH = "html" ->
  Js.toLowerCase tagC = "css" ->
  Js.allChars Markdown.notBacktick pre = true ->
  Js.allChars Markdown.notBacktick a = true ->
  Js.allChars Markdown.notBacktick mid = true ->
  Js.allChars Markdown.notBacktick b = true ->
  Js.allChars Markdown.notBacktick post = true ->
  extractCode (pre +:+ Markdown.fenced tagH a +:+ mid +:+ Markdown.fenced tagC b +:+ post)
  = Some (mkCode (Js.trim a +:+ Markdown.nl) (Js.trim b +:+ Markdown.nl) EmptyString).
Proof.
  intros HH HC Hpre Ha Hmid Hb Hpost.
  assert (Ht1 : Js.allChars Js.isWordChar tagH = true)
    by (apply StringFacts.allWord_toLowerCase; rewrite HH; reflexivity).
  assert (Ht2 : Js.allChars Js.isWordChar tagC = true)
    by (apply StringFacts.allWord_toLowerCase; rewrite HC; reflexivity).
  unfold extractCode.
  rewrite (codeBlocks_two _ _ _ _ _ _ _ Ht1 Ht2 Hpre Ha Hmid Hb Hpost).
  cbn [fold_left]. unfold blockStep. cbn [fst snd]. rewrite HH, HC.
  cbn. string_normal. reflexivity.
Qed.

Lemma extractCode_no_fence (markdown : string) :
  Js.includes Markdown.fence markdown = false -> extractCode markdown = None.
Proof.
  intros H. unfold extractCode, codeBlocks.
  rewrite (RegexFacts.execAll_no_match _ _ RegexFacts.matchFence_opening _ H).
  reflexivity.
Qed.

Import Model Handlers.

(** The loop of the streaming handlers leaves the message and the
    script alone and returns the text accumulated. *)
Lemma forAwait_appendChunkText (cs : list Chunk) :
  forall acc st,
  exists effs,
    forAwait appendChunkText cs EndOfStream acc st
    = (Returned (acc +:+ fullTextOf cs), mkHState (msg st) (env st) effs).
Proof.
  induction cs as [|c cs IH]; intros acc st.
  - exists (effects st). cbn. rewrite StringFacts.app_nil_r. destruct st; reflexivity.
  - cbn [forAwait]. unfold bind at 1. unfold appendChunkText at 1.
    unfold fullTextOf. cbn [map Js.concatAll]. fold (fullTextOf cs).
    destruct (chunkText c) as [t|].
    + destruct t as [|x t].
      * cbn. apply IH.
      * cbn [Js.isEmpty]. cbn [bind effect ret]. unfold bind, effect, ret. cbn.
        destruct (IH (acc +:+ String x t)
                     (mkHState (msg st) (env st)
                        ((effects st ++ [SetAnswerHtml (Markdown.simpleMarkdownToHtml (acc +:+ String x t))])
                           ++ [ScrollToEnd]))) as [effs Heffs].
        exists effs. cbn in Heffs. rewrite Heffs.
        rewrite StringFacts.app_assoc. reflexivity.
    + cbn. apply IH.
Qed.

Lemma handleCodeGeneration_run (query : string) (st : HState)
      (stream : Stream) (rest : list (Reply Stream)) :
  generateContentStream (env st) = Resolve stream :: rest ->
  ending stream = EndOfStream ->
  exists effs,
    handleCodeGeneration query st
    = (Returned tt,
       mkHState (setCode (extractCode (fullTextOf (chunks stream)))
                         (setText (fullTextOf (chunks stream)) (msg st)))
                (putGenerateContentStream rest (env st)) effs).
Proof.
  intros Hs He. unfold handleCodeGeneration, await.
  unfold bind at 1. unfold bind at 1. unfold effect at 1.
  unfold bind at 1. unfold getEnv at 1. cbn [env].
  rewrite Hs. unfold deliver. unfold bind at 1. unfold setEnv at 1. unfold ret at 1.
  unfold bind at 1. rewrite He.
  match goal with |- context [forAwait _ _ _ _ ?s] =>
    destruct (forAwait_appendChunkText (chunks stream) EmptyString s) as [effs ->]
  end.
  exists effs. reflexivity.
Qed.


(** C5.  A text made of a block tagged html in any capitalisation and a
    block tagged css, with text free of backticks before, between, after
    and inside them, yields the code object whose html and css are the
    trimmed bodies, a line feed after each, and whose javascript is empty;
    a text with no fence yields none.  In general, over the blocks the
    fenced-block pattern finds in a text: with one html block, one css
    block and no javascript block the result is a code object whose html
    and css are not empty and whose javascript is empty; with no block of
    a recognised language there is no code object, and the code handler
    leaves the message without one; and each field of a code object is
    the trimmed bodies of the blocks of its language in order, a line
    feed after each.  The sample texts show the pattern at work. *)
Theorem extractCode_fenced_blocks :
  (forall pre tagH a mid tagC b post : string,
      Js.toLowerCase tagH = "html" ->
      Js.toLowerCase tagC = "css" ->
      Js.allChars Markdown.notBacktick pre = true ->
      Js.allChars Markdown.notBacktick a = true ->
      Js.allChars Markdown.notBacktick mid = true ->
      Js.allChars Markdown.notBacktick b = true ->
      Js.allChars Markdown.notBacktick post = true ->
      extractCode (pre +:+ Markdown.fenced tagH a +:+ mid
                     +:+ Markdown.fenced tagC b +:+ post)
      = Some (mkCode (Js.trim a +:+ Markdown.nl) (Js.trim b +:+ Markdown.nl) EmptyString))
  /\ (forall markdown,
         Js.includes Markdown.fence markdown = false -> extractCode markdown = None)
  /\ (forall markdown,
      length (List.filter (isLang LHtml) (codeBlocks markdown)) = 1%nat ->
      length (List.filter (isLang LCss) (codeBlocks markdown)) = 1%nat ->
      List.filter (isLang LJs) (codeBlocks markdown) = [] ->
      exists c, extractCode markdown = Some c
                /\ html c <> EmptyString /\ css c <> EmptyString
                /\ javascript c = EmptyString)
  /\ (forall markdown,
         existsb recognized (codeBlocks markdown) = false ->
         extractCode markdown = None)
  /\ (forall query st stream rest,
         generateContentStream (env st) = Resolve stream :: rest ->
         ending stream = EndOfStream ->
         existsb recognized (codeBlocks (fullTextOf (chunks stream))) = false ->
         fst (handleCodeGeneration query st) = Returned tt
         /\ text (msg (snd (handleCodeGeneration query st))) = fullTextOf (chunks stream)
         /\ code (msg (snd (handleCodeGeneration query st))) = None)
  /\ (forall markdown c,
         extractCode markdown = Some c ->
         html c = joined LHtml (codeBlocks markdown)
         /\ css c = joined LCss (codeBlocks markdown)
         /\ javascript c = joined LJs (codeBlocks markdown))
  /\ extractCode Samples.htmlAndCss
     = Some (mkCode ("<h1>Hi</h1>" +:+ Markdown.nl)
                    ("h1 { color: red; }" +:+ Markdown.nl) EmptyString)
  /\ extractCode Samples.twoScripts
     = Some (mkCode EmptyString EmptyString
                    ("let a;" +:+ Markdown.nl +:+ "let b;" +:+ Markdown.nl))
  /\ extractCode Samples.pythonOnly = None
  /\ extractCode "No code at all." = None.
Proof.
  split; [exact extractCode_html_css|]. split; [exact extractCode_no_fence|].
  split; [|split; [|split; [|split; [|repeat split; reflexivity]]]].
  - intros markdown Hh Hc Hj. rewrite extractCode_eq.
    rewrite (existsb_recognized_filter LHtml).
    2:{ intros E. rewrite E in Hh. discriminate. }
    eexists. split; [reflexivity|]. cbn [html css javascript].
    split; [now apply joined_single|]. split; [now apply joined_single|].
    unfold joined. rewrite Hj. reflexivity.
  - intros markdown H. rewrite extractCode_eq, H. reflexivity.
  - intros query st stream rest Hs He Hnone.
    destruct (handleCodeGeneration_run query st stream rest Hs He) as [effs ->].
    cbn. rewrite extractCode_eq, Hnone. auto.
  - intros markdown c. rewrite extractCode_eq.
    destruct (existsb recognized (codeBlocks markdown)); [|discriminate].
    intros [= <-]. auto.
Qed.

(** The first part at a text with an upper-case tag, and the part on
    the blocks found at the sample with one html and one css block. *)
Lemma extractCode_fenced_blocks_witness :
  extractCode ("A page:" +:+ Markdown.nl
                 +:+ Markdown.fenced "HTML" ("<p>hi</p>" +:+ Markdown.nl)
                 +:+ (Markdown.nl +:+ "and its style:" +:+ Markdown.nl)
                 +:+ Markdown.fenced "css" (" p { margin: 0 } " +:+ Markdown.nl)
                 +:+ Markdown.nl)
  = Some (mkCode ("<p>hi</p>" +:+ Markdown.nl) ("p { margin: 0 }" +:+ Markdown.nl)
                 EmptyString)
  /\ exists c, extractCode Samples.htmlAndCss = Some c
               /\ html c <> EmptyString /\ css c <> EmptyString
               /\ javascript c = EmptyString.
Proof.
  split.
  - apply (proj1 extractCode_fenced_blocks
             ("A page:" +:+ Markdown.nl) "HTML" ("<p>hi</p>" +:+ Markdown.nl)
             (Markdown.nl +:+ "and its style:" +:+ Markdown.nl)
             "css" (" p { margin: 0 } " +:+ Markdown.nl) Markdown.nl);
      reflexivity.
  - apply (proj1 (proj2 (proj2 extractCode_fenced_blocks)) Samples.htmlAndCss);
      reflexivity.
Defined.

End ExtractFacts.

(** ** The classifier *)
Module ClassifierFacts.
Import Classifier.






(** *** Phrases anywhere in the query *)







End ClassifierFacts.

(** ** The markdown renderer *)
Module MarkdownFacts.
Import Markdown.

(** The loop over the lines, from any state: what it has written so far,
    then the blocks of the remaining lines, the first of which continues
    the open list when there is one. *)
Lemma fold_lineStep (lines : list string) :
  forall (inList : bool) (acc : string),
    (let '(b, html) := fold_left lineStep lines (inList, acc) in
     if b then html +:+ "</ul>" else html)
    = acc +:+ (if inList then
                 match groupLines isListItem lines with
                 | UList items :: rest =>
                     Js.concatAll (map itemHtml items) +:+ "</ul>" +:+ blocksHtml rest
                 | bs => "</ul>" +:+ blocksHtml bs
                 end
               else blocksHtml (groupLines isListItem lines)).
Proof.
  induction lines as [|line lines IH]; intros inList acc.
  - destruct inList; cbn; string_normal; reflexivity.
  - cbn [fold_left groupLines]. unfold lineStep at 2.
    destruct (isListItem line) eqn:Hitem.
    + rewrite IH. unfold itemHtml at 1.
      destruct (groupLines isListItem lines) as [|[p|items] rest];
        destruct inList; unfold blocksHtml; cbn [map Js.concatAll blockHtml];
        unfold itemHtml; string_normal; reflexivity.
    + rewrite IH.
      destruct inList; unfold blocksHtml; cbn [map Js.concatAll blockHtml];
        string_normal; reflexivity.
Qed.

(** A part outside the code blocks is rendered block by block. *)
Lemma renderSection_blocks (part : string) :
  renderSection part = blocksHtml (blocksOf part).
Proof.
  unfold renderSection, blocksOf.
  pose proof (fold_lineStep (nonBlankLines part) false EmptyString) as H.
  destruct (fold_left lineStep (nonBlankLines part) (false, EmptyString)) as [b html].
  rewrite H. reflexivity.
Qed.

(** *** The grouping into blocks *)

Lemma linesOf_groupLines (item : string -> bool) (lines : list string) :
  linesOf (groupLines item lines) = lines.
Proof.
  induction lines as [|line lines IH]; [reflexivity|].
  cbn [groupLines]. destruct (item line).
  - destruct (groupLines item lines) as [|[p|items] rest]; cbn [linesOf] in *;
      rewrite <- IH; reflexivity.
  - cbn [linesOf]. now rewrite IH.
Qed.

Lemma wellTagged_groupLines (item : string -> bool) (lines : list string) :
  Forall (wellTagged item) (groupLines item lines).
Proof.
  induction lines as [|line lines IH]; [constructor|].
  cbn [groupLines]. destruct (item line) eqn:E.
  - assert (Hone : wellTagged item (UList [line])).
    { split; [discriminate | constructor; [exact E | constructor]]. }
    destruct (groupLines item lines) as [|[p|items] rest].
    + constructor; [exact Hone | constructor].
    + constructor; [exact Hone | exact IH].
    + inversion IH as [|b bs Hb Hrest]; subst. destruct Hb as [_ Hall].
      constructor; [|exact Hrest].
      split; [discriminate | constructor; [exact E | exact Hall]].
  - constructor; [exact E | exact IH].
Qed.

Lemma separated_groupLines (item : string -> bool) (lines : list string) :
  separated (groupLines item lines).
Proof.
  induction lines as [|line lines IH]; [exact I|].
  cbn [groupLines]. destruct (item line).
  - destruct (groupLines item lines) as [|[p|items] rest]; cbn [separated] in *;
      first [exact IH | exact I].
  - destruct (groupLines item lines) as [|[p|items] rest]; cbn [separated] in *;
      exact IH.
Qed.

(** A text with no fence, no pair of asterisks and no code-block tag is
    one part, rendered block by block. *)
Lemma simpleMarkdownToHtml_plain (markdown : string) :
  Js.includes fence markdown = false ->
  Js.includes "**" markdown = false ->
  Js.includes "<pre>" markdown = false ->
  simpleMarkdownToHtml markdown = blocksHtml (blocksOf markdown).
Proof.
  intros Hf Hb Hp. unfold simpleMarkdownToHtml.
  rewrite (RegexFacts.replaceAll_no_match matchFence fence RegexFacts.matchFence_opening _ _ Hf).
  rewrite (RegexFacts.replaceAll_no_match matchBold "**" RegexFacts.matchBold_opening _ _ Hb).
  rewrite (RegexFacts.splitAll_no_match matchPre "<pre>" RegexFacts.matchPre_opening _ _ [] Hp).
  cbn [rev string_of_list_ascii fold_left]. rewrite !StringFacts.app_nil_l.
  unfold renderPart. rewrite (RegexFacts.includes_startsWith _ _ Hp).
  apply renderSection_blocks.
Qed.

(** C7, as the code has it.  The sample text renders as one paragraph
    holding the emphasis span, then one list of two items.  In general a
    part of the text outside code blocks is rendered block by block, where
    a run of non-blank lines whose trimmed text starts with an asterisk
    and a space is one list, each item the trimmed line without its
    marker, every other non-blank line is a paragraph of its own, and
    blank lines are dropped: the blocks hold the non-blank lines in
    order, every list is a maximal run of item lines and every paragraph
    a line that is not one.  A text with no fence, no pair of asterisks
    and no code-block tag is a single such part. *)
Theorem simpleMarkdownToHtml_blocks :
  simpleMarkdownToHtml Samples.boldThenList
  = "<p><strong>bold</strong> </p><ul><li>item1</li><li>item2</li></ul>"
  /\ blocksOf ("<strong>bold</strong> " +:+ nl +:+ nl +:+ "* item1" +:+ nl +:+ "* item2")
     = [Paragraph "<strong>bold</strong> "; UList ["* item1"; "* item2"]]
  /\ (forall part, renderSection part = blocksHtml (blocksOf part))
  /\ (forall part line,
         In line (nonBlankLines part) <->
         In line (Js.splitChar LF part) /\ Js.trim line <> EmptyString)
  /\ (forall part,
         linesOf (blocksOf part) = nonBlankLines part
         /\ Forall (wellTagged isListItem) (blocksOf part)
         /\ separated (blocksOf part))
  /\ (forall markdown,
         Js.includes fence markdown = false ->
         Js.includes "**" markdown = false ->
         Js.includes "<pre>" markdown = false ->
         simpleMarkdownToHtml markdown = blocksHtml (blocksOf markdown)).
Proof.
  split; [reflexivity|]. split; [reflexivity|].
  split; [exact renderSection_blocks|].
  split; [|split; [|exact simpleMarkdownToHtml_plain]].
  - intros part line. unfold nonBlankLines. rewrite filter_In.
    destruct (Js.trim line); cbn; intuition congruence.
  - intros part. unfold blocksOf. split; [apply linesOf_groupLines|].
    split; [apply wellTagged_groupLines | apply separated_groupLines].
Qed.

(** The general rule at a text of three item lines around a blank
    line. *)
Lemma simpleMarkdownToHtml_blocks_witness :
  simpleMarkdownToHtml ("* a" +:+ nl +:+ nl +:+ " * b" +:+ nl +:+ "c")
  = blocksHtml [UList ["* a"; " * b"]; Paragraph "c"].
Proof.
  apply (proj2 (proj2 (proj2 (proj2 (proj2 simpleMarkdownToHtml_blocks))))
           ("* a" +:+ nl +:+ nl +:+ " * b" +:+ nl +:+ "c"));
    reflexivity.
Defined.

(** The rule as the specification words it fails on the code: an
    indented item line is a list item although it does not start with the
    marker, and a line that is the marker alone is a paragraph although it
    starts with it. *)
Lemma simpleMarkdownToHtml_literal_counterexample :
  (simpleMarkdownToHtml Samples.indentedItem = "<ul><li>item</li></ul>"
   /\ blocksOfLiteral Samples.indentedItem = [Paragraph "  * item"]
   /\ simpleMarkdownToHtml Samples.indentedItem
      <> blocksHtml (blocksOfLiteral Samples.indentedItem))
  /\ (simpleMarkdownToHtml Samples.bareMarker = "<p>* </p>"
      /\ blocksOfLiteral Samples.bareMarker = [UList ["* "]]
      /\ simpleMarkdownToHtml Samples.bareMarker
         <> blocksHtml (blocksOfLiteral Samples.bareMarker)).
Proof.
  repeat split; try reflexivity; vm_compute; discriminate.
Qed.

End MarkdownFacts.

(** ** The text-search handler *)
Module TextSearchFacts.
Import Model Handlers.

Lemma sources_setText (t : string) (m : Message) : sources (setText t m) = sources m.
Proof. reflexivity. Qed.

(** Last non-empty list wins. *)
Lemma sourcesAfter_last (cs : list Chunk) :
  forall m,
    sources (sourcesAfter cs m)
    = match lastNonEmpty cs with
      | Some l => Some l
      | None => sources m
      end.
Proof.
  induction cs as [|chunk cs IH]; intros m; [reflexivity|].
  unfold sourcesAfter. cbn [fold_left lastNonEmpty]. fold (sourcesAfter cs (takeSources chunk m)).
  rewrite IH. destruct (lastNonEmpty cs); [reflexivity|].
  unfold takeSources. destruct (groundingChunks chunk) as [[|c l]|]; reflexivity.
Qed.

Lemma appendChunkText_run (acc : string) (chunk : Chunk) (st : HState) :
  exists effs,
    appendChunkText acc chunk st
    = (Returned (acc +:+ match chunkText chunk with Some t => t | None => EmptyString end),
       mkHState (msg st) (env st) effs).
Proof.
  unfold appendChunkText. destruct (chunkText chunk) as [[|x t]|].
  - exists (effects st). cbn. rewrite StringFacts.app_nil_r. destruct st; reflexivity.
  - eexists. cbn. reflexivity.
  - exists (effects st). cbn. rewrite StringFacts.app_nil_r. destruct st; reflexivity.
Qed.

Lemma forAwait_textSearchStep (cs : list Chunk) (fin : StreamEnd) :
  forall acc st,
  exists effs,
    forAwait textSearchStep cs fin acc st
    = (ended fin (acc +:+ fullTextOf cs),
       mkHState (sourcesAfter cs (msg st)) (env st) effs).
Proof.
  induction cs as [|chunk cs IH]; intros acc st.
  - exists (effects st). cbn [forAwait]. unfold fullTextOf. cbn [map Js.concatAll].
    rewrite StringFacts.app_nil_r. destruct fin, st; reflexivity.
  - cbn [forAwait]. unfold bind at 1. unfold textSearchStep at 1. unfold bind at 1.
    destruct (appendChunkText_run acc chunk st) as [effs ->].
    cbn [bind modifyMessage ret msg env effects]. unfold bind, modifyMessage, ret.
    cbn [msg env effects].
    destruct (IH (acc +:+ match chunkText chunk with Some t => t | None => EmptyString end)
                 (mkHState (takeSources chunk (msg st)) (env st) effs)) as [effs' ->].
    exists effs'. unfold fullTextOf. cbn [map Js.concatAll msg env].
    rewrite StringFacts.app_assoc. reflexivity.
Qed.

Lemma handleTextSearch_run (query : string) (st : HState)
      (stream : Stream) (rest : list (Reply Stream)) :
  generateContentStream (env st) = Resolve stream :: rest ->
  exists effs,
    handleTextSearch query st
    = match ending stream with
      | EndOfStream =>
          (Returned tt,
           mkHState (setText (fullTextOf (chunks stream))
                             (sourcesAfter (chunks stream) (msg st)))
                    (putGenerateContentStream rest (env st)) effs)
      | StreamFails e =>
          (Threw e,
           mkHState (sourcesAfter (chunks stream) (msg st))
                    (putGenerateContentStream rest (env st)) effs)
      | StreamStalls =>
          (Waiting,
           mkHState (sourcesAfter (chunks stream) (msg st))
                    (putGenerateContentStream rest (env st)) effs)
      end.
Proof.
  intros Hs. unfold handleTextSearch, await.
  unfold bind at 1. unfold bind at 1. unfold effect at 1.
  unfold bind at 1. unfold getEnv at 1. cbn [env].
  rewrite Hs. unfold deliver. unfold bind at 1. unfold setEnv at 1. unfold ret at 1.
  unfold bind at 1.
  match goal with |- context [forAwait _ _ _ _ ?s] =>
    destruct (forAwait_textSearchStep (chunks stream) (ending stream) EmptyString s)
      as [effs ->]
  end.
  exists effs. destruct (ending stream); reflexivity.
Qed.


Lemma lastNonEmpty_none (cs : list Chunk) :
  (forall chunk, In chunk cs ->
                 groundingChunks chunk = None \/ groundingChunks chunk = Some []) ->
  lastNonEmpty cs = None.
Proof.
  induction cs as [|chunk cs IH]; intros H; [reflexivity|].
  cbn [lastNonEmpty]. rewrite IH by (intros; apply H; now right).
  destruct (H chunk (or_introl eq_refl)) as [-> | ->]; reflexivity.
Qed.

Lemma lastNonEmpty_app (before : list Chunk) (chunk : Chunk) (after : list Chunk)
      (c : Citation) (l : list Citation) :
  groundingChunks chunk = Some (c :: l) ->
  lastNonEmpty after = None ->
  lastNonEmpty (before ++ chunk :: after) = Some (c :: l).
Proof.
  intros Hc Ha. induction before as [|b before IH].
  - cbn [app lastNonEmpty]. rewrite Ha, Hc. reflexivity.
  - cbn [app lastNonEmpty]. rewrite IH. reflexivity.
Qed.

(** C9.  An increment with a non-empty citation list makes that list the
    sources of the message, whatever they were, and touches nothing else;
    an increment with an empty or absent list leaves the message as it is.
    Over a whole stream, however it ends, the sources are the last
    non-empty list of the stream, or what they were when there is none:
    nothing is accumulated or deduplicated. *)
Theorem handleTextSearch_last_sources :
  (forall chunk m c l,
      groundingChunks chunk = Some (c :: l) ->
      takeSources chunk m = setSources (c :: l) m
      /\ sources (takeSources chunk m) = Some (c :: l))
  /\ (forall chunk m,
         groundingChunks chunk = None \/ groundingChunks chunk = Some [] ->
         takeSources chunk m = m)
  /\ (forall query st stream rest,
         generateContentStream (env st) = Resolve stream :: rest ->
         sources (msg (snd (handleTextSearch query st)))
         = match lastNonEmpty (chunks stream) with
           | Some l => Some l
           | None => sources (msg st)
           end)
  /\ (forall before chunk after c l,
         groundingChunks chunk = Some (c :: l) ->
         (forall later, In later after ->
                        groundingChunks later = None \/ groundingChunks later = Some []) ->
         lastNonEmpty (before ++ chunk :: after) = Some (c :: l))
  /\ (forall cs,
         (forall chunk, In chunk cs ->
                        groundingChunks chunk = None \/ groundingChunks chunk = Some []) ->
         lastNonEmpty cs = None)
  /\ (fst (handleTextSearch "who won" (Scripts.fresh Scripts.citedSearch)) = Returned tt
      /\ msg (snd (handleTextSearch "who won" (Scripts.fresh Scripts.citedSearch)))
         = mkMessage Assistant "The cup was won." None None
                     (Some [Scripts.citeB; Scripts.citeB]) None).
Proof.
  split; [|split; [|split; [|split; [|split]]]].
  - intros chunk m c l H. unfold takeSources. rewrite H. split; reflexivity.
  - intros chunk m [H | H]; unfold takeSources; rewrite H; reflexivity.
  - intros query st stream rest Hs.
    destruct (handleTextSearch_run query st stream rest Hs) as [effs ->].
    destruct (ending stream); cbn [snd msg]; rewrite ?sources_setText;
      apply sourcesAfter_last.
  - intros before chunk after c l Hc Hafter.
    apply lastNonEmpty_app; [assumption|]. now apply lastNonEmpty_none.
  - exact lastNonEmpty_none.
  - split; reflexivity.
Qed.

(** The stream-level statement on the sample stream, from a message that
    already has sources. *)
Lemma handleTextSearch_last_sources_witness :
  sources (msg (snd (handleTextSearch "who won"
                       (mkHState (setSources [Scripts.citeA] emptyModelMessage)
                                 Scripts.citedSearch []))))
  = Some [Scripts.citeB; Scripts.citeB].
Proof.
  exact (proj1 (proj2 (proj2 handleTextSearch_last_sources))
           "who won"
           (mkHState (setSources [Scripts.citeA] emptyModelMessage) Scripts.citedSearch [])
           Scripts.cited [] eq_refl).
Defined.

End TextSearchFacts.

(** ** The video handler *)
Module VideoFacts.
Import Model Handlers.

(** A call with the retry flag set never reaches its recursive call. *)
Lemma videoCatch_retry (again again' : Handler unit) (error : JsError) (st : HState) :
  videoCatch again true error st = videoCatch again' true error st.
Proof. unfold videoCatch. destruct (credentialInvalid error); reflexivity. Qed.

Lemma handleVideoGenerationAt_retry (d : nat) (query : string) (st : HState) :
  handleVideoGenerationAt d query true st = handleVideoGenerationAt O query true st.
Proof.
  destruct d; [reflexivity|].
  cbn [handleVideoGenerationAt]. unfold tryCatch.
  destruct (videoAttempt query true st) as [[a|e|] st']; try reflexivity.
  all: apply videoCatch_retry.
Qed.

Lemma videoCatch_ext (again again' : Handler unit) (isRetry : bool)
      (error : JsError) (st : HState) :
  (forall s, again s = again' s) ->
  videoCatch again isRetry error st = videoCatch again' isRetry error st.
Proof.
  intros H. unfold videoCatch.
  destruct (credentialInvalid error); [|reflexivity].
  destruct isRetry; [reflexivity|].
  unfold bind.
  destruct (effect (SetAnswerHtml retryHtml) st) as [[[]|e|] s1]; try reflexivity.
  destruct (sleep 3000 s1) as [[[]|e|] s2]; try reflexivity.
  destruct (await CallOpenSelectKey openSelectKey putOpenSelectKey s2) as [[[]|e|] s3];
    try reflexivity.
  apply H.
Qed.

(** One unfolding of the recursive call is all a run can use: deeper
    unfoldings change nothing. *)
Lemma handleVideoGeneration_depth (d : nat) (query : string) (isRetry : bool)
      (st : HState) :
  handleVideoGenerationAt (S d) query isRetry st = handleVideoGeneration query isRetry st.
Proof.
  unfold handleVideoGeneration. cbn [handleVideoGenerationAt]. unfold tryCatch.
  destruct (videoAttempt query isRetry st) as [[a|e|] st']; try reflexivity.
  apply videoCatch_ext. intros s.
  rewrite handleVideoGenerationAt_retry. reflexivity.
Qed.

Lemma handleVideoGeneration_unfold (query : string) (isRetry : bool) (st : HState) :
  handleVideoGeneration query isRetry st
  = tryCatch (videoAttempt query isRetry)
             (videoCatch (handleVideoGeneration query true) isRetry) st.
Proof.
  unfold handleVideoGeneration at 1. cbn [handleVideoGenerationAt]. unfold tryCatch.
  destruct (videoAttempt query isRetry st) as [[a|e|] st']; reflexivity.
Qed.

(** C3.  Let the body of the [try] block throw [error] in state [st1].
    (1) On a first attempt, if [error] carries the credential signature
    and the key dialog then answers, the run goes on exactly as a call
    with the retry flag set, started after the notice, the three-second
    pause and the dialog.  (2) In a call with the retry flag set, an
    [error] with the signature ends the run at once: the message gets the
    failed-again text, nothing else happens, no further call is made;
    such a call is the body run once with a handler that never calls
    back.  (3) An [error] without the signature ends any call at once
    with the generic failure text.  (4) The function obeys its recursive
    equation, and unfolding the recursion deeper than once changes no
    run.  (5) On the script where generation is refused twice for the
    credential, the effects show one re-prompt and two submissions. *)
Theorem handleVideoGeneration_retry_once :
  (forall query st error st1 rest,
      videoAttempt query false st = (Threw error, st1) ->
      credentialInvalid error = true ->
      openSelectKey (env st1) = Resolve tt :: rest ->
      handleVideoGeneration query false st
      = handleVideoGeneration query true
          (mkHState (msg st1) (putOpenSelectKey rest (env st1))
                    (effects st1 ++ [SetAnswerHtml retryHtml; Sleep 3000; CallOpenSelectKey])))
  /\ (forall query st error st1,
         videoAttempt query true st = (Threw error, st1) ->
         credentialInvalid error = true ->
         handleVideoGeneration query true st
         = (Returned tt,
            mkHState (setText videoFailedAgainText (msg st1)) (env st1) (effects st1)))
  /\ (forall query st,
         handleVideoGeneration query true st
         = tryCatch (videoAttempt query true)
                    (fun error =>
                       if credentialInvalid error
                       then modifyMessage (setText videoFailedAgainText)
                       else effect ConsoleError ;; modifyMessage (setText videoFailedText))
                    st)
  /\ (forall query isRetry st error st1,
         videoAttempt query isRetry st = (Threw error, st1) ->
         credentialInvalid error = false ->
         handleVideoGeneration query isRetry st
         = (Returned tt,
            mkHState (setText videoFailedText (msg st1)) (env st1)
                     (effects st1 ++ [ConsoleError])))
  /\ (forall query isRetry st,
         handleVideoGeneration query isRetry st
         = tryCatch (videoAttempt query isRetry)
                    (videoCatch (handleVideoGeneration query true) isRetry) st)
  /\ (forall d query isRetry st,
         handleVideoGenerationAt (S d) query isRetry st
         = handleVideoGeneration query isRetry st)
  /\ (fst (handleVideoGeneration "animate a logo" false (Scripts.fresh Scripts.refusedTwice))
      = Returned tt
      /\ text (msg (snd (handleVideoGeneration "animate a logo" false
                           (Scripts.fresh Scripts.refusedTwice))))
         = videoFailedAgainText
      /\ effects (snd (handleVideoGeneration "animate a logo" false
                         (Scripts.fresh Scripts.refusedTwice)))
         = [CallHasSelectedApiKey; SetAnswerHtml kickoffHtml;
            CallGenerateVideos "animate a logo";
            SetAnswerHtml retryHtml; Sleep 3000; CallOpenSelectKey;
            SetAnswerHtml kickoffHtml; CallGenerateVideos "animate a logo"]).
Proof.
  split; [|split; [|split; [|split; [|split; [|split]]]]].
  - intros query st error st1 rest Ha Hc Hk.
    rewrite handleVideoGeneration_unfold at 1. unfold tryCatch. rewrite Ha.
    unfold videoCatch. rewrite Hc. unfold await, sleep.
    unfold bind, effect, getEnv. cbn [env effects msg].
    rewrite Hk. unfold deliver, bind, setEnv, ret. cbn [env effects msg].
    rewrite <- !app_assoc. reflexivity.
  - intros query st error st1 Ha Hc.
    rewrite handleVideoGeneration_unfold. unfold tryCatch. rewrite Ha.
    unfold videoCatch. rewrite Hc. reflexivity.
  - intros query st. rewrite handleVideoGeneration_unfold. unfold tryCatch.
    destruct (videoAttempt query true st) as [[a|e|] st']; reflexivity.
  - intros query isRetry st error st1 Ha Hc.
    rewrite handleVideoGeneration_unfold. unfold tryCatch. rewrite Ha.
    unfold videoCatch. rewrite Hc. reflexivity.
  - exact handleVideoGeneration_unfold.
  - exact handleVideoGeneration_depth.
  - repeat split; reflexivity.
Qed.

(** Part (1) on the script where generation is refused twice. *)
Lemma handleVideoGeneration_retry_once_witness :
  videoAttempt "animate a logo" false (Scripts.fresh Scripts.refusedTwice)
  = (Threw (Error "404: Requested entity was not found."),
     mkHState emptyModelMessage
              (mkEnv "KEY" [] [Resolve tt] [] [] [Scripts.notFound] [] [] [])
              [CallHasSelectedApiKey; SetAnswerHtml kickoffHtml;
               CallGenerateVideos "animate a logo"])
  /\ handleVideoGeneration "animate a logo" false (Scripts.fresh Scripts.refusedTwice)
     = handleVideoGeneration "animate a logo" true
         (mkHState emptyModelMessage
                   (mkEnv "KEY" [] [] [] [] [Scripts.notFound] [] [] [])
                   [CallHasSelectedApiKey; SetAnswerHtml kickoffHtml;
                    CallGenerateVideos "animate a logo";
                    SetAnswerHtml retryHtml; Sleep 3000; CallOpenSelectKey]).
Proof.
  split; [reflexivity|].
  exact (proj1 handleVideoGeneration_retry_once
           "animate a logo" (Scripts.fresh Scripts.refusedTwice)
           (Error "404: Requested entity was not found.")
           (mkHState emptyModelMessage
              (mkEnv "KEY" [] [Resolve tt] [] [] [Scripts.notFound] [] [] [])
              [CallHasSelectedApiKey; SetAnswerHtml kickoffHtml;
               CallGenerateVideos "animate a logo"])
           [] eq_refl eq_refl eq_refl).
Defined.

End VideoFacts.

(** ** JSON text round trip *)
Module JsonFacts.
Import Json.

(** Induction over a JSON value with the hypothesis for every element
    of an array and every property value of an object. *)
Lemma json_induction (P : json -> Prop) :
  P JNull ->
  (forall b, P (JBool b)) ->
  (forall n, P (JNum n)) ->
  (forall s, P (JStr s)) ->
  (forall items, Forall P items -> P (JArr items)) ->
  (forall props, Forall (fun kv => P (snd kv)) props -> P (JObj props)) ->
  forall j, P j.
Proof.
  intros Hnull Hbool Hnum Hstr Harr Hobj.
  fix IH 1. intros [ |b|n|s|items|props].
  - exact Hnull.
  - apply Hbool.
  - apply Hnum.
  - apply Hstr.
  - apply Harr. induction items as [|x items IHitems]; constructor; [apply IH | exact IHitems].
  - apply Hobj. induction props as [|[k v] props IHprops]; constructor;
      [apply IH | exact IHprops].
Qed.

(** *** Numbers *)

Lemma digits_string_of_uint (d : Decimal.uint) :
  Js.allChars isDigit (NilEmpty.string_of_uint d) = true.
Proof. induction d; cbn; auto. Qed.

Lemma numberChars_string_of_uint (d : Decimal.uint) :
  Js.allChars isNumberChar (NilZero.string_of_uint d) = true.
Proof.
  destruct d; try reflexivity;
    (eapply StringFacts.allChars_impl; [|apply digits_string_of_uint]);
    intros c Hc; unfold isNumberChar; rewrite Hc; reflexivity.
Qed.

Lemma numberToString_chars (n : Z) : Js.allChars isNumberChar (numberToString n) = true.
Proof.
  unfold numberToString. destruct (Z.to_int n) as [d|d]; cbn [NilZero.string_of_int].
  - apply numberChars_string_of_uint.
  - cbn [Js.allChars]. rewrite numberChars_string_of_uint. reflexivity.
Qed.

Lemma to_int_proper (n : Z) :
  Z.to_int n <> Decimal.Pos Decimal.Nil /\ Z.to_int n <> Decimal.Neg Decimal.Nil.
Proof.
  destruct n as [|p|p]; cbn; split; try discriminate;
    intros [= H]; now apply (DecimalPos.Unsigned.to_uint_nonnil p).
Qed.

Lemma int_of_numberToString (n : Z) :
  NilZero.int_of_string (numberToString n) = Some (Z.to_int n).
Proof.
  unfold numberToString. destruct (to_int_proper n). now apply NilZero.isi.
Qed.

Lemma numberToString_not_negative_zero (n : Z) : Js.eqb (numberToString n) "-0" = false.
Proof.
  unfold Js.eqb. apply String.eqb_neq. intros H.
  pose proof (int_of_numberToString n) as E. rewrite H in E. cbn in E.
  injection E as E. 
  assert (Hn : Z.of_int (Z.to_int n) = 0) by (rewrite <- E; reflexivity).
  rewrite DecimalZ.of_to in Hn. subst n. discriminate E.
Qed.

Lemma parseNumber_numberToString (n : Z) (rest : string) :
  endsNumber rest = true ->
  parseNumber (numberToString n +:+ rest) = Some (n, rest).
Proof.
  intros Hrest. unfold parseNumber.
  rewrite (StringFacts.span_all isNumberChar _ _ (numberToString_chars n) Hrest).
  rewrite numberToString_not_negative_zero, int_of_numberToString.
  rewrite DecimalZ.of_to. unfold Js.eqb. rewrite String.eqb_refl. reflexivity.
Qed.


(** *** Strings *)

Lemma parseChars_escapeChar (c : ascii) (s : string) :
  parseChars (escapeChar c +:+ s) = consTo c (parseChars s).
Proof.
  destruct c as [[] [] [] [] [] [] [] []]; reflexivity.
Qed.

Lemma parseChars_escapeString (s rest : string) :
  parseChars (escapeString s +:+ String dq rest) = Some (s, rest).
Proof.
  induction s as [|c s IH]; [reflexivity|].
  cbn [escapeString]. rewrite StringFacts.app_assoc, parseChars_escapeChar, IH.
  reflexivity.
Qed.

Lemma quote_app (s rest : string) :
  quote s +:+ rest = String dq (escapeString s +:+ String dq rest).
Proof.
  unfold quote. rewrite StringFacts.app_cons, StringFacts.app_assoc. reflexivity.
Qed.

(** *** Values *)

Lemma follows_endsNumber (rest : string) : follows rest = true -> endsNumber rest = true.
Proof.
  destruct rest as [|c r]; [reflexivity|].
  destruct c as [[] [] [] [] [] [] [] []]; cbn; intros H;
    first [reflexivity | discriminate H].
Qed.

(** The first character of a number literal sends [parseValue] to
    [parseNumber]. *)
Lemma parseValue_number (fuel : nat) (c : ascii) (r : string) :
  isNumberChar c = true ->
  parseValue (S fuel) (String c r)
  = match parseNumber (String c r) with
    | Some (n, rest) => Some (JNum n, rest)
    | None => None
    end.
Proof.
  destruct c as [[] [] [] [] [] [] [] []]; cbn; try discriminate; reflexivity.
Qed.

Lemma numberToString_head (n : Z) :
  exists c s, numberToString n = String c s /\ isNumberChar c = true.
Proof.
  pose proof (numberToString_chars n) as H.
  pose proof (int_of_numberToString n) as E.
  destruct (numberToString n) as [|c s]; [discriminate E|].
  cbn in H. apply andb_true_iff in H as [H _]. eauto.
Qed.

Lemma parseValue_JNum (fuel : nat) (n : Z) (rest : string) :
  follows rest = true ->
  parseValue (S fuel) (stringify (JNum n) +:+ rest) = Some (JNum n, rest).
Proof.
  intros Hrest. cbn [stringify].
  destruct (numberToString_head n) as (c & s & E & Hc).
  pose proof (parseNumber_numberToString n rest (follows_endsNumber _ Hrest)) as Hp.
  rewrite E in *. rewrite StringFacts.app_cons in *.
  rewrite (parseValue_number _ _ _ Hc), Hp. reflexivity.
Qed.

Lemma stringify_opens (j : json) (rest : string) : opens (stringify j +:+ rest) = true.
Proof.
  destruct j as [ |[]|n|s|items|props]; try reflexivity.
  cbn [stringify]. destruct (numberToString_head n) as (c & s & -> & Hc).
  rewrite StringFacts.app_cons. cbn [opens].
  destruct c as [[] [] [] [] [] [] [] []]; cbn in Hc; try discriminate; reflexivity.
Qed.

Lemma skipWs_opens (s : string) : opens s = true -> skipWs s = s.
Proof.
  destruct s as [|c r]; [discriminate|]. cbn.
  destruct (isJsonSpace c); [discriminate | reflexivity].
Qed.

Lemma skipWs_follows (s : string) : follows s = true -> skipWs s = s.
Proof.
  destruct s as [|c r]; [reflexivity|].
  destruct c as [[] [] [] [] [] [] [] []]; cbn; intros H;
    first [reflexivity | discriminate H].
Qed.


Lemma joinWith_cons (sep p : string) (q : string) (rest : list string) :
  joinWith sep (p :: q :: rest) = p +:+ sep +:+ joinWith sep (q :: rest).
Proof. reflexivity. Qed.

(** Tests on characters that are known are decided on the spot. *)
Ltac known_chars :=
  repeat match goal with
         | |- context [isJsonSpace (Ascii ?a ?b ?c ?d ?e ?f ?g ?h)] =>
             let t := constr:(isJsonSpace (Ascii a b c d e f g h)) in
             let v := eval vm_compute in t in
             change t with v; cbn iota
         | |- context [Ascii.eqb (Ascii ?a ?b ?c ?d ?e ?f ?g ?h)
                                 (Ascii ?a' ?b' ?c' ?d' ?e' ?f' ?g' ?h')] =>
             let t := constr:(Ascii.eqb (Ascii a b c d e f g h)
                                        (Ascii a' b' c' d' e' f' g' h')) in
             let v := eval vm_compute in t in
             change t with v; cbn iota
         end.

Lemma parseItems_stringify (items : list json) :
  Forall readsBack items -> items <> [] ->
  forall fuel rest,
    (list_sum (map (fun x => S (size x)) items) <= fuel)%nat ->
    parseItems fuel (joinWith "," (map stringify items) +:+ String "]" rest)
    = Some (items, rest).
Proof.
  induction 1 as [|x items Hx Hitems IH]; intros Hne fuel rest Hfuel; [now elim Hne|].
  cbn [map list_sum] in Hfuel.
  destruct fuel as [|fuel]; [cbn in Hfuel; lia|].
  cbn [parseItems]. destruct items as [|y items].
  - cbn [map joinWith].
    rewrite (Hx fuel (String "]" rest)) by (cbn in *; first [lia | reflexivity]).
    cbn [skipWs]. known_chars. reflexivity.
  - cbn [map]. rewrite joinWith_cons, !StringFacts.app_assoc.
    change ("," +:+ joinWith "," (stringify y :: map stringify items) +:+ String "]" rest)
      with (String "," (joinWith "," (map stringify (y :: items)) +:+ String "]" rest)).
    rewrite (Hx fuel _) by (cbn in *; first [lia | reflexivity]).
    cbn [skipWs]. known_chars.
    rewrite IH; [reflexivity | discriminate | cbn in *; lia].
Qed.

Lemma parseProps_stringify (props : list (string * json)) :
  Forall (fun kv => readsBack (snd kv)) props -> props <> [] ->
  forall fuel rest,
    (list_sum (map (fun kv => S (size (snd kv))) props) <= fuel)%nat ->
    parseProps fuel
      (joinWith "," (map (fun kv => quote (fst kv) +:+ ":" +:+ stringify (snd kv)) props)
         +:+ String "}" rest)
    = Some (props, rest).
Proof.
  induction 1 as [|[k v] props Hv Hprops IH]; intros Hne fuel rest Hfuel; [now elim Hne|].
  cbn [map list_sum snd fst] in *.
  destruct fuel as [|fuel]; [cbn in Hfuel; lia|].
  cbn [parseProps]. destruct props as [|kv props].
  - cbn [map joinWith]. rewrite StringFacts.app_assoc, quote_app.
    cbn [skipWs]. change (isJsonSpace dq) with false. cbn iota.
    rewrite Ascii.eqb_refl.
    rewrite ?StringFacts.app_assoc.
    change (":" +:+ stringify v +:+ String "}" rest)
      with (String ":" (stringify v +:+ String "}" rest)).
    rewrite parseChars_escapeString. cbn [skipWs]. known_chars.
    rewrite (Hv fuel (String "}" rest)) by (cbn in *; first [lia | reflexivity]).
    cbn [skipWs]. known_chars. reflexivity.
  - cbn [map]. rewrite joinWith_cons. cbn [fst snd].
    rewrite !StringFacts.app_assoc, quote_app.
    cbn [skipWs]. change (isJsonSpace dq) with false. cbn iota.
    rewrite Ascii.eqb_refl.
    rewrite ?StringFacts.app_assoc.
    match goal with |- context [parseChars (escapeString k +:+ String dq ?r)] =>
      change r with (String ":" (stringify v +:+ String ","
        (joinWith "," (map (fun kv => quote (fst kv) +:+ ":" +:+ stringify (snd kv))
                           (kv :: props)) +:+ String "}" rest)))
    end.
    rewrite parseChars_escapeString. cbn [skipWs]. known_chars.
    rewrite (Hv fuel _) by (cbn in *; first [lia | reflexivity]).
    cbn [skipWs]. known_chars.
    rewrite IH; [reflexivity | discriminate | cbn in *; lia].
Qed.


Lemma parseValue_string (fuel : nat) (r : string) :
  parseValue (S fuel) (String dq r)
  = match parseChars r with
    | Some (t, rest) => Some (JStr t, rest)
    | None => None
    end.
Proof. reflexivity. Qed.

Lemma parseValue_array (fuel : nat) (c : ascii) (r : string) :
  isJsonSpace c = false -> Ascii.eqb c "]" = false ->
  parseValue (S fuel) (String "[" (String c r))
  = match parseItems fuel (String c r) with
    | Some (items, rest) => Some (JArr items, rest)
    | None => None
    end.
Proof.
  intros Hs Hc. cbn [parseValue skipWs]. known_chars. cbn [skipWs]. rewrite Hs, Hc.
  reflexivity.
Qed.

Lemma parseValue_object (fuel : nat) (c : ascii) (r : string) :
  isJsonSpace c = false -> Ascii.eqb c "}" = false ->
  parseValue (S fuel) (String "{" (String c r))
  = match parseProps fuel (String c r) with
    | Some (props, rest) => Some (JObj props, rest)
    | None => None
    end.
Proof.
  intros Hs Hc. cbn [parseValue skipWs]. known_chars. cbn [skipWs]. rewrite Hs, Hc.
  reflexivity.
Qed.

Lemma opens_inv (s : string) :
  opens s = true ->
  exists c r, s = String c r /\ isJsonSpace c = false
              /\ Ascii.eqb c "]" = false /\ Ascii.eqb c "}" = false.
Proof.
  destruct s as [|c r]; [discriminate|]. cbn [opens]. intros H.
  apply andb_true_iff in H as [H H3]. apply andb_true_iff in H as [H1 H2].
  apply negb_true_iff in H1, H2, H3. eauto 8.
Qed.

Lemma items_open (x : json) (items : list json) (rest : string) :
  opens (joinWith "," (map stringify (x :: items)) +:+ rest) = true.
Proof.
  destruct items as [|y items]; cbn [map].
  - apply stringify_opens.
  - rewrite joinWith_cons, StringFacts.app_assoc. apply stringify_opens.
Qed.

Lemma props_open (kv : string * json) (props : list (string * json)) (rest : string) :
  opens (joinWith "," (map (fun kv => quote (fst kv) +:+ ":" +:+ stringify (snd kv))
                           (kv :: props)) +:+ rest) = true.
Proof.
  destruct props as [|kv' props]; cbn [map].
  - cbn [joinWith]. rewrite StringFacts.app_assoc, quote_app. reflexivity.
  - rewrite joinWith_cons, !StringFacts.app_assoc, quote_app. reflexivity.
Qed.

Theorem parseValue_stringify (j : json) : readsBack j.
Proof.
  induction j as [ |b|n|s|items IH|props IH] using json_induction;
    intros fuel rest Hfuel Hrest;
    (destruct fuel as [|fuel]; [cbn in Hfuel; lia|]).
  - reflexivity.
  - destruct b; reflexivity.
  - now apply parseValue_JNum.
  - cbn [stringify]. rewrite quote_app, parseValue_string, parseChars_escapeString.
    reflexivity.
  - destruct items as [|x items]; [reflexivity|].
    change (size (JArr (x :: items)))
      with (S (list_sum (map (fun x => S (size x)) (x :: items)))) in Hfuel.
    apply le_S_n in Hfuel. cbn [stringify].
    change ("[" +:+ joinWith "," (map stringify (x :: items)) +:+ "]")
      with (String "[" (joinWith "," (map stringify (x :: items)) +:+ "]")).
    rewrite StringFacts.app_cons, StringFacts.app_assoc.
    change ("]" +:+ rest) with (String "]" rest).
    destruct (opens_inv _ (items_open x items (String "]" rest)))
      as (c & r & E & Hs & Hc & _).
    pose proof (parseItems_stringify (x :: items) IH ltac:(discriminate) fuel rest
                  Hfuel) as Hp.
    rewrite E in *. rewrite (parseValue_array _ _ _ Hs Hc), Hp. reflexivity.
  - destruct props as [|kv props]; [reflexivity|].
    change (size (JObj (kv :: props)))
      with (S (list_sum (map (fun kv => S (size (snd kv))) (kv :: props)))) in Hfuel.
    apply le_S_n in Hfuel. cbn [stringify].
    match goal with |- context [joinWith "," ?l] =>
      change ("{" +:+ joinWith "," l +:+ "}") with (String "{" (joinWith "," l +:+ "}"))
    end.
    rewrite StringFacts.app_cons, StringFacts.app_assoc.
    change ("}" +:+ rest) with (String "}" rest).
    destruct (opens_inv _ (props_open kv props (String "}" rest)))
      as (c & r & E & Hs & _ & Hc).
    pose proof (parseProps_stringify (kv :: props) IH ltac:(discriminate) fuel rest
                  Hfuel) as Hp.
    rewrite E in *. rewrite (parseValue_object _ _ _ Hs Hc), Hp. reflexivity.
Qed.

(** *** The text is long enough to serve as fuel *)

Lemma length_joinWith (parts : list string) (sizes : list nat) :
  Forall2 (fun p n => (n <= String.length p)%nat) parts sizes ->
  (list_sum (map S sizes) <= S (String.length (joinWith "," parts)))%nat.
Proof.
  induction 1 as [|p n parts sizes Hp Hparts IH]; [cbn; lia|].
  destruct Hparts as [|q m parts sizes Hq Hparts].
  - cbn in *. lia.
  - rewrite joinWith_cons, !StringFacts.length_app. cbn [map] in *.
    unfold list_sum in *. cbn [fold_right] in *.
    change (String.length ",") with 1%nat. lia.
Qed.

Lemma size_le_length (j : json) : (size j <= String.length (stringify j))%nat.
Proof.
  induction j as [ |b|n|s|items IH|props IH] using json_induction.
  - cbn. lia.
  - destruct b; cbn; lia.
  - cbn [size stringify]. destruct (numberToString_head n) as (c & s & -> & _). cbn. lia.
  - cbn. lia.
  - cbn [size stringify]. rewrite !StringFacts.length_app.
    change (String.length "[") with 1%nat. change (String.length "]") with 1%nat.
    assert (H : (list_sum (map S (map size items))
                 <= S (String.length (joinWith "," (map stringify items))))%nat).
    { apply length_joinWith. induction IH; constructor; assumption. }
    rewrite map_map in H. lia.
  - cbn [size stringify]. rewrite !StringFacts.length_app.
    change (String.length "{") with 1%nat. change (String.length "}") with 1%nat.
    assert (H : (list_sum (map S (map (fun kv => size (snd kv)) props))
                 <= S (String.length
                         (joinWith ","
                            (map (fun kv => quote (fst kv) +:+ ":" +:+ stringify (snd kv))
                                 props))))%nat).
    { apply length_joinWith. induction IH as [|kv props Hkv Hprops IHp]; constructor;
        [|assumption].
      rewrite !StringFacts.length_app. lia. }
    rewrite map_map in H. lia.
Qed.

(** [JSON.parse(JSON.stringify(value))] is [value]. *)
Theorem parse_stringify (j : json) : parse (stringify j) = Some j.
Proof.
  unfold parse.
  rewrite <- (StringFacts.app_nil_r (stringify j)) at 2.
  rewrite (parseValue_stringify j (S (String.length (stringify j))) EmptyString).
  - reflexivity.
  - pose proof (size_le_length j). lia.
  - reflexivity.
Qed.

End JsonFacts.

(** ** The session codec *)
Module CodecFacts.
Import Json Model Codec.

Lemma decodeList_map {A B : Type} (enc : A -> json) (dec : json -> option B)
      (f : A -> B) (l : list A) :
  (forall a, dec (enc a) = Some (f a)) ->
  decodeList dec (map enc l) = Some (map f l).
Proof.
  intros H. induction l as [|a l IH]; [reflexivity|].
  cbn [map decodeList]. rewrite H, IH. reflexivity.
Qed.

Lemma decodeList_encode {A : Type} (enc : A -> json) (dec : json -> option A)
      (l : list A) :
  (forall a, dec (enc a) = Some a) ->
  decodeList dec (map enc l) = Some l.
Proof.
  intros H. rewrite (decodeList_map enc dec (fun a => a)) by exact H.
  now rewrite map_id.
Qed.

Lemma decode_encodeWeb (w : Web) : decodeWeb (encodeWeb w) = Some w.
Proof. destruct w as [[u|] [t|]]; reflexivity. Qed.

Lemma decode_encodeCitation (c : Citation) : decodeCitation (encodeCitation c) = Some c.
Proof.
  destruct c as [[w|]]; [|reflexivity].
  unfold decodeCitation, encodeCitation. cbn [web optProp asProps].
  unfold optField. cbn -[decodeWeb encodeWeb]. rewrite decode_encodeWeb. reflexivity.
Qed.

Lemma decode_encodeCode (c : Extract.Code) : decodeCode (encodeCode c) = Some c.
Proof. destruct c; reflexivity. Qed.

Lemma decode_encodeMessage (m : Message) : decodeMessage (encodeMessage m) = Some m.
Proof.
  destruct m as [r t i v s c].
  destruct r, i as [i|], v as [v|], s as [s|], c as [c|];
    unfold decodeMessage, encodeMessage;
    cbn [role text image video sources code optProp app asProps];
    unfold reqField, optField;
    cbn -[decodeCode encodeCode decodeCitation encodeCitation decodeList];
    rewrite ?decode_encodeCode, ?(decodeList_encode _ _ _ decode_encodeCitation);
    reflexivity.
Qed.


Lemma decode_encodeChat (store : list Message) (c : Chat) :
  decodeChat (encodeChat store c) = Some (chatValue store c).
Proof.
  unfold decodeChat, encodeChat, chatValue, reqField.
  cbn -[decodeMessage encodeMessage decodeList].
  rewrite (decodeList_encode _ _ _ decode_encodeMessage). reflexivity.
Qed.

Lemma decode_encodeState (store : list Message) (s : AppState) :
  decodeState (encodeState store s) = Some (stateValue store s).
Proof.
  unfold decodeState, encodeState, stateValue, reqField.
  cbn -[decodeChat encodeChat decodeList].
  rewrite (decodeList_map _ _ _ _ (decode_encodeChat store)).
  destruct (activeChatId s); reflexivity.
Qed.

(** *** Allocation *)

Lemma messagesOf_prefix (store more : list Message) (h : list nat) :
  Forall (fun l => (l < length store)%nat) h ->
  messagesOf (store ++ more) h = messagesOf store h.
Proof.
  unfold messagesOf. induction 1 as [|l h Hl Hh IH]; [reflexivity|].
  cbn [omap list_omap]. rewrite (lookup_app_l _ _ _ Hl).
  destruct (store !! l); [f_equal|]; exact IH.
Qed.

Lemma messagesOf_seq (h : list Message) :
  forall store, messagesOf (store ++ h) (seq (length store) (length h)) = h.
Proof.
  unfold messagesOf. induction h as [|m h IH]; intros store; [reflexivity|].
  cbn [length seq omap list_omap].
  rewrite (list_lookup_middle store h m _ eq_refl). f_equal.
  change (store ++ m :: h) with (store ++ [m] ++ h). rewrite app_assoc.
  replace (S (length store)) with (length (store ++ [m]))
    by (rewrite length_app; cbn; lia).
  apply IH.
Qed.

Lemma chatValue_prefix (store more : list Message) (c : Chat) :
  validIn store c -> chatValue (store ++ more) c = chatValue store c.
Proof. intros H. unfold chatValue. now rewrite messagesOf_prefix. Qed.

Lemma validIn_prefix (store more : list Message) (c : Chat) :
  validIn store c -> validIn (store ++ more) c.
Proof.
  unfold validIn. intros H. eapply Forall_impl; [exact H|].
  cbn. intros l Hl. rewrite length_app. lia.
Qed.

Lemma fold_allocChat (cvs : list ChatValue) :
  forall store cs,
    Forall (validIn store) cs ->
    map (chatValue (fst (fold_left allocChat cvs (store, cs))))
        (snd (fold_left allocChat cvs (store, cs)))
    = map (chatValue store) cs ++ cvs.
Proof.
  induction cvs as [|[i t h] cvs IH]; intros store cs Hcs.
  - cbn. now rewrite app_nil_r.
  - cbn [fold_left allocChat cv_history cv_id cv_title].
    rewrite IH.
    + rewrite map_app. cbn [map]. rewrite <- app_assoc. cbn [app]. f_equal.
      * apply map_ext_in. intros c Hc. apply chatValue_prefix.
        rewrite Forall_forall in Hcs. apply Hcs. now apply list_elem_of_In.
      * unfold chatValue at 1. cbn [id title history]. rewrite messagesOf_seq.
        reflexivity.
    + apply Forall_app. split.
      * eapply Forall_impl; [exact Hcs|]. intros c. apply validIn_prefix.
      * repeat constructor. unfold validIn. cbn [history].
        apply Forall_forall. intros l Hl. apply list_elem_of_In, in_seq in Hl.
        rewrite length_app. lia.
Qed.

Lemma allocState_value (store : list Message) (v : StateValue) :
  stateValue (fst (allocState store v)) (snd (allocState store v)) = v.
Proof.
  unfold allocState.
  pose proof (fold_allocChat (sv_chats v) store [] (Forall_nil_2 _)) as H.
  destruct (fold_left allocChat (sv_chats v) (store, [])) as [store' cs].
  cbn [fst snd] in *. unfold stateValue.
  cbn [isAuthenticated chats activeChatId nextChatId]. rewrite H.
  destruct v; reflexivity.
Qed.

End CodecFacts.

(** ** Persistence *)
Module PersistFacts.
Import Model Handlers Controller.

(** [loadState] touches the state and the store and nothing else. *)
Lemma loadState_frame (page w' : World) :
  loadState page = inl w' ->
  isLoading w' = isLoading page
  /\ inFlight w' = inFlight page
  /\ localStorage w' = localStorage page.
Proof.
  unfold loadState. destruct (localStorage page) as [text|] eqn:E.
  - destruct (Js.isEmpty text); [intros [= <-]; auto|].
    destruct (Json.parse text) as [j|]; [|discriminate].
    destruct (Codec.decodeState j) as [v|]; [|discriminate].
    destruct (Codec.allocState (store page) v) as [store' s].
    intros [= <-]. cbn. auto.
  - intros [= <-]. auto.
Qed.

(** [loadState] on a page whose storage holds the serialisation of the
    session [s0] over the store [store0]. *)
Lemma loadState_serialized (store0 : list Message) (s0 : AppState) (page : World) :
  localStorage page = Some (Json.stringify (Codec.encodeState store0 s0)) ->
  exists w',
    loadState page = inl w'
    /\ Codec.stateValue (store w') (state w') = Codec.stateValue store0 s0.
Proof.
  intros H. unfold loadState. rewrite H.
  assert (He : Js.isEmpty (Json.stringify (Codec.encodeState store0 s0)) = false)
    by reflexivity.
  rewrite He, JsonFacts.parse_stringify, CodecFacts.decode_encodeState.
  pose proof (CodecFacts.allocState_value (store page) (Codec.stateValue store0 s0)) as Ha.
  destruct (Codec.allocState (store page) (Codec.stateValue store0 s0)) as [store' s].
  eexists. split; [reflexivity|]. exact Ha.
Qed.

(** [loadState] on a page whose storage holds what [saveState] wrote for
    the world [w]. *)
Lemma loadState_saved (w page : World) :
  localStorage page = localStorage (saveState w) ->
  exists w',
    loadState page = inl w'
    /\ Codec.stateValue (store w') (state w') = Codec.stateValue (store w) (state w).
Proof. intros H. apply loadState_serialized. rewrite H. reflexivity. Qed.

(** C8.  What [saveState] writes, [loadState] reads back: on the same
    page or on a freshly loaded one, the restored session has the same
    chats with the same messages in the same order, the same active chat
    id, the same counter and the same sign-in flag.  This holds for
    every session, and so for the session of two chats, one empty and one
    with a request, an image answer and a code answer. *)
Theorem saveState_loadState_roundtrip :
  (forall w : World,
      exists w',
        loadState (saveState w) = inl w'
        /\ Codec.stateValue (store w') (state w') = Codec.stateValue (store w) (state w))
  /\ (forall w : World,
         exists w',
           loadState (freshPage (localStorage (saveState w))) = inl w'
           /\ Codec.stateValue (store w') (state w')
              = Codec.stateValue (store w) (state w))
  /\ (exists w',
         loadState (saveState Pages.sessionPage) = inl w'
         /\ Codec.stateValue (store w') (state w')
            = Codec.mkStateValue true
                [Codec.mkChatValue 1 "Chat 1" [];
                 Codec.mkChatValue 2 "Chat 2" Pages.sessionStore]
                (Some 2) 3).
Proof.
  split; [|split].
  - intros w. now apply loadState_saved.
  - intros w. now apply loadState_saved.
  - destruct (loadState_saved Pages.sessionPage (saveState Pages.sessionPage) eq_refl)
      as (w' & H1 & H2).
    exists w'. split; [exact H1|]. rewrite H2. reflexivity.
Qed.

End PersistFacts.
(** ** The session controller *)
Module ControllerFacts.
Import Model Handlers Controller.

(** *** What each operation leaves alone *)

Lemma closeArtifactPane_frame (w : World) :
  state (closeArtifactPane w) = state w
  /\ isLoading (closeArtifactPane w) = isLoading w
  /\ inFlight (closeArtifactPane w) = inFlight w
  /\ store (closeArtifactPane w) = store w.
Proof. repeat split. Qed.

Lemma handleNewChat_frame (w : World) :
  isLoading (handleNewChat w) = isLoading w
  /\ inFlight (handleNewChat w) = inFlight w
  /\ store (handleNewChat w) = store w.
Proof. repeat split. Qed.

Lemma renderApp_frame (w : World) :
  state (renderApp w) = state w
  /\ isLoading (renderApp w) = isLoading w
  /\ inFlight (renderApp w) = inFlight w
  /\ store (renderApp w) = store w.
Proof. unfold renderApp. destruct (isAuthenticated (state w)); repeat split. Qed.

Lemma handleAuthClick_frame (w : World) :
  isLoading (handleAuthClick w) = isLoading w
  /\ inFlight (handleAuthClick w) = inFlight w
  /\ store (handleAuthClick w) = store w.
Proof.
  unfold handleAuthClick.
  destruct (isAuthenticated (state w)).
  - destruct (renderApp_frame (saveState (closeArtifactPane (withState defaultState w))))
      as (_ & -> & -> & ->). repeat split.
  - destruct (chats (state w));
      match goal with |- context [renderApp ?x] =>
        destruct (renderApp_frame x) as (_ & -> & -> & ->) end;
      repeat split.
Qed.

Lemma handleTabSwitch_frame (chatId : Z) (w : World) :
  isLoading (handleTabSwitch chatId w) = isLoading w
  /\ inFlight (handleTabSwitch chatId w) = inFlight w
  /\ store (handleTabSwitch chatId w) = store w.
Proof.
  unfold handleTabSwitch. destruct (sameId (activeChatId (state w)) chatId); repeat split.
Qed.

(** *** The early return of [handleSearch] *)

Lemma handleSearchBegin_dropped (w : World) :
  Js.trim (searchInput w) = EmptyString
  \/ isLoading w = true
  \/ noActiveChat (activeChatId (state w)) = true ->
  handleSearchBegin w = (Dropped, w).
Proof.
  intros H. unfold handleSearchBegin.
  destruct H as [H | [H | H]]; rewrite H; cbn [Js.isEmpty orb];
    rewrite ?orb_true_r; reflexivity.
Qed.

Lemma handleSearch_dropped (e : Env) (w : World) :
  handleSearchBegin w = (Dropped, w) -> handleSearch e w = (Returned tt, w).
Proof. intros H. unfold handleSearch. rewrite H. reflexivity. Qed.

(** C10.  When the trimmed input is empty, or no chat is active,
    [handleSearch] returns at once whatever the loading flag is: the call
    is dropped, no frame is suspended, and the world after it, session,
    store, storage, input box, view and loading flag, is the world before
    it. *)
Theorem handleSearch_nothing_to_do :
  forall w : World,
    Js.trim (searchInput w) = EmptyString \/ activeChatId (state w) = None ->
    handleSearchBegin w = (Dropped, w)
    /\ (forall e, handleSearch e w = (Returned tt, w))
    /\ step w Submit = w.
Proof.
  intros w H.
  assert (Hd : handleSearchBegin w = (Dropped, w)).
  { apply handleSearchBegin_dropped. destruct H as [H | H]; [now left|].
    right. right. rewrite H. reflexivity. }
  split; [exact Hd|]. split.
  - intros e. now apply handleSearch_dropped.
  - cbn [step]. rewrite Hd. reflexivity.
Qed.


(** The first part at a signed-in page whose input box holds blanks, and
    at the signed-out page with a query typed. *)
Lemma handleSearch_nothing_to_do_witness :
  (isLoading (run boot [AuthClick; Type_ "   "]) = false
   /\ handleSearchBegin (run boot [AuthClick; Type_ "   "])
      = (Dropped, run boot [AuthClick; Type_ "   "]))
  /\ (activeChatId (state (run boot [Type_ "draw a cat"])) = None
      /\ step (run boot [Type_ "draw a cat"]) Submit = run boot [Type_ "draw a cat"]).
Proof.
  split; (split; [reflexivity|]).
  - apply (handleSearch_nothing_to_do (run boot [AuthClick; Type_ "   "])).
    left. reflexivity.
  - apply (handleSearch_nothing_to_do (run boot [Type_ "draw a cat"])).
    right. reflexivity.
Defined.

(** *** At most one query in flight *)

Lemma writeMessage_frame (l : loc) (f : Message -> Message) (w : World) :
  state (writeMessage l f w) = state w
  /\ isLoading (writeMessage l f w) = isLoading w
  /\ inFlight (writeMessage l f w) = inFlight w
  /\ localStorage (writeMessage l f w) = localStorage w.
Proof. unfold writeMessage. destruct (store w !! l); repeat split. Qed.

Lemma handleSearchBegin_oneInFlight (w : World) :
  oneInFlight w -> oneInFlight (snd (handleSearchBegin w)).
Proof.
  intros [Hidle Hlen]. unfold handleSearchBegin.
  destruct (Js.isEmpty (Js.trim (searchInput w)) || isLoading w
            || noActiveChat (activeChatId (state w))) eqn:Hguard.
  { split; assumption. }
  apply orb_false_iff in Hguard as [Hguard _].
  apply orb_false_iff in Hguard as [_ Hload].
  specialize (Hidle Hload).
  cbn [state withLoading].
  destruct (findChat (chats (state w)) (activeChatId (state w))) as [activeChat|].
  - unfold oneInFlight. cbn. rewrite Hidle. split; [discriminate | cbn; lia].
  - unfold oneInFlight. cbn. rewrite Hidle. split; [discriminate | cbn; lia].
Qed.

Lemma handleSearchEnd_oneInFlight (f : Frame) (settled : Outcome unit)
      (left : Message) (w : World) (n : nat) :
  oneInFlight w -> inFlight w !! n = Some f ->
  oneInFlight (handleSearchEnd f settled left w).
Proof.
  intros [_ Hlen] Hn.
  assert (Hfs : inFlight w = [f]).
  { destruct (inFlight w) as [|g [|g' fs]]; cbn in *.
    - discriminate.
    - destruct n; cbn in Hn; [congruence | discriminate].
    - lia. }
  assert (Hout : inFlight (handleSearchEnd f settled left w) = []).
  { unfold handleSearchEnd.
    cbn [inFlight saveState withStorage renderChatHistory withView withLoading].
    destruct settled; cbn [inFlight withInFlight];
      rewrite ?(proj1 (proj2 (proj2 (writeMessage_frame _ _ _))));
      cbn [inFlight withInFlight];
      rewrite ?(proj1 (proj2 (proj2 (writeMessage_frame _ _ _)))), Hfs;
      cbn; rewrite Nat.eqb_refl; reflexivity. }
  split; rewrite Hout; [reflexivity | cbn; lia].
Qed.

(** A freshly loaded page has no call in flight and the loading flag
    clear. *)
Lemma pageLoad_idle (storage : option string) :
  isLoading (pageLoad storage) = false
  /\ inFlight (pageLoad storage) = []
  /\ localStorage (pageLoad storage) = storage.
Proof.
  unfold pageLoad. destruct (loadState (freshPage storage)) as [w'|err] eqn:E.
  - destruct (PersistFacts.loadState_frame _ _ E) as (H1 & H2 & H3).
    destruct (renderApp_frame w') as (_ & -> & -> & _).
    rewrite H1, H2. repeat split.
    unfold renderApp. destruct (isAuthenticated (state w')); cbn; exact H3.
  - repeat split.
Qed.

Lemma step_oneInFlight (w : World) (ev : Event) :
  oneInFlight w -> oneInFlight (step w ev).
Proof.
  intros H. destruct ev; cbn [step].
  - exact H.
  - now apply handleSearchBegin_oneInFlight.
  - destruct (inFlight w !! n) as [f|] eqn:Hn; [|exact H].
    destruct (runHandler f e w) as [[[]|err|] st]; [| |exact H];
      now apply handleSearchEnd_oneInFlight with (n := n).
  - destruct (pageLoad_idle (localStorage w)) as (El & Ef & _).
    unfold oneInFlight. rewrite El, Ef. split; [reflexivity | cbn; lia].
  - destruct H as [H1 H2]. destruct (handleAuthClick_frame w) as (El & Ef & _).
    unfold oneInFlight. rewrite El, Ef. split; assumption.
  - exact H.
  - destruct H as [H1 H2]. destruct (handleTabSwitch_frame chatId w) as (El & Ef & _).
    unfold oneInFlight. rewrite El, Ef. split; assumption.
  - exact H.
  - exact H.
Qed.

Lemma run_oneInFlight (evs : list Event) :
  forall w, oneInFlight w -> oneInFlight (run w evs).
Proof.
  induction evs as [|ev evs IH]; intros w H; [exact H|].
  cbn [run fold_left]. apply IH. now apply step_oneInFlight.
Qed.

Lemma boot_oneInFlight : oneInFlight boot.
Proof. split; [reflexivity | cbn; lia]. Qed.

(** C2.  A call of [handleSearch] made while the loading flag is set
    returns at once and leaves the whole world, every chat history
    included, as it was: the query is dropped, not queued.  Hence on the
    page, whatever the user and the handlers do, never more than one call
    is suspended at its handler, and one is suspended only while the flag
    is set.  The page starts from a first visit and may be reloaded at
    any time. *)
Theorem handleSearch_one_at_a_time :
  (forall w : World,
      isLoading w = true ->
      handleSearchBegin w = (Dropped, w)
      /\ (forall e, handleSearch e w = (Returned tt, w))
      /\ step w Submit = w)
  /\ (forall evs : list Event,
         (length (inFlight (run boot evs)) <= 1)%nat
         /\ (isLoading (run boot evs) = false -> inFlight (run boot evs) = [])).
Proof.
  split.
  - intros w H.
    assert (Hd : handleSearchBegin w = (Dropped, w)).
    { apply handleSearchBegin_dropped. right. now left. }
    split; [exact Hd|]. split.
    + intros e. now apply handleSearch_dropped.
    + cbn [step]. rewrite Hd. reflexivity.
  - intros evs. destruct (run_oneInFlight evs boot boot_oneInFlight) as [H1 H2].
    split; assumption.
Qed.

(** The first part at a page where a query is in flight and a second one
    has been typed. *)
Lemma handleSearch_one_at_a_time_witness :
  isLoading (run boot [AuthClick; Type_ "animate a logo"; Submit; Type_ "draw a cat"]) = true
  /\ inFlight (run boot [AuthClick; Type_ "animate a logo"; Submit; Type_ "draw a cat"])
     = [mkFrame "animate a logo" 1%nat]
  /\ step (run boot [AuthClick; Type_ "animate a logo"; Submit; Type_ "draw a cat"]) Submit
     = run boot [AuthClick; Type_ "animate a logo"; Submit; Type_ "draw a cat"].
Proof.
  split; [reflexivity|]. split; [reflexivity|].
  apply (proj1 handleSearch_one_at_a_time
           (run boot [AuthClick; Type_ "animate a logo"; Submit; Type_ "draw a cat"])).
  reflexivity.
Defined.

End ControllerFacts.

(** ** How [handleSearch] ends *)
Module SettleFacts.
Import Model Handlers Controller ControllerFacts.

Lemma findChat_id (cs : list Chat) (a : option Z) (c : Chat) :
  findChat cs a = Some c -> a = Some (id c).
Proof.
  destruct a as [n|]; [|discriminate]. cbn [findChat]. intros H.
  apply find_some in H as [_ H]. apply Z.eqb_eq in H. now rewrite H.
Qed.

(** A push reaches the chat that [find] returns. *)
Lemma findChat_pushHistory (cs : list Chat) (c : Chat) (l : loc) :
  findChat cs (Some (id c)) = Some c ->
  findChat (pushHistory (id c) l cs) (Some (id c))
  = Some (mkChat (id c) (title c) (history c ++ [l])).
Proof.
  cbn [findChat]. induction cs as [|c' cs IH]; [discriminate|].
  cbn [List.find pushHistory].
  destruct (id c' =? id c) eqn:E.
  - intros [= ->]. cbn [List.find id]. rewrite Z.eqb_refl. reflexivity.
  - intros H. cbn [List.find]. rewrite E. now apply IH.
Qed.

(** What the first stretch of [handleSearch] has done when it reaches
    the handler. *)
Lemma handleSearchBegin_started (w w1 : World) (f : Frame) :
  handleSearchBegin w = (Started f, w1) ->
  exists activeChat,
    findChat (chats (state w)) (activeChatId (state w)) = Some activeChat
    /\ isLoading w = false
    /\ f = mkFrame (Js.trim (searchInput w)) (S (length (store w)))
    /\ store w1 = store w ++ [userMessage (Js.trim (searchInput w)); emptyModelMessage]
    /\ activeChatId (state w1) = Some (id activeChat)
    /\ findChat (chats (state w1)) (activeChatId (state w1))
       = Some (mkChat (id activeChat) (title activeChat)
                      (history activeChat ++ [length (store w); S (length (store w))]))
    /\ isLoading w1 = true
    /\ inFlight w1 = inFlight w ++ [f].
Proof.
  unfold handleSearchBegin.
  destruct (Js.isEmpty (Js.trim (searchInput w)) || isLoading w
            || noActiveChat (activeChatId (state w))) eqn:Hguard; [discriminate|].
  apply orb_false_iff in Hguard as [Hguard _].
  apply orb_false_iff in Hguard as [_ Hload].
  cbn [state withLoading].
  destruct (findChat (chats (state w)) (activeChatId (state w))) as [c|] eqn:Hfind;
    [|discriminate].
  cbn. intros [= <- <-]. exists c.
  pose proof (findChat_id _ _ _ Hfind) as Hact.
  cbn. rewrite Hact in *.
  repeat split; try assumption.
  - rewrite length_app. cbn. f_equal. f_equal. lia.
  - rewrite <- app_assoc. reflexivity.
  - rewrite length_app. cbn [length]. rewrite Nat.add_1_r.
    rewrite (findChat_pushHistory _ (mkChat (id c) (title c) (history c ++ [length (store w)]))
               _ (findChat_pushHistory _ c _ Hfind)).
    cbn [id title history]. rewrite <- app_assoc. reflexivity.
Qed.

Lemma store_writeMessage (l : loc) (g : Message -> Message) (w : World) (m : Message) :
  store w !! l = Some m ->
  store (writeMessage l g w) = <[l := g m]> (store w).
Proof. intros H. unfold writeMessage. rewrite H. reflexivity. Qed.

Lemma store_handleSearchEnd (f : Frame) (settled : Outcome unit) (left : Message)
      (w : World) (m : Message) :
  store w !! modelMessage f = Some m ->
  store (handleSearchEnd f settled left w)
  = <[modelMessage f := match settled with
                        | Threw _ => setText apology left
                        | _ => left
                        end]> (store w).
Proof.
  intros H. pose proof (lookup_lt_Some _ _ _ H) as Hlt.
  unfold handleSearchEnd.
  cbn [store saveState withStorage renderChatHistory withView withLoading].
  destruct settled; cbn [store withInFlight].
  - now rewrite (store_writeMessage _ _ _ _ H).
  - rewrite (store_writeMessage _ _ _ left).
    + cbn [store withInFlight]. rewrite (store_writeMessage _ _ _ _ H).
      rewrite list_insert_insert_eq. reflexivity.
    + cbn [store withInFlight]. rewrite (store_writeMessage _ _ _ _ H).
      now apply list_lookup_insert_eq.
  - now rewrite (store_writeMessage _ _ _ _ H).
Qed.

Lemma handleSearchEnd_settled (f : Frame) (settled : Outcome unit) (left : Message)
      (w : World) :
  isLoading (handleSearchEnd f settled left w) = false
  /\ localStorage (handleSearchEnd f settled left w)
     = Some (serialized (handleSearchEnd f settled left w))
  /\ chatContainer (handleSearchEnd f settled left w)
     = renderedHistory (handleSearchEnd f settled left w)
  /\ state (handleSearchEnd f settled left w) = state w.
Proof.
  unfold handleSearchEnd. repeat split.
  cbn [state saveState withStorage renderChatHistory withView withLoading].
  destruct settled; cbn [state withInFlight];
    rewrite ?(proj1 (writeMessage_frame _ _ _)); cbn [state withInFlight];
    rewrite ?(proj1 (writeMessage_frame _ _ _)); reflexivity.
Qed.


Lemma runHandler_started (w w1 : World) (f : Frame) (e : Env) :
  handleSearchBegin w = (Started f, w1) ->
  store w1 !! modelMessage f = Some emptyModelMessage
  /\ runHandler f e w1 = dispatch (query f) (mkHState emptyModelMessage e []).
Proof.
  intros H. destruct (handleSearchBegin_started _ _ _ H)
    as (c & _ & _ & -> & Hstore & _).
  assert (Hl : store w1 !! S (length (store w)) = Some emptyModelMessage).
  { rewrite Hstore.
    change (store w ++ [userMessage (Js.trim (searchInput w)); emptyModelMessage])
      with (store w ++ [userMessage (Js.trim (searchInput w))] ++ [emptyModelMessage]).
    rewrite app_assoc. apply list_lookup_middle. rewrite length_app. cbn. lia. }
  split; [exact Hl|]. unfold runHandler. cbn [modelMessage query]. rewrite Hl. reflexivity.
Qed.

(** With no other event in between, the pending message is the last of
    the active chat when the call returns. *)
Lemma handleSearch_last_message (w w1 : World) (f : Frame) (e : Env)
      (settled : Outcome unit) (st : HState) :
  handleSearchBegin w = (Started f, w1) ->
  runHandler f e w1 = (settled, st) ->
  exists chat older,
    findChat (chats (state (handleSearchEnd f settled (msg st) w1)))
             (activeChatId (state (handleSearchEnd f settled (msg st) w1)))
    = Some chat
    /\ messagesOf (store (handleSearchEnd f settled (msg st) w1)) (history chat)
       = older ++ [userMessage (query f); settledMessage settled (msg st)].
Proof.
  intros Hb Hr.
  destruct (runHandler_started _ _ _ e Hb) as [Hl _].
  destruct (handleSearchBegin_started _ _ _ Hb)
    as (c & _ & _ & Hf & Hstore & _ & Hfind & _).
  destruct (handleSearchEnd_settled f settled (msg st) w1) as (_ & _ & _ & Hstate).
  rewrite Hstate, Hfind. eexists. eexists. split; [reflexivity|].
  cbn [history]. unfold messagesOf. rewrite omap_app.
  f_equal. rewrite (store_handleSearchEnd _ _ _ _ _ Hl).
  fold (settledMessage settled (msg st)).
  rewrite Hf, Hstore. cbn [modelMessage query omap list_omap].
  assert (Hlen : (S (length (store w))
                  < length (store w ++ [userMessage (Js.trim (searchInput w)); emptyModelMessage]))%nat).
  { rewrite length_app. cbn. lia. }
  rewrite list_lookup_insert_ne by lia.
  rewrite (list_lookup_insert_eq _ _ _ Hlen).
  rewrite (list_lookup_middle (store w) [emptyModelMessage] _ _ eq_refl).
  reflexivity.
Qed.

(** C6.  Once the handler has settled, by returning or by throwing, the
    rest of [handleSearch] clears the loading flag, renders the chat from
    the final state and stores the serialisation of that state; when the
    handler threw, the text of the pending message object is the apology
    by then, whatever the handler had written, and otherwise the message
    is as the handler left it.  The call itself returns: the exception
    of the handler goes no further.  When no other event came in
    between, the pending message is the last of the active chat in the
    state rendered and stored.  On the page, the event of a handler
    settling clears the flag and stores the state. *)
Theorem handleSearch_settles :
  (forall f settled left w,
      isLoading (handleSearchEnd f settled left w) = false
      /\ localStorage (handleSearchEnd f settled left w)
         = Some (serialized (handleSearchEnd f settled left w))
      /\ chatContainer (handleSearchEnd f settled left w)
         = renderedHistory (handleSearchEnd f settled left w)
      /\ state (handleSearchEnd f settled left w) = state w)
  /\ (forall f settled left w m,
         store w !! modelMessage f = Some m ->
         store (handleSearchEnd f settled left w) !! modelMessage f
         = Some (settledMessage settled left)
         /\ (forall err, settled = Threw err ->
                         text (settledMessage settled left) = apology)
         /\ (settled = Returned tt -> settledMessage settled left = left))
  /\ (forall e w f w1 settled st,
         handleSearchBegin w = (Started f, w1) ->
         runHandler f e w1 = (settled, st) ->
         settled <> Waiting ->
         handleSearch e w = (Returned tt, handleSearchEnd f settled (msg st) w1)
         /\ exists chat older,
             findChat (chats (state (handleSearchEnd f settled (msg st) w1)))
                      (activeChatId (state (handleSearchEnd f settled (msg st) w1)))
             = Some chat
             /\ messagesOf (store (handleSearchEnd f settled (msg st) w1)) (history chat)
                = older ++ [userMessage (query f); settledMessage settled (msg st)])
  /\ (forall w n e f,
         inFlight w !! n = Some f ->
         fst (runHandler f e w) <> Waiting ->
         isLoading (step w (Settle n e)) = false
         /\ localStorage (step w (Settle n e)) = Some (serialized (step w (Settle n e)))
         /\ chatContainer (step w (Settle n e)) = renderedHistory (step w (Settle n e))).
Proof.
  split; [exact handleSearchEnd_settled|]. split; [|split].
  - intros f settled left w m H. split; [|split].
    + rewrite (store_handleSearchEnd _ _ _ _ _ H).
      apply list_lookup_insert_eq. exact (lookup_lt_Some _ _ _ H).
    + intros err ->. reflexivity.
    + intros ->. reflexivity.
  - intros e w f w1 settled st Hb Hr Hs. split.
    + unfold handleSearch. rewrite Hb, Hr. destruct settled; [reflexivity..|].
      now elim Hs.
    + now apply handleSearch_last_message with (w := w) (e := e).
  - intros w n e f Hn Hs. cbn [step]. rewrite Hn.
    destruct (runHandler f e w) as [settled st]. cbn [fst] in Hs.
    destruct settled as [[]|err|]; [| |now elim Hs];
      match goal with |- context [handleSearchEnd ?f ?s ?l ?w] =>
        destruct (handleSearchEnd_settled f s l w) as (H1 & H2 & H3 & _)
      end; auto.
Qed.

(** The third part on a page where the model API cannot be reached: the
    text-search handler throws, the call returns, the flag is cleared and
    the answer in the chat is the apology. *)
Lemma handleSearch_settles_witness :
  fst (handleSearch Pages.offline Pages.asked) = Returned tt
  /\ isLoading (snd (handleSearch Pages.offline Pages.asked)) = false
  /\ messagesOf (store (snd (handleSearch Pages.offline Pages.asked))) [0; 1]%nat
     = [userMessage "who won the 2022 world cup";
        mkMessage Assistant apology None None None None].
Proof.
  pose proof (proj1 (proj2 (proj2 handleSearch_settles))
                Pages.offline Pages.asked
                (mkFrame "who won the 2022 world cup" 1%nat)
                (snd (handleSearchBegin Pages.asked))
                (Threw (Error "Failed to fetch"))
                (snd (runHandler (mkFrame "who won the 2022 world cup" 1%nat)
                                 Pages.offline (snd (handleSearchBegin Pages.asked))))
                eq_refl eq_refl ltac:(discriminate)) as [H _].
  rewrite H. repeat split.
Defined.

End SettleFacts.

(** ** Chat ids *)
Module ChatIdFacts.
Import Model Handlers Controller ControllerFacts SettleFacts.


Lemma handleNewChat_state (w : World) :
  state (handleNewChat w)
  = mkAppState (isAuthenticated (state w))
               (chats (state w)
                  ++ [mkChat (nextChatId (state w))
                             ("Chat " +:+ Json.numberToString (nextChatId (state w))) []])
               (Some (nextChatId (state w)))
               (nextChatId (state w) + 1).
Proof. reflexivity. Qed.



Lemma handleAuthClick_state (w : World) :
  state (handleAuthClick w)
  = if isAuthenticated (state w) then defaultState
    else match chats (state w) with
         | [] => state (handleNewChat
                          (withState (mkAppState true [] (activeChatId (state w))
                                                 (nextChatId (state w))) w))
         | c :: cs => mkAppState true (c :: cs) (activeChatId (state w))
                                 (nextChatId (state w))
         end.
Proof.
  unfold handleAuthClick.
  match goal with |- context [renderApp ?x] =>
    rewrite (proj1 (renderApp_frame x)) end.
  cbn [state saveState withStorage].
  destruct (isAuthenticated (state w)); [reflexivity|].
  destruct (chats (state w)) eqn:E; reflexivity.
Qed.


(** *** What is stored stays the serialisation of a session with fresh
    ids *)



Lemma renderApp_storage (w : World) : localStorage (renderApp w) = localStorage w.
Proof. unfold renderApp. destruct (isAuthenticated (state w)); reflexivity. Qed.













End ChatIdFacts.


(** ** [escapeHtml] *)
Module EscapeFacts.
Import Markdown Html.

Lemma replaceChar_app (c : ascii) (rep a b : string) :
  Js.replaceChar c rep (a +:+ b) = Js.replaceChar c rep a +:+ Js.replaceChar c rep b.
Proof.
  induction a as [|x a IH]; [reflexivity|].
  rewrite StringFacts.app_cons. cbn [Js.replaceChar]. destruct (Ascii.eqb x c).
  - rewrite IH. now rewrite StringFacts.app_assoc.
  - rewrite IH. now rewrite StringFacts.app_cons.
Qed.

Lemma escapeHtml_app (a b : string) :
  escapeHtml (a +:+ b) = escapeHtml a +:+ escapeHtml b.
Proof. unfold escapeHtml. now rewrite !replaceChar_app. Qed.

Lemma escapeHtml_one (c : ascii) :
  escapeHtml (String c EmptyString)
  = if Ascii.eqb c "&" then "&amp;"
    else if Ascii.eqb c "<" then "&lt;"
    else if Ascii.eqb c ">" then "&gt;"
    else if Ascii.eqb c (ascii_of_nat 34) then "&quot;"
    else if Ascii.eqb c "'" then "&#039;"
    else String c EmptyString.
Proof.
  destruct c as [[] [] [] [] [] [] [] []]; reflexivity.
Qed.

Lemma escapeHtml_cons (c : ascii) (s : string) :
  escapeHtml (String c s) = escapeHtml (String c EmptyString) +:+ escapeHtml s.
Proof. now rewrite <- escapeHtml_app. Qed.

Ltac escape_cases c :=
  rewrite (escapeHtml_cons c), (escapeHtml_one c);
  destruct (Ascii.eqb_spec c "&") as [->|?];
  [|destruct (Ascii.eqb_spec c "<") as [->|?];
    [|destruct (Ascii.eqb_spec c ">") as [->|?];
      [|destruct (Ascii.eqb_spec c (ascii_of_nat 34)) as [->|?];
        [|destruct (Ascii.eqb_spec c "'") as [->|?]]]]].

Lemma escapeHtml_markup_free (s : string) :
  Js.allChars (fun c => negb (markup c)) (escapeHtml s) = true
  /\ entitiesOnly (escapeHtml s) = true.
Proof.
  induction s as [|c s [IH1 IH2]]; [split; reflexivity|].
  escape_cases c; (split; [try exact IH1 | try exact IH2]).
  - rewrite StringFacts.app_cons, StringFacts.app_nil_l. cbn [Js.allChars].
    rewrite IH1, andb_true_r. unfold markup.
    repeat match goal with
           | H : c <> _ |- _ => apply Ascii.eqb_neq in H; rewrite H; clear H
           end. reflexivity.
  - rewrite StringFacts.app_cons, StringFacts.app_nil_l. cbn [entitiesOnly].
    rewrite IH2, andb_true_r.
    match goal with H : c <> "&"%char |- _ => apply Ascii.eqb_neq in H; now rewrite H end.
Qed.

Lemma escapeHtml_plain (s : string) :
  Js.allChars (fun c => negb (special c)) s = true -> escapeHtml s = s.
Proof.
  induction s as [|c s IH]; [reflexivity|].
  cbn [Js.allChars]. intros [Hc Hs]%andb_true_iff.
  rewrite escapeHtml_cons, escapeHtml_one, (IH Hs).
  unfold special, markup in Hc.
  rewrite !negb_orb, !andb_true_iff, !negb_true_iff in Hc.
  destruct Hc as (-> & ((-> & ->) & ->) & ->). reflexivity.
Qed.

Lemma escapeHtml_injective (a b : string) :
  escapeHtml a = escapeHtml b -> a = b.
Proof.
  revert b. induction a as [|c a IH]; intros [|d b].
  - reflexivity.
  - escape_cases d; discriminate.
  - escape_cases c; discriminate.
  - escape_cases c; escape_cases d;
      rewrite ?StringFacts.app_cons, ?StringFacts.app_nil_l;
      intros H; try discriminate H;
      injection H; intros; subst; try congruence;
      f_equal; apply IH; assumption.
Qed.

(** X1.  The text [escapeHtml] returns holds no angle bracket, no
    double quote and no apostrophe, and every ampersand in it opens one
    of the five entities the function writes; a text with none of the
    five characters comes back as it is. *)
Theorem escapeHtml_leaves_no_markup (unsafe : string) :
  Js.allChars (fun c => negb (markup c)) (escapeHtml unsafe) = true
  /\ entitiesOnly (escapeHtml unsafe) = true
  /\ (Js.allChars (fun c => negb (special c)) unsafe = true -> escapeHtml unsafe = unsafe).
Proof.
  destruct (escapeHtml_markup_free unsafe) as [H1 H2].
  split; [exact H1|]. split; [exact H2 | apply escapeHtml_plain].
Qed.

(** X2.  [escapeHtml] works character by character, each of the five
    characters becoming its entity and every other character itself, so
    the escape of a concatenation is the concatenation of the escapes;
    and it loses nothing: two texts with the same escape are the same
    text. *)
Theorem escapeHtml_loses_nothing :
  (forall a b, escapeHtml (a +:+ b) = escapeHtml a +:+ escapeHtml b)
  /\ (forall c,
         escapeHtml (String c EmptyString)
         = if Ascii.eqb c "&" then "&amp;"
           else if Ascii.eqb c "<" then "&lt;"
           else if Ascii.eqb c ">" then "&gt;"
           else if Ascii.eqb c (ascii_of_nat 34) then "&quot;"
           else if Ascii.eqb c "'" then "&#039;"
           else String c EmptyString)
  /\ (forall a b, escapeHtml a = escapeHtml b -> a = b).
Proof.
  split; [exact escapeHtml_app|]. split; [exact escapeHtml_one | exact escapeHtml_injective].
Qed.

End EscapeFacts.

(** ** Walking a text with a pattern *)
Module RenderFacts.
Import Markdown Html.

Section Walk.
Context {A : Type}.
Variable m : string -> option (A * nat).
Variable quiet : ascii -> bool.
Hypothesis m_quiet : forall c r, quiet c = true -> m (String c r) = None.

Lemma replaceAll_quiet_prefix (f : A -> string) (pre s : string) :
  Js.allChars quiet pre = true ->
  Regex.replaceAll m f O (pre +:+ s) = pre +:+ Regex.replaceAll m f O s.
Proof.
  induction pre as [|c pre IH]; [reflexivity|].
  cbn [Js.allChars]. intros [Hc Hpre]%andb_true_iff.
  rewrite !StringFacts.app_cons. cbn [Regex.replaceAll].
  rewrite (m_quiet _ _ Hc), (IH Hpre). reflexivity.
Qed.

Lemma replaceAll_skip (f : A -> string) (s1 s2 : string) :
  Regex.replaceAll m f (String.length s1) (s1 +:+ s2) = Regex.replaceAll m f O s2.
Proof.
  induction s1 as [|c s1 IH]; [reflexivity|].
  rewrite StringFacts.app_cons. cbn [String.length Regex.replaceAll]. exact IH.
Qed.

Lemma replaceAll_match (f : A -> string) (matched rest : string) (a : A) :
  matched <> EmptyString ->
  m (matched +:+ rest) = Some (a, String.length matched) ->
  Regex.replaceAll m f O (matched +:+ rest) = f a +:+ Regex.replaceAll m f O rest.
Proof.
  destruct matched as [|c matched]; [intros H; now elim H|]. intros _ Hm.
  rewrite StringFacts.app_cons in *. cbn [Regex.replaceAll]. rewrite Hm.
  cbn [String.length Nat.pred]. f_equal. apply replaceAll_skip.
Qed.

Lemma splitAll_quiet_prefix (f : A -> string) (pre s : string) :
  forall cur,
    Js.allChars quiet pre = true ->
    Regex.splitAll m f O cur (pre +:+ s)
    = Regex.splitAll m f O (rev (list_ascii_of_string pre) ++ cur) s.
Proof.
  induction pre as [|c pre IH]; intros cur; [reflexivity|].
  cbn [Js.allChars]. intros [Hc Hpre]%andb_true_iff.
  rewrite StringFacts.app_cons. cbn [Regex.splitAll].
  rewrite (m_quiet _ _ Hc), (IH _ Hpre). cbn [list_ascii_of_string rev].
  now rewrite <- List.app_assoc.
Qed.

Lemma splitAll_skip (f : A -> string) (s1 s2 : string) (cur : list ascii) :
  Regex.splitAll m f (String.length s1) cur (s1 +:+ s2) = Regex.splitAll m f O cur s2.
Proof.
  induction s1 as [|c s1 IH]; [reflexivity|].
  rewrite StringFacts.app_cons. cbn [String.length Regex.splitAll]. exact IH.
Qed.

Lemma splitAll_match (f : A -> string) (matched rest : string) (a : A) (cur : list ascii) :
  matched <> EmptyString ->
  m (matched +:+ rest) = Some (a, String.length matched) ->
  Regex.splitAll m f O cur (matched +:+ rest)
  = string_of_list_ascii (rev cur) :: f a :: Regex.splitAll m f O [] rest.
Proof.
  destruct matched as [|c matched]; [intros H; now elim H|]. intros _ Hm.
  rewrite StringFacts.app_cons in *. cbn [Regex.splitAll]. rewrite Hm.
  cbn [String.length Nat.pred]. do 2 f_equal. apply splitAll_skip.
Qed.
End Walk.

Lemma splitAtFirst_quiet_prefix (p0 : ascii) (p pre s : string) :
  Js.allChars (fun c => negb (Ascii.eqb c p0)) pre = true ->
  Js.splitAtFirst (String p0 p) (pre +:+ s)
  = match Js.splitAtFirst (String p0 p) s with
    | Some (before, after) => Some (pre +:+ before, after)
    | None => None
    end.
Proof.
  induction pre as [|c pre IH].
  - intros _. rewrite StringFacts.app_nil_l.
    destruct (Js.splitAtFirst (String p0 p) s) as [[b a]|]; reflexivity.
  - cbn [Js.allChars]. intros [Hc Hpre]%andb_true_iff.
    rewrite StringFacts.app_cons. cbn [Js.splitAtFirst Js.startsWith].
    apply negb_true_iff in Hc. rewrite Ascii.eqb_sym, Hc, (IH Hpre).
    destruct (Js.splitAtFirst (String p0 p) s) as [[b a]|]; reflexivity.
Qed.

Lemma allChars_app (q : ascii -> bool) (a b : string) :
  Js.allChars q (a +:+ b) = Js.allChars q a && Js.allChars q b.
Proof.
  induction a as [|c a IH]; [reflexivity|].
  rewrite StringFacts.app_cons. cbn [Js.allChars]. now rewrite IH, andb_assoc.
Qed.

Lemma allChars_trimStart (q : ascii -> bool) (s : string) :
  Js.allChars q s = true -> Js.allChars q (Js.trimStart s) = true.
Proof.
  induction s as [|c s IH]; [reflexivity|].
  intros H. cbn [Js.trimStart]. destruct (Js.isWhiteSpace c); [|exact H].
  cbn [Js.allChars] in H. apply andb_true_iff in H as [_ H]. now apply IH.
Qed.

Lemma allChars_trimEnd (q : ascii -> bool) (s : string) :
  Js.allChars q s = true -> Js.allChars q (Js.trimEnd s) = true.
Proof.
  induction s as [|c s IH]; [reflexivity|].
  cbn [Js.allChars]. intros [Hc Hs]%andb_true_iff. cbn [Js.trimEnd].
  specialize (IH Hs). destruct (Js.trimEnd s) as [|d t].
  - destruct (Js.isWhiteSpace c); cbn [Js.allChars]; [reflexivity|now rewrite Hc].
  - cbn [Js.allChars] in *. now rewrite Hc, IH.
Qed.

Lemma allChars_trim (q : ascii -> bool) (s : string) :
  Js.allChars q s = true -> Js.allChars q (Js.trim s) = true.
Proof. intros H. unfold Js.trim. now apply allChars_trimEnd, allChars_trimStart. Qed.

(** Escaping keeps a text inside any class of characters that holds
    the characters of the five entities. *)
Lemma allChars_escapeHtml (q : ascii -> bool) (s : string) :
  Js.allChars q "&amp;&lt;&gt;&quot;&#039;" = true ->
  Js.allChars q s = true -> Js.allChars q (escapeHtml s) = true.
Proof.
  intros Hq. induction s as [|c s IH]; [reflexivity|].
  cbn [Js.allChars]. intros [Hc Hs]%andb_true_iff. specialize (IH Hs).
  rewrite EscapeFacts.escapeHtml_cons, EscapeFacts.escapeHtml_one, allChars_app, IH, andb_true_r.
  cbn [Js.allChars] in Hq. rewrite !andb_true_iff in Hq.
  repeat match goal with |- context [if ?b then _ else _] => destruct b end;
    cbn [Js.allChars]; rewrite ?andb_true_iff; intuition.
Qed.

End RenderFacts.

(** ** Code blocks in [simpleMarkdownToHtml] *)
Module CodeBlockFacts.
Import Markdown Html RenderFacts.

Lemma noLt_word (tag : string) :
  Js.allChars Js.isWordChar tag = true -> Js.allChars (fun c => negb (Ascii.eqb c "<")) tag = true.
Proof.
  apply StringFacts.allChars_impl. intros c.
  destruct c as [[] [] [] [] [] [] [] []]; vm_compute; intros H;
    first [reflexivity | discriminate H].
Qed.

Lemma noLt_escaped (s : string) :
  Js.allChars (fun c => negb (Ascii.eqb c "<")) (escapeHtml s) = true.
Proof.
  eapply StringFacts.allChars_impl; [|apply EscapeFacts.escapeHtml_markup_free].
  intros c. unfold markup. destruct (Ascii.eqb c "<"); [discriminate|reflexivity].
Qed.

(** The closing tag of a rendered code block is the first one after
    its opening tag. *)
Lemma splitAtFirst_block (tag code rest : string) :
  Js.allChars Js.isWordChar tag = true ->
  Js.splitAtFirst "</pre>"
    ("<code class=" +:+ dquote +:+ "language-" +:+ tag +:+ dquote +:+ ">"
       +:+ escapeHtml code +:+ "</code></pre>" +:+ rest)
  = Some ("<code class=" +:+ dquote +:+ "language-" +:+ tag +:+ dquote +:+ ">"
            +:+ escapeHtml code +:+ "</code>", rest).
Proof.
  intros Htag.
  change ("<code class=" +:+ dquote +:+ "language-" +:+ tag +:+ dquote +:+ ">"
            +:+ escapeHtml code +:+ "</code></pre>" +:+ rest)
    with (String "<" (("code class=" +:+ dquote +:+ "language-") +:+ tag +:+ (dquote +:+ ">")
                        +:+ escapeHtml code +:+ "</code></pre>" +:+ rest)).
  cbn [Js.splitAtFirst Js.startsWith Ascii.eqb Bool.eqb].
  rewrite (splitAtFirst_quiet_prefix "<" "/pre>" ("code class=" +:+ dquote +:+ "language-"))
    by reflexivity.
  rewrite (splitAtFirst_quiet_prefix "<" "/pre>" tag) by now apply noLt_word.
  rewrite (splitAtFirst_quiet_prefix "<" "/pre>" (dquote +:+ ">")) by reflexivity.
  rewrite (splitAtFirst_quiet_prefix "<" "/pre>" (escapeHtml code)) by apply noLt_escaped.
  change (Js.splitAtFirst "</pre>" ("</code></pre>" +:+ rest)) with (Some ("</code>", rest)).
  string_normal. reflexivity.
Qed.

Lemma renderFence_not_empty (m : string * string) : renderFence m <> EmptyString.
Proof. destruct m. discriminate. Qed.

(** A rendered code block is a match of the code-block pattern of the
    split. *)
Lemma matchPre_block (tag code rest : string) :
  Js.allChars Js.isWordChar tag = true ->
  matchPre (renderFence (tag, code) +:+ rest)
  = Some (renderFence (tag, code), String.length (renderFence (tag, code))).
Proof.
  intros Htag. unfold matchPre, renderFence.
  change (Js.startsWith "<pre>" (("<pre><code class=" +:+ dquote +:+ "language-" +:+ tag +:+ dquote +:+ ">"
            +:+ escapeHtml (Js.trim code) +:+ "</code></pre>") +:+ rest)) with true.
  cbn iota.
  replace (Js.drop 5 (("<pre><code class=" +:+ dquote +:+ "language-" +:+ tag +:+ dquote +:+ ">"
            +:+ escapeHtml (Js.trim code) +:+ "</code></pre>") +:+ rest))
    with ("<code class=" +:+ dquote +:+ "language-" +:+ tag +:+ dquote +:+ ">"
            +:+ escapeHtml (Js.trim code) +:+ "</code></pre>" +:+ rest)
    by (string_normal; reflexivity).
  rewrite (splitAtFirst_block tag (Js.trim code) rest Htag).
  f_equal. f_equal.
  - string_normal. reflexivity.
  - unfold dquote.
    repeat first [rewrite StringFacts.length_app | progress cbn [String.length]]. lia.
Qed.

Lemma matchBold_quiet (c : ascii) (r : string) :
  negb (Ascii.eqb c "*") = true -> matchBold (String c r) = None.
Proof.
  intros Hc. apply RegexFacts.matchBold_opening. cbn [Js.startsWith].
  apply negb_true_iff in Hc. rewrite Ascii.eqb_sym, Hc. reflexivity.
Qed.

Lemma matchPre_quiet (c : ascii) (r : string) :
  negb (Ascii.eqb c "<") = true -> matchPre (String c r) = None.
Proof.
  intros Hc. apply RegexFacts.matchPre_opening. cbn [Js.startsWith].
  apply negb_true_iff in Hc. rewrite Ascii.eqb_sym, Hc. reflexivity.
Qed.

Lemma fold_renderPart (parts : list string) (acc : string) :
  fold_left (fun finalHtml part => finalHtml +:+ renderPart part) parts acc
  = acc +:+ Js.concatAll (map renderPart parts).
Proof.
  revert acc. induction parts as [|p parts IH]; intros acc; cbn [fold_left map Js.concatAll].
  - now rewrite StringFacts.app_nil_r.
  - rewrite IH. now rewrite StringFacts.app_assoc.
Qed.

Lemma string_of_list_of_string_rev (s : string) :
  string_of_list_ascii (rev (rev (list_ascii_of_string s) ++ [])) = s.
Proof. rewrite List.app_nil_r, rev_involutive. apply string_of_list_ascii_of_string. Qed.

Lemma noStar_block (tag body : string) :
  Js.allChars Js.isWordChar tag = true ->
  Js.allChars codeChar body = true ->
  Js.allChars (fun c => negb (Ascii.eqb c "*")) (renderFence (tag, body)) = true.
Proof.
  intros Htag Hbody. unfold renderFence. rewrite !allChars_app.
  assert (Ht : Js.allChars (fun c => negb (Ascii.eqb c "*")) tag = true).
  { revert Htag. apply StringFacts.allChars_impl. intros c.
    destruct c as [[] [] [] [] [] [] [] []]; vm_compute; intros H;
      first [reflexivity | discriminate H]. }
  assert (He : Js.allChars (fun c => negb (Ascii.eqb c "*")) (escapeHtml (Js.trim body)) = true).
  { apply allChars_escapeHtml; [reflexivity|]. apply allChars_trim.
    revert Hbody. apply StringFacts.allChars_impl. intros c. unfold codeChar.
    intros [_ H]%andb_true_iff. exact H. }
  rewrite Ht, He. reflexivity.
Qed.

(** X3.  A fenced block in a text: when the text in front of it has no
    backtick, no asterisk and no opening angle bracket, the tag of the
    block is made of word characters and its body has no backtick and no
    asterisk, the renderer writes the blocks of the text in front, then
    the code block, a [pre] and a [code] element classed by the tag that
    hold the body trimmed and escaped, then the rendering of the rest of
    the text.  The body is shown as text: by X1 nothing in it opens
    markup. *)
Theorem simpleMarkdownToHtml_code_block (before tag body after : string) :
  Js.allChars prose before = true ->
  Js.allChars Js.isWordChar tag = true ->
  Js.allChars codeChar body = true ->
  simpleMarkdownToHtml (before +:+ fenced tag body +:+ after)
  = blocksHtml (blocksOf before)
      +:+ "<pre><code class=" +:+ dquote +:+ "language-" +:+ tag +:+ dquote +:+ ">"
      +:+ escapeHtml (Js.trim body) +:+ "</code></pre>"
      +:+ simpleMarkdownToHtml after.
Proof.
  intros Hbefore Htag Hbody.
  assert (Hb1 : Js.allChars notBacktick before = true).
  { revert Hbefore. apply StringFacts.allChars_impl. intros c. unfold prose, notBacktick.
    intros [[H _]%andb_true_iff _]%andb_true_iff. exact H. }
  assert (Hb2 : Js.allChars (fun c => negb (Ascii.eqb c "*")) before = true).
  { revert Hbefore. apply StringFacts.allChars_impl. intros c. unfold prose.
    intros [[_ H]%andb_true_iff _]%andb_true_iff. exact H. }
  assert (Hb3 : Js.allChars (fun c => negb (Ascii.eqb c "<")) before = true).
  { revert Hbefore. apply StringFacts.allChars_impl. intros c. unfold prose.
    intros [_ H]%andb_true_iff. exact H. }
  assert (Hbody1 : Js.allChars notBacktick body = true).
  { revert Hbody. apply StringFacts.allChars_impl. intros c. unfold codeChar, notBacktick.
    intros [H _]%andb_true_iff. exact H. }
  unfold simpleMarkdownToHtml at 1.
  rewrite (replaceAll_quiet_prefix matchFence notBacktick RegexFacts.matchFence_quiet _ _ _ Hb1).
  rewrite (replaceAll_match matchFence renderFence (fenced tag body) after (tag, body)
             (RegexFacts.fenced_not_empty _ _) (RegexFacts.matchFence_fenced _ _ _ Htag Hbody1)).
  rewrite (replaceAll_quiet_prefix matchBold _ matchBold_quiet _ _ _ Hb2).
  rewrite (replaceAll_quiet_prefix matchBold _ matchBold_quiet _ _ _ (noStar_block _ _ Htag Hbody)).
  rewrite (splitAll_quiet_prefix matchPre _ matchPre_quiet _ _ _ _ Hb3).
  rewrite (splitAll_match matchPre _ _ _ _ _ (renderFence_not_empty _)
             (matchPre_block tag body _ Htag)).
  rewrite string_of_list_of_string_rev.
  rewrite fold_renderPart. cbn [map Js.concatAll]. rewrite StringFacts.app_nil_l.
  unfold simpleMarkdownToHtml. rewrite fold_renderPart, StringFacts.app_nil_l.
  f_equal.
  - unfold renderPart.
    assert (Hs : Js.startsWith "<pre>" before = false).
    { destruct before as [|c b]; [reflexivity|]. cbn [Js.allChars] in Hb3.
      apply andb_true_iff in Hb3 as [Hc _]. apply negb_true_iff in Hc.
      cbn [Js.startsWith]. rewrite Ascii.eqb_sym, Hc. reflexivity. }
    rewrite Hs. apply MarkdownFacts.renderSection_blocks.
  - unfold renderPart at 1.
    change (Js.startsWith "<pre>" (renderFence (tag, body))) with true. cbn iota.
    unfold renderFence. string_normal. reflexivity.
Qed.

End CodeBlockFacts.

(** ** Bold spans in [simpleMarkdownToHtml] *)
Module BoldFacts.
Import Markdown Html RenderFacts CodeBlockFacts.

Lemma prose_notBacktick (s : string) :
  Js.allChars prose s = true -> Js.allChars notBacktick s = true.
Proof.
  apply StringFacts.allChars_impl. intros c. unfold prose, notBacktick.
  intros [[H _]%andb_true_iff _]%andb_true_iff. exact H.
Qed.

Lemma prose_noStar (s : string) :
  Js.allChars prose s = true -> Js.allChars (fun c => negb (Ascii.eqb c "*")) s = true.
Proof.
  apply StringFacts.allChars_impl. intros c. unfold prose.
  intros [[_ H]%andb_true_iff _]%andb_true_iff. exact H.
Qed.

Lemma prose_noLt (s : string) :
  Js.allChars prose s = true -> Js.allChars (fun c => negb (Ascii.eqb c "<")) s = true.
Proof.
  apply StringFacts.allChars_impl. intros c. unfold prose.
  intros [_ H]%andb_true_iff. exact H.
Qed.

Lemma inline_prose (s : string) :
  Js.allChars inline s = true -> Js.allChars prose s = true.
Proof.
  apply StringFacts.allChars_impl. intros c. unfold inline.
  intros [H _]%andb_true_iff. exact H.
Qed.

(** A pattern that opens with a character the text does not hold is
    nowhere in the text. *)
Lemma includes_quiet_prefix (p0 : ascii) (p pre s : string) :
  Js.allChars (fun c => negb (Ascii.eqb c p0)) pre = true ->
  Js.includes (String p0 p) (pre +:+ s) = Js.includes (String p0 p) s.
Proof.
  induction pre as [|c pre IH]; [reflexivity|].
  cbn [Js.allChars]. intros [Hc Hpre]%andb_true_iff.
  rewrite StringFacts.app_cons. cbn [Js.includes Js.startsWith].
  apply negb_true_iff in Hc. rewrite Ascii.eqb_sym, Hc, (IH Hpre). reflexivity.
Qed.

Lemma includes_quiet (p0 : ascii) (p s : string) :
  Js.allChars (fun c => negb (Ascii.eqb c p0)) s = true ->
  Js.includes (String p0 p) s = false.
Proof.
  intros H. rewrite <- (StringFacts.app_nil_r s), includes_quiet_prefix by exact H.
  reflexivity.
Qed.

(** The lazy run in front of the closing asterisks. *)
Lemma lazyDots_inline (b rest : string) :
  Js.allChars inline b = true ->
  lazyDots "**" (b +:+ "**" +:+ rest) = Some b.
Proof.
  induction b as [|c b IH]; [reflexivity|].
  cbn [Js.allChars]. intros [Hc Hb]%andb_true_iff.
  rewrite StringFacts.app_cons. cbn [lazyDots Js.startsWith].
  unfold inline, prose in Hc. rewrite !andb_true_iff, !negb_true_iff in Hc.
  destruct Hc as [[[_ Hs] _] Hl].
  rewrite Ascii.eqb_sym, Hs, Hl, (IH Hb). reflexivity.
Qed.

Lemma matchBold_span (b rest : string) :
  Js.allChars inline b = true ->
  matchBold (("**" +:+ b +:+ "**") +:+ rest)
  = Some (b, String.length ("**" +:+ b +:+ "**")).
Proof.
  intros Hb. unfold matchBold.
  change (Js.startsWith "**" (("**" +:+ b +:+ "**") +:+ rest)) with true. cbn iota.
  replace (Js.drop 2 (("**" +:+ b +:+ "**") +:+ rest)) with (b +:+ "**" +:+ rest)
    by (string_normal; reflexivity).
  rewrite (lazyDots_inline _ _ Hb). f_equal. f_equal.
  repeat first [rewrite StringFacts.length_app | progress cbn [String.length]]. lia.
Qed.

(** X4.  A bold span: two asterisks, a text that stays on its line,
    two asterisks, with text around that has no backtick, no asterisk and
    no opening angle bracket, are replaced by the text inside a [strong]
    element before the lines are told apart; what comes out is the
    rendering, block by block, of the text with the span replaced. *)
Theorem simpleMarkdownToHtml_bold (a b c : string) :
  Js.allChars prose a = true ->
  Js.allChars inline b = true ->
  Js.allChars prose c = true ->
  simpleMarkdownToHtml (a +:+ "**" +:+ b +:+ "**" +:+ c)
  = blocksHtml (blocksOf (a +:+ "<strong>" +:+ b +:+ "</strong>" +:+ c)).
Proof.
  intros Ha Hb Hc. pose proof (inline_prose _ Hb) as Hb'.
  unfold simpleMarkdownToHtml.
  rewrite (RegexFacts.replaceAll_no_match matchFence fence RegexFacts.matchFence_opening).
  2:{ apply (includes_quiet "`" "``").
      change (Js.allChars notBacktick (a +:+ "**" +:+ b +:+ "**" +:+ c) = true).
      rewrite !allChars_app, (prose_notBacktick _ Ha), (prose_notBacktick _ Hb'),
        (prose_notBacktick _ Hc). reflexivity. }
  rewrite (replaceAll_quiet_prefix matchBold _ matchBold_quiet _ _ _ (prose_noStar _ Ha)).
  replace ("**" +:+ b +:+ "**" +:+ c) with (("**" +:+ b +:+ "**") +:+ c)
    by (string_normal; reflexivity).
  rewrite (replaceAll_match matchBold renderBold ("**" +:+ b +:+ "**") c b);
    [|discriminate|now apply matchBold_span].
  rewrite <- (StringFacts.app_nil_r c) at 1.
  rewrite (replaceAll_quiet_prefix matchBold _ matchBold_quiet _ _ _ (prose_noStar _ Hc)).
  cbn [Regex.replaceAll]. rewrite StringFacts.app_nil_r. unfold renderBold.
  assert (Hp : Js.includes "<pre>" (a +:+ ("<strong>" +:+ b +:+ "</strong>") +:+ c) = false).
  { rewrite (includes_quiet_prefix "<" "pre>" a) by now apply prose_noLt.
    string_normal.
    change (Js.includes "<pre>" ("<strong>" +:+ b +:+ "</strong>" +:+ c))
      with (Js.includes "<pre>" ("strong>" +:+ b +:+ "</strong>" +:+ c)).
    rewrite (includes_quiet_prefix "<" "pre>" "strong>") by reflexivity.
    rewrite (includes_quiet_prefix "<" "pre>" b) by now apply prose_noLt.
    change (Js.includes "<pre>" ("</strong>" +:+ c))
      with (Js.includes "<pre>" ("/strong>" +:+ c)).
    rewrite (includes_quiet_prefix "<" "pre>" "/strong>") by reflexivity.
    apply includes_quiet. now apply prose_noLt. }
  rewrite (RegexFacts.splitAll_no_match matchPre "<pre>" RegexFacts.matchPre_opening _ _ [] Hp).
  cbn [rev string_of_list_ascii fold_left]. rewrite !StringFacts.app_nil_l.
  unfold renderPart. rewrite (RegexFacts.includes_startsWith _ _ Hp).
  rewrite MarkdownFacts.renderSection_blocks. string_normal. reflexivity.
Qed.

End BoldFacts.

(** ** The classifier and capital letters *)
Module CaseFacts.
Import Classifier Matching.

Ltac by_cases c :=
  destruct c as [[] [] [] [] [] [] [] []]; vm_compute;
  try reflexivity; try discriminate; auto.

Lemma canonicalize_lower_ascii (b : ascii) :
  Js.isAscii b = true -> Js.canonicalize (Js.lowerChar b) = Js.canonicalize b.
Proof. by_cases b. Qed.

Lemma canonicalize_lower_other (b : ascii) :
  Js.isAscii b = false ->
  Js.isAscii (Js.canonicalize (Js.lowerChar b)) = false
  /\ Js.isAscii (Js.canonicalize b) = false.
Proof. by_cases b. Qed.

Lemma canonicalize_ascii (a : ascii) :
  Js.isAscii a = true -> Js.isAscii (Js.canonicalize a) = true.
Proof. by_cases a. Qed.

Lemma isWordChar_lower (b : ascii) : Js.isWordChar (Js.lowerChar b) = Js.isWordChar b.
Proof. by_cases b. Qed.

Lemma eqb_ascii_other (x y : ascii) :
  Js.isAscii x = true -> Js.isAscii y = false -> Ascii.eqb x y = false.
Proof.
  intros Hx Hy. apply Ascii.eqb_neq. intros ->. congruence.
Qed.

(** Against an ASCII character of a pattern, a character and its
    lower-case form fare alike. *)
Lemma canonicalize_match (a b : ascii) :
  Js.isAscii a = true ->
  Ascii.eqb (Js.canonicalize a) (Js.canonicalize (Js.lowerChar b))
  = Ascii.eqb (Js.canonicalize a) (Js.canonicalize b).
Proof.
  intros Ha. destruct (Js.isAscii b) eqn:Hb.
  - now rewrite canonicalize_lower_ascii.
  - destruct (canonicalize_lower_other b Hb) as [H1 H2].
    pose proof (canonicalize_ascii a Ha) as H3.
    now rewrite !eqb_ascii_other.
Qed.

Lemma head_lower (s : string) :
  Regex.wordAt (Regex.head (Js.toLowerCase s)) = Regex.wordAt (Regex.head s).
Proof. destruct s as [|c s]; [reflexivity|]. cbn. apply isWordChar_lower. Qed.

Lemma litCI_lower (lit : string) :
  Js.allAscii lit = true ->
  forall s prev prev',
    Regex.wordAt prev = Regex.wordAt prev' ->
    seen (Regex.litCI lit prev (Js.toLowerCase s)) = seen (Regex.litCI lit prev' s).
Proof.
  induction lit as [|a lit IH]; intros Hlit s prev prev' Hprev.
  - destruct s; cbn [Regex.litCI Js.toLowerCase seen]; rewrite Hprev; [reflexivity|].
    f_equal. f_equal. apply (head_lower (String _ _)).
  - unfold Js.allAscii in Hlit. cbn [Js.allChars] in Hlit.
    apply andb_true_iff in Hlit as [Ha Hlit].
    destruct s as [|b s]; [reflexivity|].
    cbn [Js.toLowerCase Regex.litCI]. rewrite (canonicalize_match a b Ha).
    destruct (Ascii.eqb (Js.canonicalize a) (Js.canonicalize b)); [|reflexivity].
    apply IH; [exact Hlit|]. cbn. apply isWordChar_lower.
Qed.

Lemma testPrefixCI_lower (alts : list string) (s : string) :
  forallb Js.allAscii alts = true ->
  Regex.testPrefixCI alts (Js.toLowerCase s) = Regex.testPrefixCI alts s.
Proof.
  intros Halts. unfold Regex.testPrefixCI.
  induction alts as [|alt alts IH]; [reflexivity|].
  cbn [forallb] in Halts. apply andb_true_iff in Halts as [Halt Halts].
  cbn [existsb]. rewrite (IH Halts). f_equal.
  pose proof (litCI_lower alt Halt s None None eq_refl) as H.
  destruct (Regex.litCI alt None (Js.toLowerCase s)) as [[]|],
           (Regex.litCI alt None s) as [[]|]; cbn in H; congruence.
Qed.

Lemma wordAltAt_lower (alts : list string) (s : string) (prev prev' : option ascii) :
  forallb Js.allAscii alts = true ->
  Regex.wordAt prev = Regex.wordAt prev' ->
  Regex.wordAltAt alts prev (Js.toLowerCase s) = Regex.wordAltAt alts prev' s.
Proof.
  intros Halts Hprev. unfold Regex.wordAltAt, Regex.boundary.
  rewrite Hprev, head_lower. f_equal.
  induction alts as [|alt alts IH]; [reflexivity|].
  cbn [forallb] in Halts. apply andb_true_iff in Halts as [Halt Halts].
  cbn [existsb]. rewrite (IH Halts). f_equal.
  pose proof (litCI_lower alt Halt s prev prev' Hprev) as H.
  destruct (Regex.litCI alt prev (Js.toLowerCase s)) as [[l r]|],
           (Regex.litCI alt prev' s) as [[l' r']|]; cbn in H; congruence.
Qed.

Lemma testWordCI_lower (alts : list string) (s : string) :
  forallb Js.allAscii alts = true ->
  forall prev prev',
    Regex.wordAt prev = Regex.wordAt prev' ->
    Regex.testWordCI alts prev (Js.toLowerCase s) = Regex.testWordCI alts prev' s.
Proof.
  intros Halts. induction s as [|c s IH]; intros prev prev' Hprev.
  - change (Js.toLowerCase EmptyString) with EmptyString. cbn [Regex.testWordCI].
    change EmptyString with (Js.toLowerCase EmptyString) at 1.
    now rewrite (wordAltAt_lower alts EmptyString prev prev' Halts Hprev).
  - change (Js.toLowerCase (String c s)) with (String (Js.lowerChar c) (Js.toLowerCase s)).
    cbn [Regex.testWordCI].
    change (String (Js.lowerChar c) (Js.toLowerCase s)) with (Js.toLowerCase (String c s)).
    rewrite (wordAltAt_lower alts (String c s) prev prev' Halts Hprev). f_equal.
    apply IH. cbn. apply isWordChar_lower.
Qed.

Lemma classify_lower (q : string) : classify (Js.toLowerCase q) = classify q.
Proof.
  unfold classify, imageKeywords, videoKeywords, codeKeywords.
  rewrite (testPrefixCI_lower imagePrefixes q eq_refl).
  rewrite (testWordCI_lower videoPhrases q eq_refl None None eq_refl).
  rewrite (testWordCI_lower codeWords q eq_refl None None eq_refl).
  reflexivity.
Qed.

(** X5.  The handler chosen for a query does not depend on how the
    query is capitalised: a query and its lower-case form are classified
    alike, and so are any two queries with the same lower-case form.
    The queries are, as everywhere here, sequences of code units below
    256: further up there are characters, the Kelvin sign for one, that
    [toLowerCase] maps to an ASCII letter and the patterns do not
    match. *)
Theorem classify_ignores_case :
  (forall q, classify (Js.toLowerCase q) = classify q)
  /\ (forall q1 q2, Js.toLowerCase q1 = Js.toLowerCase q2 -> classify q1 = classify q2).
Proof.
  split; [exact classify_lower|].
  intros q1 q2 H. now rewrite <- (classify_lower q1), H, classify_lower.
Qed.

End CaseFacts.

(** ** The polling loop of the video handler *)
Module PollFacts.
Import Model Handlers Outcomes.

Lemma pollLoop_done (script : list (Reply Operation)) (operation : Operation) (st : HState) :
  done operation = true -> pollLoop script operation st = (Returned operation, st).
Proof. intros H. destruct script; cbn [pollLoop]; rewrite H; reflexivity. Qed.

Lemma pollLoop_turn (r : Reply Operation) (script : list (Reply Operation))
      (operation : Operation) (st : HState) :
  done operation = false ->
  pollLoop (r :: script) operation st
  = match r with
    | Resolve next =>
        pollLoop script next
                 (mkHState (msg st) (putGetVideosOperation script (env st))
                           (effects st ++ pollTurn))
    | Reject e =>
        (Threw e, mkHState (msg st) (putGetVideosOperation script (env st))
                           (effects st ++ pollTurn))
    end.
Proof.
  intros H. cbn [pollLoop]. rewrite H. cbn [negb].
  unfold bind, effect, sleep, effect, deliver, bind, setEnv, ret, throw, pollTurn.
  cbn [msg env effects]. rewrite <- !List.app_assoc. cbn [app].
  destruct r; reflexivity.
Qed.

Lemma pollLoop_stalls (operation : Operation) (st : HState) :
  done operation = false ->
  pollLoop [] operation st
  = (Waiting, mkHState (msg st) (env st) (effects st ++ pollTurn)).
Proof.
  intros H. cbn [pollLoop]. rewrite H. cbn [negb].
  unfold bind, effect, sleep, effect, pollTurn. cbn [msg env effects].
  rewrite <- !List.app_assoc. reflexivity.
Qed.

Lemma putGetVideosOperation_twice (a b : list (Reply Operation)) (e : Env) :
  putGetVideosOperation a (putGetVideosOperation b e) = putGetVideosOperation a e.
Proof. reflexivity. Qed.

Lemma concat_repeat_S {A} (l : list A) (n : nat) :
  l ++ concat (repeat l n) = concat (repeat l (S n)).
Proof. reflexivity. Qed.

(** The loop over a script whose first answers are operations still
    running. *)
Lemma pollLoop_pending (pending : list Operation) (tail : list (Reply Operation)) :
  forall operation st,
    done operation = false ->
    Forall (fun o => done o = false) pending ->
    pollLoop (map Resolve pending ++ tail) operation st
    = match tail with
      | [] =>
          (Waiting,
           mkHState (msg st)
                    (match pending with
                     | [] => env st
                     | _ => putGetVideosOperation [] (env st)
                     end)
                    (effects st ++ concat (repeat pollTurn (S (length pending)))))
      | Resolve final :: rest =>
          pollLoop rest final
                   (mkHState (msg st) (putGetVideosOperation rest (env st))
                             (effects st ++ concat (repeat pollTurn (S (length pending)))))
      | Reject e :: rest =>
          (Threw e,
           mkHState (msg st) (putGetVideosOperation rest (env st))
                    (effects st ++ concat (repeat pollTurn (S (length pending)))))
      end.
Proof.
  induction pending as [|o pending IH]; intros operation st Hop Hpending.
  - cbn [map app length repeat concat]. rewrite List.app_nil_r.
    destruct tail as [|[final|e] rest].
    + now apply pollLoop_stalls.
    + now rewrite pollLoop_turn.
    + now rewrite pollLoop_turn.
  - inversion Hpending as [|o' l' Ho Hrest]; subst.
    cbn [map app]. rewrite (pollLoop_turn _ _ _ _ Hop).
    rewrite (IH o _ Ho Hrest). cbn [msg env effects].
    rewrite <- !List.app_assoc.
    change (pollTurn ++ concat (repeat pollTurn (S (length pending))))
      with (concat (repeat pollTurn (S (S (length pending))))).
    cbn [length].
    destruct tail as [|[final|e] rest]; try reflexivity.
    destruct pending; reflexivity.
Qed.

(** X6.  The polling loop of the video handler: an operation that is
    done is returned at once, with no wait and no call; otherwise every
    turn sets the status line, waits ten seconds and asks for the
    operation again, so a run whose first n calls still find the
    operation running has waited n + 1 times and made n + 1 calls; a
    call that is rejected ends the loop with that error, and a call that
    is never answered leaves the handler waiting. *)
Theorem pollLoop_waits_once_per_poll :
  (forall script operation st,
      done operation = true ->
      pollLoop script operation st = (Returned operation, st))
  /\ (forall pending final rest operation st,
         done operation = false ->
         Forall (fun o => done o = false) pending ->
         done final = true ->
         pollLoop (map Resolve pending ++ Resolve final :: rest) operation st
         = (Returned final,
            mkHState (msg st) (putGetVideosOperation rest (env st))
                     (effects st ++ concat (repeat pollTurn (S (length pending))))))
  /\ (forall pending e rest operation st,
         done operation = false ->
         Forall (fun o => done o = false) pending ->
         pollLoop (map Resolve pending ++ Reject e :: rest) operation st
         = (Threw e,
            mkHState (msg st) (putGetVideosOperation rest (env st))
                     (effects st ++ concat (repeat pollTurn (S (length pending))))))
  /\ (forall pending operation st,
         done operation = false ->
         Forall (fun o => done o = false) pending ->
         fst (pollLoop (map Resolve pending) operation st) = Waiting
         /\ effects (snd (pollLoop (map Resolve pending) operation st))
            = effects st ++ concat (repeat pollTurn (S (length pending)))).
Proof.
  split; [exact pollLoop_done|]. split; [|split].
  - intros pending final rest operation st Hop Hp Hf.
    rewrite (pollLoop_pending pending (Resolve final :: rest) operation st Hop Hp).
    now apply pollLoop_done.
  - intros pending e rest operation st Hop Hp.
    now rewrite (pollLoop_pending pending (Reject e :: rest) operation st Hop Hp).
  - intros pending operation st Hop Hp.
    pose proof (pollLoop_pending pending [] operation st Hop Hp) as H.
    rewrite List.app_nil_r in H. rewrite H. split; reflexivity.
Qed.

End PollFacts.

(** ** The video handler and the key dialog *)
Module VideoSafeFacts.
Import Model Handlers Outcomes.

Lemma keeps_ret {A} (a : A) : keeps (ret a).
Proof. intros st H. exact H. Qed.

Lemma keeps_throw {A} (e : JsError) : keeps (@throw A e).
Proof. intros st H. exact H. Qed.

Lemma keeps_waiting {A} : keeps (fun st => (@Waiting A, st)).
Proof. intros st H. exact H. Qed.

Lemma keeps_effect (e : Effect) : keeps (effect e).
Proof. intros st H. exact H. Qed.

Lemma keeps_modifyMessage (f : Message -> Message) : keeps (modifyMessage f).
Proof. intros st H. exact H. Qed.

Lemma keeps_getEnv {A} (f : Env -> A) : keeps (getEnv f).
Proof. intros st H. exact H. Qed.

Lemma keeps_bind {A B} (h : Handler A) (k : A -> Handler B) :
  keeps h -> (forall a, keeps (k a)) -> keeps (bind h k).
Proof.
  intros Hh Hk st H. unfold bind. specialize (Hh st H).
  destruct (h st) as [[a|e|] st']; cbn [snd] in *; [now apply Hk | exact Hh | exact Hh].
Qed.

Lemma keeps_deliver {A} (put : list (Reply A) -> Env -> Env) (r : Reply A)
      (rest : list (Reply A)) :
  (forall e, neverRejects (openSelectKey e) = true ->
             neverRejects (openSelectKey (put rest e)) = true) ->
  keeps (deliver put r rest).
Proof.
  intros Hput st H. unfold deliver, bind, setEnv, ret, throw.
  destruct r; cbn [snd env]; now apply Hput.
Qed.

Lemma keeps_await {A} (made : Effect) (get : Env -> list (Reply A))
      (put : list (Reply A) -> Env -> Env) :
  (forall l e, openSelectKey (put l e) = openSelectKey e) -> keeps (await made get put).
Proof.
  intros Hput. unfold await. apply keeps_bind; [apply keeps_effect|]. intros _.
  apply keeps_bind; [apply keeps_getEnv|]. intros [|r rest]; [apply keeps_waiting|].
  apply keeps_deliver. intros e H. now rewrite Hput.
Qed.

Lemma keeps_openSelectKey :
  keeps (await CallOpenSelectKey openSelectKey putOpenSelectKey).
Proof.
  intros st H. unfold await, bind, effect, getEnv, deliver, bind, setEnv, ret, throw.
  cbn [env]. unfold dialogAnswers in *.
  destruct (openSelectKey (env st)) as [|r rest] eqn:E; cbn [snd env]; [now rewrite E|].
  cbn [neverRejects forallb] in H. apply andb_true_iff in H as [_ H].
  destruct r; exact H.
Qed.

Lemma keeps_pollLoop (script : list (Reply Operation)) :
  forall operation, keeps (pollLoop script operation).
Proof.
  induction script as [|r script IH]; intros operation; cbn [pollLoop];
    destruct (done operation); try apply keeps_ret;
    (apply keeps_bind; [apply keeps_effect|]; intros _;
     apply keeps_bind; [apply keeps_effect|]; intros _;
     apply keeps_bind; [apply keeps_effect|]; intros _).
  - apply keeps_waiting.
  - apply keeps_bind; [|intros o; apply IH].
    apply keeps_deliver. intros e H. exact H.
Qed.

Lemma keeps_videoAttempt (query : string) (isRetry : bool) :
  keeps (videoAttempt query isRetry).
Proof.
  unfold videoAttempt.
  apply keeps_bind.
  { destruct isRetry; cbn [negb]; [apply keeps_ret|].
    apply keeps_bind; [now apply keeps_await|]. intros hasKey.
    destruct hasKey; cbn [negb]; [apply keeps_ret|].
    apply keeps_bind; [apply keeps_effect|]. intros _.
    apply keeps_bind; [apply keeps_effect|]. intros _.
    apply keeps_openSelectKey. }
  intros _. apply keeps_bind; [apply keeps_effect|]. intros _.
  apply keeps_bind; [now apply keeps_await|]. intros operation.
  apply keeps_bind; [apply keeps_getEnv|]. intros script.
  apply keeps_bind; [apply keeps_pollLoop|]. intros op.
  apply keeps_bind; [apply keeps_effect|]. intros _.
  destruct (usableLink (downloadLink op)); [|apply keeps_throw].
  apply keeps_bind; [apply keeps_getEnv|]. intros key.
  apply keeps_bind; [now apply keeps_await|]. intros videoResponse.
  destruct (ok videoResponse); cbn [negb]; [|apply keeps_throw].
  apply keeps_bind; [now apply keeps_await|]. intros url.
  apply keeps_bind; apply keeps_modifyMessage || (intros; apply keeps_modifyMessage).
Qed.

(** A retry settles without throwing, whatever the script. *)
Lemma retry_never_throws (again : Handler unit) (query : string) (st : HState) (e : JsError) :
  fst (tryCatch (videoAttempt query true) (videoCatch again true) st) <> Threw e.
Proof.
  unfold tryCatch. destruct (videoAttempt query true st) as [[[]|err|] st1];
    cbn [fst]; try discriminate.
  unfold videoCatch. destruct (credentialInvalid err); cbn; discriminate.
Qed.

(** X7.  The video handler catches what goes wrong: as long as the key
    dialog does not reject, a call never throws, whatever the other
    collaborators answer; it returns, or it is left waiting for an
    answer.  What a collaborator rejects with is an error object, whose
    message, if it has one, is a string: the [catch] block reads
    [error.message] of it. *)
Theorem handleVideoGeneration_never_throws (query : string) (isRetry : bool) (st : HState) :
  neverRejects (openSelectKey (env st)) = true ->
  forall e, fst (handleVideoGeneration query isRetry st) <> Threw e.
Proof.
  intros H e. destruct isRetry; [apply retry_never_throws|].
  unfold handleVideoGeneration. cbn [handleVideoGenerationAt]. unfold tryCatch at 1.
  pose proof (keeps_videoAttempt query false st H) as H1.
  destruct (videoAttempt query false st) as [[[]|err|] st1]; cbn [fst snd] in *;
    try discriminate.
  unfold videoCatch at 1. destruct (credentialInvalid err); [|cbn; discriminate].
  unfold await, bind at 1, effect at 1. unfold bind at 1, sleep, effect at 1.
  unfold bind at 1, bind at 1, effect at 1, bind at 1, getEnv at 1. cbn [env].
  unfold dialogAnswers in H1.
  destruct (openSelectKey (env st1)) as [|[[]|rej] rest]; cbn [fst];
    [discriminate | | cbn in H1; discriminate H1].
  unfold deliver, bind at 1, setEnv at 1, ret at 1. apply retry_never_throws.
Qed.

End VideoSafeFacts.

(** ** What the video handler leaves in the message *)
Module VideoPostFacts.
Import Model Handlers Outcomes.

Lemma silent_ret {A} (a : A) : silent (ret a).
Proof. intros st. reflexivity. Qed.

Lemma silent_effect (e : Effect) : silent (effect e).
Proof. intros st. reflexivity. Qed.

Lemma silent_getEnv {A} (f : Env -> A) : silent (getEnv f).
Proof. intros st. reflexivity. Qed.

Lemma silent_waiting {A} : silent (fun st => (@Waiting A, st)).
Proof. intros st. reflexivity. Qed.

Lemma silent_bind {A B} (h : Handler A) (k : A -> Handler B) :
  silent h -> (forall a, silent (k a)) -> silent (bind h k).
Proof.
  intros Hh Hk st. unfold bind. specialize (Hh st).
  destruct (h st) as [[a|e|] st']; cbn [snd] in *; [|exact Hh|exact Hh].
  now rewrite Hk.
Qed.

Lemma silent_deliver {A} (put : list (Reply A) -> Env -> Env) (r : Reply A)
      (rest : list (Reply A)) : silent (deliver put r rest).
Proof. intros st. destruct r; reflexivity. Qed.

Lemma silent_await {A} (made : Effect) (get : Env -> list (Reply A))
      (put : list (Reply A) -> Env -> Env) : silent (await made get put).
Proof.
  unfold await. apply silent_bind; [apply silent_effect|]. intros _.
  apply silent_bind; [apply silent_getEnv|]. intros [|r rest];
    [apply silent_waiting | apply silent_deliver].
Qed.

Lemma silent_pollLoop (script : list (Reply Operation)) :
  forall operation, silent (pollLoop script operation).
Proof.
  induction script as [|r script IH]; intros operation; cbn [pollLoop];
    destruct (done operation); try apply silent_ret;
    (apply silent_bind; [apply silent_effect|]; intros _;
     apply silent_bind; [apply silent_effect|]; intros _;
     apply silent_bind; [apply silent_effect|]; intros _).
  - apply silent_waiting.
  - apply silent_bind; [apply silent_deliver | intros o; apply IH].
Qed.

Lemma delivers_bind {A} (h : Handler A) (k : A -> Handler unit) :
  silent h -> (forall a, delivers (k a)) -> delivers (bind h k).
Proof.
  intros Hh Hk st. unfold bind. specialize (Hh st).
  destruct (h st) as [[a|e|] st']; cbn [fst snd] in *; [|exact Hh|exact Hh].
  specialize (Hk a st'). rewrite Hh in Hk. exact Hk.
Qed.

Lemma delivers_throw (e : JsError) : delivers (throw e).
Proof. intros st. reflexivity. Qed.

Lemma delivers_videoAttempt (query : string) (isRetry : bool) :
  delivers (videoAttempt query isRetry).
Proof.
  unfold videoAttempt.
  apply delivers_bind.
  { destruct isRetry; cbn [negb]; [apply silent_ret|].
    apply silent_bind; [apply silent_await|]. intros hasKey.
    destruct hasKey; cbn [negb]; [apply silent_ret|].
    apply silent_bind; [apply silent_effect|]. intros _.
    apply silent_bind; [apply silent_effect|]. intros _.
    apply silent_await. }
  intros _. apply delivers_bind; [apply silent_effect|]. intros _.
  apply delivers_bind; [apply silent_await|]. intros operation.
  apply delivers_bind; [apply silent_getEnv|]. intros script.
  apply delivers_bind; [apply silent_pollLoop|]. intros op.
  apply delivers_bind; [apply silent_effect|]. intros _.
  destruct (usableLink (downloadLink op)); [|apply delivers_throw].
  apply delivers_bind; [apply silent_getEnv|]. intros key.
  apply delivers_bind; [apply silent_await|]. intros videoResponse.
  destruct (ok videoResponse); cbn [negb]; [|apply delivers_throw].
  apply delivers_bind; [apply silent_await|]. intros url.
  intros st. cbn. exists url. reflexivity.
Qed.

Lemma settlesVideo_bind {A} (h : Handler A) (k : A -> Handler unit) :
  silent h -> (forall a, settlesVideo (k a)) -> settlesVideo (bind h k).
Proof.
  intros Hh Hk st. unfold bind. specialize (Hh st).
  destruct (h st) as [[a|e|] st']; cbn [fst snd] in *; [|exact Hh|exact Hh].
  specialize (Hk a st'). rewrite Hh in Hk. exact Hk.
Qed.

Lemma settlesVideo_videoCatch (again : Handler unit) (isRetry : bool) (error : JsError) :
  (isRetry = false -> settlesVideo again) ->
  settlesVideo (videoCatch again isRetry error).
Proof.
  intros Hagain. unfold videoCatch. destruct (credentialInvalid error).
  - destruct isRetry.
    + intros st. cbn. right. left. reflexivity.
    + apply settlesVideo_bind; [apply silent_effect|]. intros _.
      apply settlesVideo_bind; [apply silent_effect|]. intros _.
      apply settlesVideo_bind; [apply silent_await|]. intros _.
      now apply Hagain.
  - apply settlesVideo_bind; [apply silent_effect|]. intros _.
    intros st. cbn. right. right. reflexivity.
Qed.

Lemma settlesVideo_tryCatch (again : Handler unit) (query : string) (isRetry : bool) :
  (isRetry = false -> settlesVideo again) ->
  settlesVideo (tryCatch (videoAttempt query isRetry) (videoCatch again isRetry)).
Proof.
  intros Hagain st. unfold tryCatch.
  pose proof (delivers_videoAttempt query isRetry st) as H.
  destruct (videoAttempt query isRetry st) as [[[]|err|] st1]; cbn [fst snd] in *.
  - left. exact H.
  - pose proof (settlesVideo_videoCatch again isRetry err Hagain st1) as Hc.
    rewrite H in Hc. exact Hc.
  - exact H.
Qed.

(** X8.  What the video handler leaves in the message.  When it
    returns, the message has either the video and the text of success, or
    one of the two texts of failure and everything else as before; when
    it throws or is left waiting, the message is as it was. *)
Theorem handleVideoGeneration_message (query : string) (isRetry : bool) (st : HState) :
  match fst (handleVideoGeneration query isRetry st) with
  | Returned _ =>
      (exists url,
          msg (snd (handleVideoGeneration query isRetry st))
          = setText videoDoneText (setVideo url (msg st)))
      \/ msg (snd (handleVideoGeneration query isRetry st))
         = setText videoFailedAgainText (msg st)
      \/ msg (snd (handleVideoGeneration query isRetry st))
         = setText videoFailedText (msg st)
  | _ => msg (snd (handleVideoGeneration query isRetry st)) = msg st
  end.
Proof.
  apply (settlesVideo_tryCatch _ query isRetry). intros _.
  apply (settlesVideo_tryCatch _ query true). discriminate.
Qed.

End VideoPostFacts.

(** ** The streaming loops *)
Module StreamFacts.
Import Model Handlers Outcomes.

Lemma rendersOf_cons (acc t : string) (texts : list string) :
  rendersOf acc (t :: texts)
  = SetAnswerHtml (Markdown.simpleMarkdownToHtml (acc +:+ t)) :: ScrollToEnd
      :: rendersOf (acc +:+ t) texts.
Proof.
  unfold rendersOf. cbn [length seq flat_map firstn Js.concatAll app].
  rewrite StringFacts.app_nil_r. do 2 f_equal.
  rewrite <- seq_shift, flat_map_concat_map, map_map, <- flat_map_concat_map.
  apply flat_map_ext. intros k. cbn [firstn Js.concatAll].
  now rewrite StringFacts.app_assoc.
Qed.

Lemma fullTextOf_textsOf (cs : list Chunk) :
  fullTextOf cs = Js.concatAll (textsOf cs).
Proof.
  unfold fullTextOf. induction cs as [|c cs IH]; [reflexivity|].
  cbn [map Js.concatAll textsOf]. rewrite IH.
  destruct (chunkText c) as [[|x t]|]; reflexivity.
Qed.

(** The loop of the code handler, from any text and any ending. *)
Lemma forAwait_renders (cs : list Chunk) (fin : StreamEnd) :
  forall acc st,
    forAwait appendChunkText cs fin acc st
    = (ended fin (acc +:+ fullTextOf cs),
       mkHState (msg st) (env st) (effects st ++ rendersOf acc (textsOf cs))).
Proof.
  induction cs as [|c cs IH]; intros acc st.
  - cbn [forAwait textsOf]. unfold fullTextOf, rendersOf. cbn.
    rewrite StringFacts.app_nil_r, List.app_nil_r. destruct fin, st; reflexivity.
  - cbn [forAwait textsOf]. unfold bind at 1. unfold appendChunkText at 1.
    unfold fullTextOf. cbn [map Js.concatAll]. fold (fullTextOf cs).
    destruct (chunkText c) as [[|x t]|].
    + cbn [Js.isEmpty ret]. rewrite IH. now rewrite StringFacts.app_nil_l.
    + cbn [Js.isEmpty]. unfold bind, effect, ret. cbn [msg env effects].
      rewrite IH. cbn [msg env effects]. rewrite rendersOf_cons.
      rewrite StringFacts.app_assoc, <- !List.app_assoc. reflexivity.
    + cbn [ret]. rewrite IH. now rewrite StringFacts.app_nil_l.
Qed.

(** The loop of the text-search handler. *)
Lemma forAwait_search_renders (cs : list Chunk) (fin : StreamEnd) :
  forall acc st,
    forAwait textSearchStep cs fin acc st
    = (ended fin (acc +:+ fullTextOf cs),
       mkHState (sourcesAfter cs (msg st)) (env st)
                (effects st ++ rendersOf acc (textsOf cs))).
Proof.
  induction cs as [|c cs IH]; intros acc st.
  - cbn [forAwait textsOf]. unfold fullTextOf, rendersOf. cbn.
    rewrite StringFacts.app_nil_r, List.app_nil_r. destruct fin, st; reflexivity.
  - cbn [forAwait textsOf]. unfold bind at 1. unfold textSearchStep at 1.
    unfold bind at 1. unfold appendChunkText at 1.
    unfold fullTextOf. cbn [map Js.concatAll]. fold (fullTextOf cs).
    unfold sourcesAfter. cbn [fold_left]. fold (sourcesAfter cs (takeSources c (msg st))).
    destruct (chunkText c) as [[|x t]|].
    + cbn [Js.isEmpty ret]. unfold bind, modifyMessage, ret. cbn [msg env effects].
      rewrite IH. now rewrite StringFacts.app_nil_l.
    + cbn [Js.isEmpty]. unfold bind, effect, modifyMessage, ret. cbn [msg env effects].
      rewrite IH. cbn [msg env effects]. rewrite rendersOf_cons.
      rewrite StringFacts.app_assoc, <- !List.app_assoc. reflexivity.
    + cbn [ret]. unfold bind, modifyMessage, ret. cbn [msg env effects].
      rewrite IH. now rewrite StringFacts.app_nil_l.
Qed.

Lemma handleCodeGeneration_stream (query : string) (st : HState)
      (stream : Stream) (rest : list (Reply Stream)) :
  generateContentStream (env st) = Resolve stream :: rest ->
  handleCodeGeneration query st
  = let shown := effects st ++ CallGenerateContentStream "gemini-2.5-pro" query
                   :: rendersOf EmptyString (textsOf (chunks stream)) in
    let env' := putGenerateContentStream rest (env st) in
    match ending stream with
    | EndOfStream =>
        (Returned tt,
         mkHState (setCode (Extract.extractCode (fullTextOf (chunks stream)))
                           (setText (fullTextOf (chunks stream)) (msg st)))
                  env' shown)
    | StreamFails e => (Threw e, mkHState (msg st) env' shown)
    | StreamStalls => (Waiting, mkHState (msg st) env' shown)
    end.
Proof.
  intros Hs. unfold handleCodeGeneration, await.
  unfold bind at 1. unfold bind at 1. unfold effect at 1.
  unfold bind at 1. unfold getEnv at 1. cbn [env].
  rewrite Hs. unfold deliver. unfold bind at 1. unfold setEnv at 1. unfold ret at 1.
  unfold bind at 1. rewrite forAwait_renders. cbn [msg env effects].
  rewrite StringFacts.app_nil_l, <- List.app_assoc. cbn [app].
  destruct (ending stream); reflexivity.
Qed.

Lemma handleTextSearch_stream (query : string) (st : HState)
      (stream : Stream) (rest : list (Reply Stream)) :
  generateContentStream (env st) = Resolve stream :: rest ->
  handleTextSearch query st
  = let shown := effects st ++ CallGenerateContentStream "gemini-2.5-flash" query
                   :: rendersOf EmptyString (textsOf (chunks stream)) in
    let env' := putGenerateContentStream rest (env st) in
    match ending stream with
    | EndOfStream =>
        (Returned tt,
         mkHState (setText (fullTextOf (chunks stream))
                           (sourcesAfter (chunks stream) (msg st)))
                  env' shown)
    | StreamFails e => (Threw e, mkHState (sourcesAfter (chunks stream) (msg st)) env' shown)
    | StreamStalls => (Waiting, mkHState (sourcesAfter (chunks stream) (msg st)) env' shown)
    end.
Proof.
  intros Hs. unfold handleTextSearch, await.
  unfold bind at 1. unfold bind at 1. unfold effect at 1.
  unfold bind at 1. unfold getEnv at 1. cbn [env].
  rewrite Hs. unfold deliver. unfold bind at 1. unfold setEnv at 1. unfold ret at 1.
  unfold bind at 1. rewrite forAwait_search_renders. cbn [msg env effects].
  rewrite StringFacts.app_nil_l, <- List.app_assoc. cbn [app].
  destruct (ending stream); reflexivity.
Qed.

Lemma rendersOf_nth (texts : list string) :
  forall acc k,
    (k < length texts)%nat ->
    nth_error (rendersOf acc texts) (2 * k)
    = Some (SetAnswerHtml (Markdown.simpleMarkdownToHtml
                             (acc +:+ Js.concatAll (firstn (S k) texts))))
    /\ nth_error (rendersOf acc texts) (2 * k + 1) = Some ScrollToEnd.
Proof.
  induction texts as [|t texts IH]; intros acc k Hk; [cbn in Hk; lia|].
  rewrite rendersOf_cons. destruct k as [|k].
  - cbn [Nat.mul Nat.add nth_error firstn Js.concatAll].
    rewrite StringFacts.app_nil_r. split; reflexivity.
  - cbn [length] in Hk. specialize (IH (acc +:+ t) k ltac:(lia)).
    replace (2 * S k)%nat with (S (S (2 * k))) by lia.
    replace (S (S (2 * k)) + 1)%nat with (S (S (2 * k + 1))) by lia.
    cbn [nth_error]. destruct IH as [IH1 IH2]. rewrite IH1, IH2.
    cbn [firstn Js.concatAll]. now rewrite StringFacts.app_assoc.
Qed.

(** X9.  The streaming handlers: the text of the answer is the texts
    of the increments one after the other, increments without text
    skipped; while they arrive the answer area shows, after each one, the
    rendering of all the text received so far; when the stream ends the
    code handler stores the text and what [extractCode] finds in it, the
    text-search handler the text; and the bubble of the answer gets the
    artifact button exactly when the text holds a fenced block in html,
    css, javascript or js. *)
Theorem streamed_answer_adds_up :
  (forall query st stream rest,
      generateContentStream (env st) = Resolve stream :: rest ->
      ending stream = EndOfStream ->
      handleCodeGeneration query st
      = (Returned tt,
         mkHState (setCode (Extract.extractCode (Js.concatAll (textsOf (chunks stream))))
                           (setText (Js.concatAll (textsOf (chunks stream))) (msg st)))
                  (putGenerateContentStream rest (env st))
                  (effects st ++ CallGenerateContentStream "gemini-2.5-pro" query
                     :: rendersOf EmptyString (textsOf (chunks stream)))))
  /\ (forall query st stream rest,
         generateContentStream (env st) = Resolve stream :: rest ->
         ending stream = EndOfStream ->
         handleTextSearch query st
         = (Returned tt,
            mkHState (setText (Js.concatAll (textsOf (chunks stream)))
                              (sourcesAfter (chunks stream) (msg st)))
                     (putGenerateContentStream rest (env st))
                     (effects st ++ CallGenerateContentStream "gemini-2.5-flash" query
                        :: rendersOf EmptyString (textsOf (chunks stream)))))
  /\ (forall texts k,
         (k < length texts)%nat ->
         nth_error (rendersOf EmptyString texts) (2 * k)
         = Some (SetAnswerHtml (Markdown.simpleMarkdownToHtml
                                  (Js.concatAll (firstn (S k) texts))))
         /\ nth_error (rendersOf EmptyString texts) (2 * k + 1) = Some ScrollToEnd)
  /\ (forall m fullText,
         code m = Extract.extractCode fullText ->
         Controller.artifactButton (Controller.createModelMessageBubble m false)
         = existsb Extract.recognized (Extract.codeBlocks fullText)).
Proof.
  split; [|split; [|split]].
  - intros query st stream rest Hs He.
    rewrite (handleCodeGeneration_stream query st stream rest Hs). cbn zeta.
    now rewrite He, fullTextOf_textsOf.
  - intros query st stream rest Hs He.
    rewrite (handleTextSearch_stream query st stream rest Hs). cbn zeta.
    now rewrite He, fullTextOf_textsOf.
  - intros texts k Hk. apply (rendersOf_nth texts EmptyString k Hk).
  - intros m fullText Hc. unfold Controller.createModelMessageBubble. cbn [Controller.artifactButton].
    rewrite Hc, ExtractFacts.extractCode_eq.
    destruct (existsb Extract.recognized (Extract.codeBlocks fullText)); reflexivity.
Qed.

End StreamFacts.

(** ** The image handler *)
Module ImageFacts.
Import Model Handlers Outcomes.

Lemma firstInlineData_skips (n : nat) (data : string) (later : list Part) :
  firstInlineData (repeat None n ++ Some data :: later) = data.
Proof. induction n as [|n IH]; [reflexivity | exact IH]. Qed.

Lemma firstInlineData_none (n : nat) : firstInlineData (repeat None n) = EmptyString.
Proof. induction n as [|n IH]; [reflexivity | exact IH]. Qed.

Lemma handleImageGeneration_run (query : string) (st : HState) :
  handleImageGeneration query st
  = let shown := effects st ++ [SetAnswerHtml "<p>Generating your image...</p>";
                                CallGenerateContent "gemini-2.5-flash-image" query] in
    match generateContent (env st) with
    | [] => (Waiting, mkHState (msg st) (env st) shown)
    | Reject e :: rest => (Threw e, mkHState (msg st) (putGenerateContent rest (env st)) shown)
    | Resolve response :: rest =>
        match candidates response with
        | [] => (Threw TypeError, mkHState (msg st) (putGenerateContent rest (env st)) shown)
        | parts :: _ =>
            (Returned tt,
             mkHState (if Js.isEmpty (firstInlineData parts)
                       then setText noImageText (msg st)
                       else setText (imageText query)
                                    (setImage ("data:image/png;base64,"
                                                 +:+ firstInlineData parts) (msg st)))
                      (putGenerateContent rest (env st)) shown)
        end
    end.
Proof.
  unfold handleImageGeneration, await.
  unfold bind at 1, effect at 1, bind at 1, bind at 1, effect at 1, bind at 1, getEnv at 1.
  cbn [env msg effects]. rewrite <- List.app_assoc. cbn [app].
  destruct (generateContent (env st)) as [|[response|e] rest]; try reflexivity.
  unfold deliver, bind at 1, setEnv at 1, ret at 1.
  destruct (candidates response) as [|parts others]; [reflexivity|].
  destruct (firstInlineData parts) as [|c d]; reflexivity.
Qed.

(** X10.  The image handler.  When the request is answered, the handler
    returns; the message gets the image, as a data URL of the bytes, and a
    text quoting the query when the first part that has inline data has
    some, and the text of failure, with no image, when it has none or no
    part has inline data.  Parts without inline data in front are
    skipped, and only the first part with inline data counts.  In every
    case the handler touches nothing else of the message, and when it
    throws or is left waiting it has not touched the message at all. *)
Theorem handleImageGeneration_message :
  (forall query st response rest parts others,
      generateContent (env st) = Resolve response :: rest ->
      candidates response = parts :: others ->
      fst (handleImageGeneration query st) = Returned tt
      /\ msg (snd (handleImageGeneration query st))
         = (if Js.isEmpty (firstInlineData parts)
            then setText noImageText (msg st)
            else setText (imageText query)
                         (setImage ("data:image/png;base64," +:+ firstInlineData parts)
                                   (msg st)))
      /\ effects (snd (handleImageGeneration query st))
         = effects st ++ [SetAnswerHtml "<p>Generating your image...</p>";
                          CallGenerateContent "gemini-2.5-flash-image" query])
  /\ (forall n data later,
         firstInlineData (repeat None n ++ Some data :: later) = data)
  /\ (forall query st,
         match fst (handleImageGeneration query st) with
         | Returned _ =>
             (exists data,
                 data <> EmptyString
                 /\ msg (snd (handleImageGeneration query st))
                    = setText (imageText query)
                              (setImage ("data:image/png;base64," +:+ data) (msg st)))
             \/ msg (snd (handleImageGeneration query st)) = setText noImageText (msg st)
         | _ => msg (snd (handleImageGeneration query st)) = msg st
         end).
Proof.
  split; [|split; [exact firstInlineData_skips|]].
  - intros query st response rest parts others Hs Hc.
    rewrite handleImageGeneration_run, Hs, Hc. cbn. auto.
  - intros query st. rewrite handleImageGeneration_run.
    destruct (generateContent (env st)) as [|[response|e] rest]; try reflexivity.
    destruct (candidates response) as [|parts others]; [reflexivity|].
    cbn [fst snd msg]. destruct (firstInlineData parts) as [|c d] eqn:E; cbn [Js.isEmpty].
    + right. reflexivity.
    + left. exists (String c d). split; [discriminate | reflexivity].
Qed.

End ImageFacts.

(** ** The page and the controller *)
Module PageFacts.
Import Model Handlers Controller.

(** The world of the page moves as [Controller] has it. *)
Lemma world_closeArtifactPane (p : Page.Page) :
  Page.world (Page.closeArtifactPane p) = closeArtifactPane (Page.world p).
Proof.
  unfold Page.closeArtifactPane, Page.renderArtifactPane.
  destruct (Page.artifactOf _); reflexivity.
Qed.

Lemma world_handleNewChat (p : Page.Page) :
  Page.world (Page.handleNewChat p) = handleNewChat (Page.world p).
Proof. unfold Page.handleNewChat. now rewrite world_closeArtifactPane. Qed.

Lemma world_renderApp (p : Page.Page) :
  Page.world (Page.renderApp p) = renderApp (Page.world p).
Proof.
  unfold Page.renderApp, renderApp, Page.renderArtifactPane.
  destruct (isAuthenticated (state (Page.world p))); [|reflexivity].
  destruct (Page.artifactOf _); reflexivity.
Qed.

Lemma world_handleAuthClick (p : Page.Page) :
  Page.world (Page.handleAuthClick p) = handleAuthClick (Page.world p).
Proof.
  unfold Page.handleAuthClick, handleAuthClick. rewrite world_renderApp.
  f_equal. unfold Page.saveState. cbn [Page.world Page.onWorld]. f_equal.
  destruct (isAuthenticated (state (Page.world p))).
  - now rewrite world_closeArtifactPane.
  - destruct (chats (state (Page.world p))); [|reflexivity].
    now rewrite world_handleNewChat.
Qed.

Lemma world_handleTabSwitch (chatId : Z) (p : Page.Page) :
  Page.world (Page.handleTabSwitch chatId p) = handleTabSwitch chatId (Page.world p).
Proof.
  unfold Page.handleTabSwitch, handleTabSwitch.
  destruct (sameId _ _); [reflexivity|]. now rewrite world_closeArtifactPane.
Qed.

Lemma world_handleArtifactView (index : nat) (p : Page.Page) :
  Page.world (Page.handleArtifactView index p) = handleArtifactView index (Page.world p).
Proof.
  unfold Page.handleArtifactView, Page.renderArtifactPane.
  destruct (Page.artifactOf _); reflexivity.
Qed.

Lemma dropped_unchanged (w w' : World) :
  handleSearchBegin w = (Dropped, w') -> w' = w.
Proof.
  unfold handleSearchBegin.
  destruct (Js.isEmpty (Js.trim (searchInput w)) || isLoading w
            || noActiveChat (activeChatId (state w))); [now intros [= <-]|].
  cbn [state withLoading].
  destruct (findChat (chats (state w)) (activeChatId (state w))); discriminate.
Qed.

Lemma world_handleSearchBegin (p : Page.Page) :
  Page.world (snd (Page.handleSearchBegin p)) = snd (handleSearchBegin (Page.world p))
  /\ fst (Page.handleSearchBegin p) = fst (handleSearchBegin (Page.world p)).
Proof.
  unfold Page.handleSearchBegin.
  destruct (handleSearchBegin (Page.world p)) as [[|f|e] w] eqn:E; cbn [fst snd];
    split; try reflexivity.
  symmetry. now apply dropped_unchanged.
Qed.

Lemma world_handleSearchEnd (f : Frame) (settled : Outcome unit) (left : Message)
      (p : Page.Page) :
  Page.world (Page.handleSearchEnd f settled left p)
  = handleSearchEnd f settled left (Page.world p).
Proof. reflexivity. Qed.

Lemma world_load (storage : option string) :
  Page.world (Page.load storage) = pageLoad storage.
Proof.
  unfold Page.load, Page.domContentLoaded, pageLoad. cbn [truthy Js.isEmpty].
  destruct (loadState (freshPage storage)) as [w|e]; [|reflexivity].
  apply world_renderApp.
Qed.

Lemma world_fire (p : Page.Page) (ev : Event) :
  Page.world (Page.fire p ev) = step (Page.world p) ev.
Proof.
  destruct ev as [t| |n e| | | |chatId|index|]; cbn [Page.fire step].
  - reflexivity.
  - apply world_handleSearchBegin.
  - destruct (inFlight (Page.world p) !! n) as [f|]; [|reflexivity].
    destruct (runHandler f e (Page.world p)) as [[[]|err|] st]; reflexivity.
  - apply world_load.
  - apply world_handleAuthClick.
  - apply world_handleNewChat.
  - apply world_handleTabSwitch.
  - apply world_handleArtifactView.
  - apply world_closeArtifactPane.
Qed.

End PageFacts.

(** ** The session stays well formed *)
Module SessionFacts.
Import Model Handlers Controller Session.

Lemma wellFormed_ext (s1 s2 : AppState) :
  entries s1 = entries s2 ->
  activeChatId s1 = activeChatId s2 ->
  nextChatId s1 = nextChatId s2 ->
  isAuthenticated s1 = isAuthenticated s2 ->
  wellFormed s1 -> wellFormed s2.
Proof. unfold wellFormed. intros -> -> -> ->. trivial. Qed.

Lemma entries_pushHistory (n : Z) (l : nat) (cs : list Chat) :
  map (fun c => (id c, title c)) (pushHistory n l cs) = map (fun c => (id c, title c)) cs.
Proof.
  induction cs as [|c cs IH]; [reflexivity|].
  cbn [pushHistory]. destruct (id c =? n); cbn [map id title]; [reflexivity|].
  now rewrite IH.
Qed.

Lemma wellFormed_default : wellFormed defaultState.
Proof.
  unfold wellFormed. cbn. repeat split; try constructor; try lia; try discriminate.
Qed.

(** A new chat keeps the session well formed, and makes it so when all
    it lacked was a chat. *)
Lemma wellFormed_newChat (auth : bool) (cs : list Chat) (n : Z) :
  1 <= n ->
  Forall (fun e => 1 <= fst e < n /\ snd e = "Chat " +:+ Json.numberToString (fst e))
         (map (fun c => (id c, title c)) cs) ->
  NoDup (map fst (map (fun c => (id c, title c)) cs)) ->
  wellFormed (mkAppState auth
                (cs ++ [mkChat n ("Chat " +:+ Json.numberToString n) []])
                (Some n) (n + 1)).
Proof.
  intros Hn Hall Hnd. unfold wellFormed, entries in *.
  cbn [chats nextChatId activeChatId isAuthenticated].
  rewrite !map_app. cbn [map id title fst snd].
  split; [lia|]. split; [|split; [|split]].
  - apply Forall_app. split.
    + eapply Forall_impl; [exact Hall|]. cbn. intros e [H1 H2]. split; [lia|exact H2].
    + repeat constructor; cbn; lia.
  - apply NoDup_app. split; [exact Hnd|]. split; [|apply NoDup_singleton].
    intros i Hi Hin. apply list_elem_of_singleton in Hin as ->.
    apply list_elem_of_In, in_map_iff in Hi as (e & He & Hin).
    rewrite List.Forall_forall in Hall. specialize (Hall e Hin). lia.
  - apply in_or_app. right. now left.
  - intros _ H. apply (f_equal (@length _)) in H. rewrite length_app in H. cbn in H. lia.
Qed.

Lemma handleNewChat_well (w : World) :
  wellFormed (state w) -> wellFormed (state (handleNewChat w)).
Proof.
  intros (Hn & Hall & Hnd & _). rewrite ChatIdFacts.handleNewChat_state.
  now apply wellFormed_newChat.
Qed.

Lemma handleAuthClick_well (w : World) :
  wellFormed (state w) -> wellFormed (state (handleAuthClick w)).
Proof.
  intros H. rewrite ChatIdFacts.handleAuthClick_state.
  destruct (isAuthenticated (state w)) eqn:Ha; [apply wellFormed_default|].
  destruct (chats (state w)) as [|c cs] eqn:E.
  - rewrite ChatIdFacts.handleNewChat_state.
    cbn [state withState chats nextChatId isAuthenticated].
    destruct H as (Hn & _). apply wellFormed_newChat; [exact Hn | constructor | constructor].
  - destruct H as (Hn & Hall & Hnd & Hact & _). unfold wellFormed, entries in *.
    cbn [chats nextChatId activeChatId isAuthenticated]. rewrite E in *.
    repeat split; try assumption. discriminate.
Qed.

Lemma handleTabSwitch_well (chatId : Z) (w : World) :
  In chatId (map fst (entries (state w))) ->
  wellFormed (state w) -> wellFormed (state (handleTabSwitch chatId w)).
Proof.
  intros Hin H. unfold handleTabSwitch.
  destruct (sameId (activeChatId (state w)) chatId); [exact H|].
  cbn [state closeArtifactPane renderChatHistory withView saveState withStorage
       withArtifact withState].
  destruct H as (Hn & Hall & Hnd & _ & Hauth). unfold wellFormed, entries in *.
  cbn [chats nextChatId activeChatId isAuthenticated]. repeat split; assumption.
Qed.

Lemma handleSearchBegin_entries (w : World) :
  entries (state (snd (handleSearchBegin w))) = entries (state w)
  /\ activeChatId (state (snd (handleSearchBegin w))) = activeChatId (state w)
  /\ nextChatId (state (snd (handleSearchBegin w))) = nextChatId (state w)
  /\ isAuthenticated (state (snd (handleSearchBegin w))) = isAuthenticated (state w).
Proof.
  unfold handleSearchBegin.
  destruct (Js.isEmpty (Js.trim (searchInput w)) || isLoading w
            || noActiveChat (activeChatId (state w))); [repeat split|].
  cbn [state withLoading].
  destruct (findChat (chats (state w)) (activeChatId (state w))) as [c|]; [|repeat split].
  cbn. unfold entries. cbn [chats]. rewrite !entries_pushHistory. repeat split.
Qed.

Lemma handleSearchBegin_well (w : World) :
  wellFormed (state w) -> wellFormed (state (snd (handleSearchBegin w))).
Proof.
  destruct (handleSearchBegin_entries w) as (H1 & H2 & H3 & H4).
  apply wellFormed_ext; now symmetry.
Qed.

(** *** What is stored stays the serialisation of a well-formed
    session *)

Lemma storedWell_serialized (w : World) (storage : option string) :
  storage = Some (serialized w) -> wellFormed (state w) -> storedWell storage.
Proof.
  intros -> H text [= <-]. exists (store w), (state w). split; [reflexivity | exact H].
Qed.

Lemma handleSearchBegin_storedWell (w : World) :
  wellFormed (state w) -> storedWell (localStorage w) ->
  storedWell (localStorage (snd (handleSearchBegin w))).
Proof.
  intros H Hs. unfold handleSearchBegin.
  destruct (Js.isEmpty (Js.trim (searchInput w)) || isLoading w
            || noActiveChat (activeChatId (state w))); [exact Hs|].
  cbn [state withLoading].
  destruct (findChat (chats (state w)) (activeChatId (state w))) as [c|]; [|exact Hs].
  cbn [snd alloc]. intros text.
  cbn [localStorage withInFlight withView pushToChat withState withStore withInput
       renderChatHistory saveState withStorage].
  intros [= <-]. eexists _, _. split; [reflexivity|].
  cbn [state pushToChat withState withStore withLoading].
  revert H. apply wellFormed_ext; try reflexivity.
  unfold entries. cbn [chats]. now rewrite entries_pushHistory.
Qed.

Lemma handleAuthClick_storage (w : World) :
  localStorage (handleAuthClick w) = Some (serialized (handleAuthClick w)).
Proof.
  unfold handleAuthClick.
  match goal with |- context [renderApp ?x] =>
    rewrite (ChatIdFacts.renderApp_storage x);
    unfold serialized;
    rewrite (proj1 (ControllerFacts.renderApp_frame x)),
            (proj2 (proj2 (proj2 (ControllerFacts.renderApp_frame x))))
  end.
  reflexivity.
Qed.

(** A page loaded over such a storage holds a well-formed session, and
    the load does not fail. *)
Lemma loadState_well (storage : option string) :
  storedWell storage ->
  exists w, loadState (freshPage storage) = inl w /\ wellFormed (state w).
Proof.
  intros Hs. destruct storage as [text|].
  - destruct (Hs text eq_refl) as (store0 & s0 & -> & Hwell).
    destruct (PersistFacts.loadState_serialized store0 s0
                (freshPage (Some (Json.stringify (Codec.encodeState store0 s0))))
                eq_refl) as (w' & Hl & Hv).
    exists w'. split; [exact Hl|]. revert Hwell. apply wellFormed_ext.
    + apply (f_equal (fun v => map (fun c => (Codec.cv_id c, Codec.cv_title c))
                                   (Codec.sv_chats v))) in Hv.
      cbn [Codec.stateValue Codec.sv_chats] in Hv. rewrite !map_map in Hv.
      symmetry. exact Hv.
    + apply (f_equal Codec.sv_activeChatId) in Hv. symmetry. exact Hv.
    + apply (f_equal Codec.sv_nextChatId) in Hv. symmetry. exact Hv.
    + apply (f_equal Codec.sv_isAuthenticated) in Hv. symmetry. exact Hv.
  - exists (freshPage None). split; [reflexivity | apply wellFormed_default].
Qed.

Lemma pageLoad_well (storage : option string) :
  storedWell storage -> wellFormed (state (pageLoad storage)).
Proof.
  intros Hs. unfold pageLoad. destruct (loadState_well storage Hs) as (w & -> & Hw).
  now rewrite (proj1 (ControllerFacts.renderApp_frame w)).
Qed.

Lemma step_well (w : World) (ev : Event) :
  grounded w ev ->
  wellFormed (state w) /\ storedWell (localStorage w) ->
  wellFormed (state (step w ev)) /\ storedWell (localStorage (step w ev)).
Proof.
  intros Hg [H Hs]. destruct ev; cbn [step].
  - split; assumption.
  - split; [now apply handleSearchBegin_well | now apply handleSearchBegin_storedWell].
  - destruct (inFlight w !! n) as [f|]; [|split; assumption].
    destruct (runHandler f e w) as [[[]|err|] st]; [| |split; assumption];
      match goal with |- context [handleSearchEnd ?f ?s ?l ?w] =>
        destruct (SettleFacts.handleSearchEnd_settled f s l w) as (_ & Hst & _ & Hstate);
        (split; [now rewrite Hstate|]);
        apply (storedWell_serialized _ _ Hst); now rewrite Hstate
      end.
  - split; [now apply pageLoad_well|].
    now rewrite (proj2 (proj2 (ControllerFacts.pageLoad_idle (localStorage w)))).
  - split; [now apply handleAuthClick_well|].
    apply (storedWell_serialized _ _ (handleAuthClick_storage w)).
    now apply handleAuthClick_well.
  - split; [now apply handleNewChat_well|].
    apply (storedWell_serialized (handleNewChat w)); [reflexivity|].
    now apply handleNewChat_well.
  - cbn [grounded] in Hg. split; [now apply handleTabSwitch_well|].
    unfold handleTabSwitch in *.
    destruct (sameId (activeChatId (state w)) chatId) eqn:E; [exact Hs|].
    match goal with |- storedWell (localStorage ?x) =>
      apply (storedWell_serialized x); [reflexivity|]
    end.
    pose proof (handleTabSwitch_well chatId w Hg H) as H'.
    unfold handleTabSwitch in H'. rewrite E in H'. exact H'.
  - split; assumption.
  - split; [exact H|]. now apply (storedWell_serialized (closeArtifactPane w)).
Qed.

End SessionFacts.

(** ** The elements stay in step with the session *)
Module SyncedFacts.
Import Model Handlers Controller Session Page Synced SessionFacts PageFacts.

Lemma tabs_entries (s : AppState) :
  map opens (map (tabOf s) (chats s)) = map fst (entries s).
Proof. unfold entries. rewrite !map_map. reflexivity. Qed.

Lemma tabOf_entries (s1 s2 : AppState) :
  entries s1 = entries s2 -> activeChatId s1 = activeChatId s2 ->
  map (tabOf s1) (chats s1) = map (tabOf s2) (chats s2).
Proof.
  unfold entries, tabOf. intros He ->. revert He.
  generalize (chats s1) (chats s2). intros l1. induction l1 as [|c l1 IH]; intros [|d l2];
    cbn [map]; try discriminate; [reflexivity|].
  intros [= H1 H2 H3]. rewrite H1, H2. f_equal. now apply IH.
Qed.

(** An enabled event comes from an element of the page. *)
Lemma enabled_grounded (p : Page) (ev : Event) :
  tabsSynced p -> enabled p ev = true -> grounded (world p) ev.
Proof.
  intros Ht He. destruct ev; try exact I. cbn [enabled grounded] in *.
  unfold tabsSynced in Ht. destruct (tabsContainer (dom p)) as [ts|]; [|discriminate].
  apply existsb_exists in He as (t & Hin & Heq). apply Z.eqb_eq in Heq. subst chatId.
  rewrite <- tabs_entries, <- Ht. now apply in_map.
Qed.

Lemma signSynced_ext (p q : Page) :
  controls (dom q) = controls (dom p) ->
  isAuthenticated (state (world q)) = isAuthenticated (state (world p)) ->
  signSynced p -> signSynced q.
Proof.
  unfold controls, signSynced. intros [= -> -> -> -> _ _] ->. trivial.
Qed.

Lemma loadingSynced_ext (p q : Page) :
  controls (dom q) = controls (dom p) ->
  isLoading (world q) = isLoading (world p) ->
  loadingSynced p -> loadingSynced q.
Proof.
  unfold controls, loadingSynced. intros [= _ _ _ _ -> ->] ->. trivial.
Qed.

Lemma paneSynced_ext (p q : Page) :
  pane (dom q) = pane (dom p) ->
  activeArtifactMessageIndex (world q) = activeArtifactMessageIndex (world p) ->
  paneSynced p -> paneSynced q.
Proof.
  unfold pane, paneSynced. intros [= -> -> ->] ->. trivial.
Qed.

Lemma tabsSynced_ext (p q : Page) :
  tabsContainer (dom q) = tabsContainer (dom p) ->
  entries (state (world q)) = entries (state (world p)) ->
  activeChatId (state (world q)) = activeChatId (state (world p)) ->
  isAuthenticated (state (world q)) = isAuthenticated (state (world p)) ->
  tabsSynced p -> tabsSynced q.
Proof.
  unfold tabsSynced. intros -> He Ha ->.
  destruct (tabsContainer (dom p)); [|trivial].
  intros ->. symmetry. now apply tabOf_entries.
Qed.

Lemma artifactOf_closed (w : World) :
  activeArtifactMessageIndex w = None -> artifactOf w = None.
Proof.
  intros H. unfold artifactOf. rewrite H.
  destruct (findChat (chats (state w)) (activeChatId (state w))); reflexivity.
Qed.

Lemma renderArtifactPane_pane (p : Page) : paneSynced (renderArtifactPane p).
Proof.
  unfold renderArtifactPane, paneSynced.
  destruct (artifactOf (world p)) as [c|] eqn:E; cbn.
  - split; [reflexivity|]. intros _. split; [|now exists c].
    intros H. now rewrite (artifactOf_closed _ H) in E.
  - split; [reflexivity | discriminate].
Qed.

Lemma renderArtifactPane_frame (p : Page) :
  world (renderArtifactPane p) = world p
  /\ tabsContainer (dom (renderArtifactPane p)) = tabsContainer (dom p)
  /\ controls (dom (renderArtifactPane p)) = controls (dom p).
Proof. unfold renderArtifactPane. destruct (artifactOf (world p)); repeat split. Qed.

(** [closeArtifactPane]: the tab bar is rendered anew and the pane is
    closed; the controls are left alone. *)
Lemma closeArtifactPane_parts (p : Page) :
  tabsSynced (closeArtifactPane p)
  /\ paneSynced (closeArtifactPane p)
  /\ controls (dom (closeArtifactPane p)) = controls (dom p).
Proof.
  unfold closeArtifactPane.
  match goal with |- context [renderArtifactPane ?q] =>
    pose proof (renderArtifactPane_pane q) as Hp;
    destruct (renderArtifactPane_frame q) as (F0 & F1 & F2)
  end.
  split; [|split; [exact Hp|exact F2]].
  unfold tabsSynced. rewrite F0, F1. reflexivity.
Qed.

Lemma handleNewChat_parts (p : Page) :
  tabsSynced (handleNewChat p)
  /\ paneSynced (handleNewChat p)
  /\ controls (dom (handleNewChat p)) = controls (dom p).
Proof.
  unfold handleNewChat.
  match goal with |- context [closeArtifactPane ?q] =>
    exact (closeArtifactPane_parts q) end.
Qed.

Lemma renderApp_synced (p : Page) :
  wellFormed (state (world p)) ->
  storedWell (localStorage (world p)) ->
  tabsSynced p \/ isAuthenticated (state (world p)) = true ->
  paneSynced p ->
  appHidden (dom p) <> Some true ->
  loadingSynced p ->
  synced (renderApp p).
Proof.
  intros Hw Hs Ht Hp Happ [Hd1 Hd2]. unfold synced. rewrite world_renderApp.
  rewrite (proj1 (ControllerFacts.renderApp_frame _)), ChatIdFacts.renderApp_storage.
  split; [exact Hw|]. split; [exact Hs|].
  unfold renderApp. destruct (isAuthenticated (state (world p))) eqn:Ha.
  - match goal with |- context [renderArtifactPane ?q] =>
      pose proof (renderArtifactPane_pane q) as Hp';
      destruct (renderArtifactPane_frame q) as (F0 & F1 & F2)
    end.
    split; [|split; [|split; [|exact Hp']]].
    + unfold tabsSynced. rewrite F0, F1. reflexivity.
    + unfold signSynced. injection F2 as -> -> -> -> _ _. rewrite F0. cbn. rewrite Ha.
      repeat split; assumption.
    + unfold loadingSynced. injection F2 as _ _ _ _ -> ->. rewrite F0. cbn.
      split; assumption.
  - destruct Ht as [Ht|Ht]; [|discriminate].
    unfold tabsSynced, signSynced, loadingSynced, paneSynced in *. cbn. rewrite Ha in *.
    repeat split; try assumption; try discriminate.
Qed.

Lemma handleAuthClick_synced (p : Page) :
  synced p -> synced (handleAuthClick p).
Proof.
  intros (Hw & Hs & Ht & (_ & _ & _ & Happ) & Hl & Hp).
  pose proof (handleAuthClick_well (world p) Hw) as Hw'.
  pose proof (handleAuthClick_storage (world p)) as Hst.
  rewrite <- !world_handleAuthClick in *.
  unfold handleAuthClick in *.
  set (q := if isAuthenticated (state (world p)) then _ else _) in *.
  assert (Hq : (tabsSynced q \/ isAuthenticated (state (world q)) = true)
               /\ paneSynced q /\ controls (dom q) = controls (dom p)
               /\ isLoading (world q) = isLoading (world p)).
  { subst q. destruct (isAuthenticated (state (world p))) eqn:Ha.
    - destruct (closeArtifactPane_parts (onWorld (withState defaultState) p))
        as (H1 & H2 & H3).
      split; [now left|]. split; [exact H2|]. split; [exact H3|].
      now rewrite world_closeArtifactPane.
    - destruct (chats (state (world p))) eqn:E.
      + match goal with |- context [handleNewChat ?x] =>
          destruct (handleNewChat_parts x) as (H1 & H2 & H3) end.
        split; [now left|]. split; [exact H2|]. split; [exact H3|].
        now rewrite world_handleNewChat.
      + split; [now right|]. split; [|split; reflexivity].
        revert Hp. now apply paneSynced_ext. }
  destruct Hq as (Hq1 & Hq2 & Hq3 & Hq4).
  rewrite world_renderApp in Hw', Hst.
  rewrite (proj1 (ControllerFacts.renderApp_frame _)) in Hw'.
  apply renderApp_synced.
  - exact Hw'.
  - cbn [saveState world onWorld Controller.saveState withStorage localStorage].
    now apply (storedWell_serialized (world q)).
  - destruct Hq1 as [Hq1|Hq1]; [left|right; exact Hq1].
    revert Hq1. now apply tabsSynced_ext.
  - revert Hq2. now apply paneSynced_ext.
  - cbn [saveState dom onWorld]. injection Hq3 as _ _ _ -> _ _. exact Happ.
  - revert Hl. apply loadingSynced_ext; [exact Hq3 | exact Hq4].
Qed.

Lemma closeArtifactPane_synced (p : Page) :
  wellFormed (state (world p)) -> signSynced p -> loadingSynced p ->
  synced (closeArtifactPane p).
Proof.
  intros Hw Hsign Hl. destruct (closeArtifactPane_parts p) as (H1 & H2 & H3).
  unfold synced. rewrite world_closeArtifactPane.
  split; [exact Hw|]. split.
  { now apply (storedWell_serialized (Controller.closeArtifactPane (world p))). }
  split; [exact H1|]. split; [|split; [|exact H2]].
  - revert Hsign. apply signSynced_ext; [exact H3 | now rewrite world_closeArtifactPane].
  - revert Hl. apply loadingSynced_ext; [exact H3 | now rewrite world_closeArtifactPane].
Qed.

Lemma handleNewChat_synced (p : Page) :
  synced p -> synced (handleNewChat p).
Proof.
  intros (Hw & _ & _ & Hsign & Hl & _). unfold handleNewChat.
  apply closeArtifactPane_synced.
  - apply (handleNewChat_well (world p) Hw).
  - revert Hsign. now apply signSynced_ext.
  - revert Hl. now apply loadingSynced_ext.
Qed.

Lemma handleTabSwitch_synced (chatId : Z) (p : Page) :
  In chatId (map fst (entries (state (world p)))) ->
  synced p -> synced (handleTabSwitch chatId p).
Proof.
  intros Hin Hs. pose proof Hs as (Hw & _ & _ & Hsign & Hl & _).
  pose proof (handleTabSwitch_well chatId (world p) Hin Hw) as Hw'.
  unfold handleTabSwitch. unfold Controller.handleTabSwitch in Hw'.
  destruct (sameId (activeChatId (state (world p))) chatId); [exact Hs|].
  apply closeArtifactPane_synced; [exact Hw'| |].
  - revert Hsign. now apply signSynced_ext.
  - revert Hl. now apply loadingSynced_ext.
Qed.

Lemma handleArtifactView_synced (index : nat) (p : Page) :
  synced p -> synced (handleArtifactView index p).
Proof.
  intros (Hw & Hs & Ht & Hsign & Hl & _). unfold handleArtifactView.
  match goal with |- context [renderArtifactPane ?q] =>
    pose proof (renderArtifactPane_pane q) as Hp;
    destruct (renderArtifactPane_frame q) as (F0 & F1 & F2)
  end.
  unfold synced. rewrite F0. split; [exact Hw|]. split; [exact Hs|].
  split; [|split; [|split; [|exact Hp]]].
  - revert Ht. apply tabsSynced_ext; rewrite ?F0, ?F1; reflexivity.
  - revert Hsign. apply signSynced_ext; rewrite ?F0, ?F2; reflexivity.
  - revert Hl. apply loadingSynced_ext; rewrite ?F0, ?F2; reflexivity.
Qed.

Lemma updateUIForLoading_synced (w : World) (p : Page) :
  wellFormed (state w) -> storedWell (localStorage w) ->
  entries (state w) = entries (state (world p)) ->
  activeChatId (state w) = activeChatId (state (world p)) ->
  isAuthenticated (state w) = isAuthenticated (state (world p)) ->
  activeArtifactMessageIndex w = activeArtifactMessageIndex (world p) ->
  synced p ->
  synced (updateUIForLoading (mkPage w (dom p))).
Proof.
  intros Hw Hs He Ha Hauth Hidx (_ & _ & Ht & Hsign & _ & Hp).
  unfold synced. split; [exact Hw|]. split; [exact Hs|].
  split; [|split; [|split]].
  - revert Ht. now apply tabsSynced_ext.
  - unfold signSynced in *. cbn. rewrite Hauth. exact Hsign.
  - unfold loadingSynced. cbn. split; reflexivity.
  - revert Hp. now apply paneSynced_ext.
Qed.

Lemma handleSearchBegin_index (w : World) :
  activeArtifactMessageIndex (snd (Controller.handleSearchBegin w))
  = activeArtifactMessageIndex w.
Proof.
  unfold Controller.handleSearchBegin.
  destruct (Js.isEmpty (Js.trim (searchInput w)) || isLoading w
            || noActiveChat (activeChatId (state w))); [reflexivity|].
  cbn [state withLoading].
  destruct (findChat (chats (state w)) (activeChatId (state w))); reflexivity.
Qed.

Lemma handleSearchBegin_synced (p : Page) :
  synced p -> synced (snd (handleSearchBegin p)).
Proof.
  intros Hs. pose proof Hs as (Hw & Hst & _).
  destruct (handleSearchBegin_entries (world p)) as (H1 & H2 & H3 & H4).
  pose proof (handleSearchBegin_well (world p) Hw) as Hw'.
  pose proof (handleSearchBegin_storedWell (world p) Hw Hst) as Hst'.
  pose proof (handleSearchBegin_index (world p)) as Hi.
  unfold handleSearchBegin.
  destruct (Controller.handleSearchBegin (world p)) as [[|f|e] w]; cbn [snd] in *;
    [exact Hs | |]; now apply updateUIForLoading_synced.
Qed.

Lemma writeMessage_index (l : loc) (g : Message -> Message) (w : World) :
  activeArtifactMessageIndex (writeMessage l g w) = activeArtifactMessageIndex w.
Proof. unfold writeMessage. destruct (store w !! l); reflexivity. Qed.

Lemma handleSearchEnd_index (f : Frame) (settled : Outcome unit) (left : Message)
      (w : World) :
  activeArtifactMessageIndex (Controller.handleSearchEnd f settled left w)
  = activeArtifactMessageIndex w.
Proof.
  unfold Controller.handleSearchEnd.
  cbn [activeArtifactMessageIndex Controller.saveState withStorage
       Controller.renderChatHistory withView withLoading].
  destruct settled; cbn [activeArtifactMessageIndex withInFlight];
    rewrite ?writeMessage_index; cbn [activeArtifactMessageIndex withInFlight];
    rewrite ?writeMessage_index; reflexivity.
Qed.

Lemma handleSearchEnd_synced (f : Frame) (settled : Outcome unit) (left : Message)
      (p : Page) :
  synced p -> synced (handleSearchEnd f settled left p).
Proof.
  intros Hs. pose proof Hs as (Hw & _).
  destruct (SettleFacts.handleSearchEnd_settled f settled left (world p))
    as (_ & Hst & _ & Hstate).
  unfold handleSearchEnd, onWorld. apply updateUIForLoading_synced;
    rewrite ?Hstate; try reflexivity; try assumption.
  - apply (storedWell_serialized _ _ Hst). now rewrite Hstate.
  - apply handleSearchEnd_index.
Qed.

Lemma load_synced (storage : option string) :
  storedWell storage -> synced (load storage).
Proof.
  intros Hs. unfold load, domContentLoaded. cbn [truthy Js.isEmpty].
  destruct (loadState_well storage Hs) as (w & Hl & Hw). rewrite Hl.
  destruct (PersistFacts.loadState_frame _ _ Hl) as (H1 & H2 & H3).
  apply renderApp_synced; cbn [world dom].
  - exact Hw.
  - now rewrite H3.
  - unfold tabsSynced. cbn. destruct (isAuthenticated (state w)); [now right | now left].
  - reflexivity.
  - discriminate.
  - split; [reflexivity|]. cbn. exact H1.
Qed.

Lemma step_synced (p : Page) (ev : Event) :
  synced p -> synced (step p ev).
Proof.
  intros Hs. unfold step. destruct (enabled p ev) eqn:He; [|exact Hs].
  pose proof Hs as (Hw & Hst & Ht & Hsign & Hl & Hp).
  pose proof (enabled_grounded p ev Ht He) as Hg.
  destruct ev as [t| |n e| | | |chatId|index|]; cbn [fire].
  - unfold synced. cbn. repeat split; try assumption; apply Hs.
  - now apply handleSearchBegin_synced.
  - destruct (inFlight (world p) !! n) as [f|]; [|exact Hs].
    destruct (runHandler f e (world p)) as [[[]|err|] st]; [| |exact Hs];
      now apply handleSearchEnd_synced.
  - now apply load_synced.
  - now apply handleAuthClick_synced.
  - now apply handleNewChat_synced.
  - now apply handleTabSwitch_synced.
  - now apply handleArtifactView_synced.
  - now apply closeArtifactPane_synced.
Qed.

Lemma run_synced (evs : list Event) :
  forall p, synced p -> synced (run p evs).
Proof.
  induction evs as [|ev evs IH]; intros p H; [exact H|].
  cbn [run fold_left]. apply IH. now apply step_synced.
Qed.

Lemma boot_synced : synced boot.
Proof. apply load_synced. intros text [=]. Qed.

End SyncedFacts.

(** ** What the page shows of the session *)
Module PageTheorems.
Import Model Handlers Controller Session Page Synced SessionFacts PageFacts SyncedFacts.

Lemma find_entry (cs : list Chat) (i : Z) :
  In i (map fst (map (fun c => (id c, title c)) cs)) ->
  exists chat, List.find (fun c => id c =? i) cs = Some chat /\ In chat cs /\ id chat = i.
Proof.
  induction cs as [|c cs IH]; [intros []|].
  cbn [map fst List.find In]. intros [H|H].
  - exists c. rewrite H, Z.eqb_refl. auto.
  - destruct (id c =? i) eqn:E.
    + exists c. apply Z.eqb_eq in E. auto.
    + destruct (IH H) as (chat & H1 & H2 & H3). exists chat. auto.
Qed.

Lemma wellFormed_active (s : AppState) :
  wellFormed s -> isAuthenticated s = true ->
  exists chat,
    findChat (chats s) (activeChatId s) = Some chat
    /\ In chat (chats s)
    /\ activeChatId s = Some (id chat)
    /\ 1 <= id chat.
Proof.
  intros (Hn & Hall & Hnd & Hact & Hauth) Ha. specialize (Hauth Ha).
  destruct (activeChatId s) as [i|]; [|contradiction].
  destruct (find_entry _ _ Hact) as (chat & H1 & H2 & H3). exists chat.
  cbn [findChat]. repeat split; try assumption; [now rewrite H3|].
  rewrite List.Forall_forall in Hall.
  specialize (Hall (id chat, title chat)). cbn in Hall. apply Hall.
  unfold entries. apply in_map_iff. now exists chat.
Qed.

Lemma wellFormed_never_crashes (w : World) (e : JsError) :
  wellFormed (state w) -> fst (Controller.handleSearchBegin w) <> Crashed e.
Proof.
  intros (Hn & Hall & Hnd & Hact & Hauth). unfold Controller.handleSearchBegin.
  destruct (Js.isEmpty (Js.trim (searchInput w)) || isLoading w
            || noActiveChat (activeChatId (state w))) eqn:G; [discriminate|].
  cbn [state withLoading].
  destruct (activeChatId (state w)) as [i|] eqn:Ea.
  - destruct (find_entry _ _ Hact) as (chat & H1 & _). cbn [findChat]. rewrite H1.
    discriminate.
  - cbn in G. rewrite orb_true_r in G. discriminate.
Qed.

Lemma wellFormed_starts (w : World) :
  wellFormed (state w) ->
  isAuthenticated (state w) = true ->
  isLoading w = false ->
  Js.trim (searchInput w) <> EmptyString ->
  exists f, fst (Controller.handleSearchBegin w) = Started f.
Proof.
  intros Hw Ha Hl Hq. destruct (wellFormed_active _ Hw Ha) as (chat & H1 & _ & H3 & H4).
  unfold Controller.handleSearchBegin. rewrite Hl.
  destruct (Js.trim (searchInput w)) as [|c q] eqn:E; [now elim Hq|].
  assert (Hz : noActiveChat (activeChatId (state w)) = false).
  { rewrite H3. cbn. apply Z.eqb_neq. lia. }
  rewrite Hz. cbn [Js.isEmpty orb].
  cbn [state withLoading]. rewrite H1. eexists. reflexivity.
Qed.

(** X11.  On the page, whatever happens, [find] in [handleSearch] finds
    the active chat: the function never fails on a missing chat.  While
    the user is signed in a chat is active and it is a chat of the
    session; and a submission of a query that is not blank, made while
    signed in with no request pending, reaches its handler. *)
Theorem active_chat_found (evs : list Event) :
  let w := world (run boot evs) in
  (forall e, fst (Controller.handleSearchBegin w) <> Crashed e)
  /\ (isAuthenticated (state w) = true ->
      exists chat,
        findChat (chats (state w)) (activeChatId (state w)) = Some chat
        /\ In chat (chats (state w))
        /\ activeChatId (state w) = Some (id chat))
  /\ (isAuthenticated (state w) = true ->
      isLoading w = false ->
      Js.trim (searchInput w) <> EmptyString ->
      exists f, fst (Controller.handleSearchBegin w) = Started f).
Proof.
  intros w. destruct (run_synced evs boot boot_synced) as (Hw & _).
  fold w in Hw. split; [|split].
  - intros e. now apply wellFormed_never_crashes.
  - intros Ha. destruct (wellFormed_active _ Hw Ha) as (chat & H1 & H2 & H3 & _).
    now exists chat.
  - now apply wellFormed_starts.
Qed.

(** The tabs of a well-formed session: one is active, the others are
    not. *)
Lemma one_active_tab (s : AppState) :
  wellFormed s -> isAuthenticated s = true ->
  exists before t after,
    map (tabOf s) (chats s) = before ++ t :: after
    /\ tabActive t = true
    /\ activeChatId s = Some (opens t)
    /\ Forall (fun t' => tabActive t' = false) (before ++ after).
Proof.
  intros Hw Ha. destruct (wellFormed_active _ Hw Ha) as (chat & _ & Hin & Hact & _).
  destruct Hw as (_ & _ & Hnd & _).
  apply in_split in Hin as (l1 & l2 & Hcs).
  exists (map (tabOf s) l1), (tabOf s chat), (map (tabOf s) l2).
  rewrite Hcs, map_app. cbn [map]. split; [reflexivity|].
  split; [cbn [tabOf tabActive]; rewrite Hact; cbn [sameId]; apply Z.eqb_refl|].
  split; [exact Hact|].
  unfold entries in Hnd. rewrite Hcs, !map_map, map_app in Hnd. cbn [map fst] in Hnd.
  apply NoDup_app in Hnd as (_ & Hdisj & Hnd2).
  apply NoDup_cons in Hnd2 as [Hnot _].
  rewrite <- map_app. apply List.Forall_forall. intros t Ht.
  apply in_map_iff in Ht as (c & <- & Hc). cbn [tabOf tabActive]. rewrite Hact.
  cbn [sameId]. apply Z.eqb_neq. intros Heq. apply in_app_or in Hc as [Hc|Hc].
  - apply (Hdisj (id c)).
    + apply list_elem_of_In, in_map_iff. now exists c.
    + rewrite <- Heq. left.
  - apply Hnot. rewrite Heq. apply list_elem_of_In, in_map_iff. now exists c.
Qed.

(** X12.  While the user is signed in, the tab bar is visible and holds
    one tab per chat, in order, labelled with the title of the chat, which
    is the word Chat and the id; every tab opens its chat; exactly one tab
    is active, that of the active chat. *)
Theorem tabs_show_chats (evs : list Event) :
  let p := run boot evs in
  let s := state (world p) in
  isAuthenticated s = true ->
  tabsHidden (dom p) = Some false
  /\ exists ts,
      tabsContainer (dom p) = Some ts
      /\ map tabText ts = map title (chats s)
      /\ map opens ts = map id (chats s)
      /\ Forall (fun t => tabText t = "Chat " +:+ dataChatId t
                          /\ dataChatId t = Json.numberToString (opens t)) ts
      /\ exists before t after,
          ts = before ++ t :: after
          /\ tabActive t = true
          /\ activeChatId s = Some (opens t)
          /\ Forall (fun t' => tabActive t' = false) (before ++ after).
Proof.
  intros p s Ha.
  destruct (run_synced evs boot boot_synced) as (Hw & _ & Ht & Hsign & _).
  fold p in Hw, Ht, Hsign. fold s in Hw.
  destruct Hsign as (_ & Hh & _). fold s in Hh. rewrite Ha in Hh.
  split; [exact Hh|].
  unfold tabsSynced in Ht. fold s in Ht.
  destruct (tabsContainer (dom p)) as [ts|]; [|congruence].
  exists ts. split; [reflexivity|]. subst ts.
  split; [now rewrite map_map|]. split; [now rewrite map_map|].
  split; [|now apply one_active_tab].
  apply List.Forall_forall. intros t Hin. apply in_map_iff in Hin as (c & <- & Hc).
  cbn [tabOf tabText dataChatId opens]. split; [|reflexivity].
  destruct Hw as (_ & Hall & _). rewrite List.Forall_forall in Hall.
  apply (Hall (id c, title c)). unfold entries. apply in_map_iff. now exists c.
Qed.

(** X13.  The controls follow the session: the label of the button and the
    visibility of the tab bar and of the search form show whether the user
    is signed in, the application is never left hidden, and the search box
    and its button are disabled exactly while a request is pending. *)
Theorem controls_follow_state (evs : list Event) :
  let p := run boot evs in
  let auth := isAuthenticated (state (world p)) in
  authButtonText (dom p) = Some (if auth then "Sign Out" else "Sign In")
  /\ tabsHidden (dom p) = Some (negb auth)
  /\ searchFormHidden (dom p) = Some (negb auth)
  /\ appHidden (dom p) <> Some true
  /\ searchInputDisabled (dom p) = searchButtonDisabled (dom p)
  /\ (isLoading (world p) = true -> searchButtonDisabled (dom p) = Some true)
  /\ (isLoading (world p) = false ->
      searchButtonDisabled (dom p) = None \/ searchButtonDisabled (dom p) = Some false).
Proof.
  intros p auth.
  destruct (run_synced evs boot boot_synced) as (_ & _ & _ & Hsign & Hl & _).
  fold p in Hsign, Hl. destruct Hsign as (H1 & H2 & H3 & H4). destruct Hl as (H5 & H6).
  repeat split; try assumption.
  - intros Hld. destruct (searchButtonDisabled (dom p)); congruence.
  - intros Hld. destruct (searchButtonDisabled (dom p)); [right|left]; congruence.
Qed.

(** X14.  What the page stores always loads: whatever has happened on
    the page, a load over its storage with the key configured parses the
    stored text, finds a session in it and renders; and without a key the
    listener shows the configuration error and does nothing else. *)
Theorem storage_always_loads (evs : list Event) (c : ascii) (key : string) :
  (exists w,
      loadState (freshPage (localStorage (world (run boot evs)))) = inl w
      /\ domContentLoaded (Some (String c key)) (localStorage (world (run boot evs)))
         = Running (renderApp (mkPage w asLoaded))
      /\ wellFormed (state w))
  /\ domContentLoaded None (localStorage (world (run boot evs))) = ConfigurationError
  /\ domContentLoaded (Some EmptyString) (localStorage (world (run boot evs)))
     = ConfigurationError.
Proof.
  destruct (run_synced evs boot boot_synced) as (_ & Hs & _).
  destruct (loadState_well _ Hs) as (w & Hl & Hw).
  split; [|split; reflexivity].
  exists w. split; [exact Hl|]. split; [|exact Hw].
  unfold domContentLoaded. cbn [truthy Js.isEmpty]. now rewrite Hl.
Qed.

End PageTheorems.

(** ** The artifact pane *)
Module PaneFacts.
Import Model Handlers Controller Session Page Synced SessionFacts PageFacts SyncedFacts.

Lemma artifactButton_markActive (a : option nat) (i : nat) (b : Bubble) :
  artifactButton (markActive a i b) = artifactButton b.
Proof. unfold markActive. destruct a as [n|]; [|reflexivity]. destruct (n =? i)%nat; reflexivity. Qed.

Lemma artifactButton_bubbleOf (a : option nat) (i : nat) (m : Message) :
  artifactButton (bubbleOf a i m) = true -> exists c, code m = Some c.
Proof.
  unfold bubbleOf. rewrite artifactButton_markActive.
  destruct (role m); cbn; [discriminate|].
  destruct (code m) as [c|]; [intros _; now exists c | discriminate].
Qed.

Lemma renderedHistory_bubbles (w : World) (bs : list Bubble) :
  renderedHistory w = Bubbles bs ->
  exists chat,
    findChat (chats (state w)) (activeChatId (state w)) = Some chat
    /\ bs = imap (bubbleOf (activeArtifactMessageIndex w))
                 (messagesOf (store w) (history chat)).
Proof.
  unfold renderedHistory.
  destruct (findChat (chats (state w)) (activeChatId (state w))) as [chat|]; [|discriminate].
  destruct (messagesOf (store w) (history chat)) as [|m ms] eqn:E; [discriminate|].
  intros [= <-]. exists chat. split; [reflexivity|]. now rewrite E.
Qed.

(** A bubble of the rendered history stands at the index of its
    message. *)
Lemma renderedHistory_lookup (w : World) (bs : list Bubble) (index : nat) (b : Bubble) :
  renderedHistory w = Bubbles bs ->
  bs !! index = Some b ->
  exists chat message,
    findChat (chats (state w)) (activeChatId (state w)) = Some chat
    /\ messagesOf (store w) (history chat) !! index = Some message
    /\ b = bubbleOf (activeArtifactMessageIndex w) index message.
Proof.
  intros Hr Hb. destruct (renderedHistory_bubbles _ _ Hr) as (chat & Hf & ->).
  exists chat. rewrite list_lookup_imap in Hb.
  destruct (messagesOf (store w) (history chat) !! index) as [message|]; [|discriminate].
  cbn in Hb. injection Hb as <-. exists message. auto.
Qed.

Lemma activeArtifact_bubbleOf (a : option nat) (i : nat) (m : Message) :
  activeArtifact (bubbleOf a i m) = match a with Some n => (n =? i)%nat | None => false end.
Proof.
  unfold bubbleOf, markActive. destruct a as [n|].
  - destruct (n =? i)%nat; [reflexivity|]. destruct (role m); reflexivity.
  - destruct (role m); reflexivity.
Qed.

(** X15.  The artifact pane.  A click on the artifact button of a
    bubble of the rendered history opens the pane on the code of the
    message at that index: the frame gets the document made of its css,
    html and javascript, the pane is shown, and the bubble at that index,
    and no other, is marked.  Closing the pane, opening a new chat and
    switching to another tab hide the pane and forget the index.  And on
    the page the pane is never open without an index chosen and a
    document in the frame. *)
Theorem artifact_pane_opens_and_closes :
  (forall p index,
      chatContainer (world p) = renderedHistory (world p) ->
      enabled p (ArtifactView index) = true ->
      exists chat message c,
        findChat (chats (state (world p))) (activeChatId (state (world p))) = Some chat
        /\ messagesOf (store (world p)) (history chat) !! index = Some message
        /\ code message = Some c
        /\ srcdoc (dom (handleArtifactView index p)) = Some (artifactDoc c)
        /\ artifactHidden (dom (handleArtifactView index p)) = Some false
        /\ artifactVisible (dom (handleArtifactView index p)) = Some true
        /\ exists bs,
            chatContainer (world (handleArtifactView index p)) = Bubbles bs
            /\ forall i b, bs !! i = Some b ->
                           activeArtifact b = (index =? i)%nat)
  /\ (forall p,
         artifactHidden (dom (closeArtifactPane p)) = Some true
         /\ artifactVisible (dom (closeArtifactPane p)) = Some false
         /\ activeArtifactMessageIndex (world (closeArtifactPane p)) = None)
  /\ (forall p,
         artifactHidden (dom (handleNewChat p)) = Some true
         /\ activeArtifactMessageIndex (world (handleNewChat p)) = None)
  /\ (forall p chatId,
         sameId (activeChatId (state (world p))) chatId = false ->
         artifactHidden (dom (handleTabSwitch chatId p)) = Some true
         /\ activeArtifactMessageIndex (world (handleTabSwitch chatId p)) = None)
  /\ (forall evs,
         artifactHidden (dom (run boot evs)) = Some false ->
         activeArtifactMessageIndex (world (run boot evs)) <> None
         /\ artifactVisible (dom (run boot evs)) = Some true
         /\ exists c, srcdoc (dom (run boot evs)) = Some (artifactDoc c)).
Proof.
  split; [|split; [|split; [|split]]].
  - intros p index Hview He. cbn [enabled] in He. rewrite Hview in He.
    destruct (renderedHistory (world p)) as [| | |bs] eqn:Hr; try discriminate.
    destruct (bs !! index) as [b|] eqn:Hb; [|discriminate].
    destruct (renderedHistory_lookup _ _ _ _ Hr Hb) as (chat & message & Hf & Hm & ->).
    destruct (artifactButton_bubbleOf _ _ _ He) as [c Hc].
    exists chat, message, c. split; [exact Hf|]. split; [exact Hm|]. split; [exact Hc|].
    unfold handleArtifactView, renderArtifactPane.
    assert (Ha : artifactOf (world (renderChatHistory (onWorld (withArtifact (Some index)) p)))
                 = Some c).
    { unfold artifactOf. cbn. rewrite Hf, Hm. exact Hc. }
    rewrite Ha. cbn [dom onDom srcdoc artifactHidden artifactVisible setArtifactVisible
                     setArtifactHidden setSrcdoc world].
    split; [reflexivity|]. split; [reflexivity|]. split; [reflexivity|].
    cbn [renderChatHistory onWorld world Controller.renderChatHistory chatContainer withView].
    unfold renderedHistory. cbn [state store withArtifact activeArtifactMessageIndex].
    rewrite Hf.
    exists (imap (bubbleOf (Some index)) (messagesOf (store (world p)) (history chat))).
    split.
    { destruct (messagesOf (store (world p)) (history chat)) as [|m ms] eqn:E;
        [rewrite lookup_nil in Hm; discriminate | reflexivity]. }
    intros i b Hi. rewrite list_lookup_imap in Hi.
    destruct (messagesOf (store (world p)) (history chat) !! i) as [mi|]; [|discriminate].
    change (Some (bubbleOf (Some index) i mi) = Some b) in Hi. injection Hi as <-.
    apply (activeArtifact_bubbleOf (Some index)).
  - intros p. destruct (closeArtifactPane_parts p) as (_ & Hp & _).
    rewrite world_closeArtifactPane. unfold closeArtifactPane, renderArtifactPane.
    rewrite artifactOf_closed by reflexivity. repeat split.
  - intros p. unfold handleNewChat. rewrite world_closeArtifactPane.
    unfold closeArtifactPane, renderArtifactPane.
    rewrite artifactOf_closed by reflexivity. repeat split.
  - intros p chatId Hne. unfold handleTabSwitch. rewrite Hne, world_closeArtifactPane.
    unfold closeArtifactPane, renderArtifactPane.
    rewrite artifactOf_closed by reflexivity. repeat split.
  - intros evs Hopen.
    destruct (run_synced evs boot boot_synced) as (_ & _ & _ & _ & _ & Hp).
    unfold paneSynced in Hp. rewrite Hopen in Hp. destruct Hp as (H1 & H2).
    destruct (H2 eq_refl) as (H3 & H4). auto.
Qed.

End PaneFacts.

(** ** Reloading the page *)
Module ReloadFacts.
Import Model Handlers Controller Reloads.

Lemma pageLoad_saved (w w0 : World) :
  localStorage w = Some (serialized w0) ->
  sessionOf (pageLoad (localStorage w)) = sessionOf w0.
Proof.
  intros H. unfold pageLoad.
  destruct (PersistFacts.loadState_serialized (store w0) (state w0)
              (freshPage (localStorage w))) as (w' & Hl & Hv).
  { rewrite H. reflexivity. }
  rewrite Hl. unfold sessionOf.
  destruct (ControllerFacts.renderApp_frame w') as (-> & _ & _ & ->). exact Hv.
Qed.

Lemma restored_saved (w : World) :
  localStorage w = Some (serialized w) -> restored w.
Proof. intros H. unfold restored. now apply pageLoad_saved. Qed.

Lemma restored_ext (w w' : World) :
  localStorage w' = localStorage w -> store w' = store w -> state w' = state w ->
  restored w -> restored w'.
Proof. unfold restored, sessionOf. intros -> -> ->. trivial. Qed.

Lemma begun (w : World) :
  snd (handleSearchBegin w) = w
  \/ (inFlight (snd (handleSearchBegin w)) <> [])
  \/ (localStorage (snd (handleSearchBegin w)) = localStorage w
      /\ store (snd (handleSearchBegin w)) = store w
      /\ state (snd (handleSearchBegin w)) = state w
      /\ inFlight (snd (handleSearchBegin w)) = inFlight w).
Proof.
  unfold handleSearchBegin.
  destruct (Js.isEmpty (Js.trim (searchInput w)) || isLoading w
            || noActiveChat (activeChatId (state w))); [now left|].
  cbn [state withLoading].
  destruct (findChat (chats (state w)) (activeChatId (state w))) as [c|].
  - right. left. cbn. destruct (inFlight w); discriminate.
  - right. right. repeat split.
Qed.

Lemma step_restored (w : World) (ev : Event) :
  (inFlight w = [] -> restored w) ->
  (inFlight (step w ev) = [] -> restored (step w ev)).
Proof.
  intros H. destruct ev; cbn [step].
  - intros Hi. revert H. cbn in Hi. intros H. specialize (H Hi). revert H.
    now apply restored_ext.
  - destruct (begun w) as [-> | [Hb | (H1 & H2 & H3 & H4)]]; [exact H | now intros | ].
    rewrite H4. intros Hi. specialize (H Hi). revert H. now apply restored_ext.
  - destruct (inFlight w !! n) as [f|]; [|exact H].
    destruct (runHandler f e w) as [[[]|err|] st]; [| |exact H]; intros _;
      apply restored_saved; apply SettleFacts.handleSearchEnd_settled.
  - intros _. unfold restored.
    now rewrite (proj2 (proj2 (ControllerFacts.pageLoad_idle (localStorage w)))).
  - intros _. apply restored_saved. apply SessionFacts.handleAuthClick_storage.
  - intros _. now apply restored_saved.
  - unfold handleTabSwitch. destruct (sameId (activeChatId (state w)) chatId); [exact H|].
    intros _. now apply restored_saved.
  - intros Hi. cbn in Hi. specialize (H Hi). revert H. now apply restored_ext.
  - intros _. now apply restored_saved.
Qed.

Lemma run_restored (evs : list Event) :
  forall w, (inFlight w = [] -> restored w) ->
            (inFlight (run w evs) = [] -> restored (run w evs)).
Proof.
  induction evs as [|ev evs IH]; intros w H; [exact H|].
  cbn [run fold_left]. apply IH. now apply step_restored.
Qed.

(** X16.  With no request pending, a reload gives back the session:
    the same chats with the same messages, the same active chat, the same
    counter and the same sign-in state, with the loading flag clear and
    the storage as it was. *)
Theorem reload_restores_session (evs : list Event) :
  isLoading (run boot evs) = false ->
  sessionOf (step (run boot evs) Reload) = sessionOf (run boot evs)
  /\ isLoading (step (run boot evs) Reload) = false
  /\ localStorage (step (run boot evs) Reload) = localStorage (run boot evs).
Proof.
  intros Hl.
  destruct (ControllerFacts.run_oneInFlight evs boot ControllerFacts.boot_oneInFlight)
    as [Hidle _].
  specialize (Hidle Hl). cbn [step].
  destruct (ControllerFacts.pageLoad_idle (localStorage (run boot evs))) as (H1 & _ & H3).
  split; [|split; assumption].
  apply (run_restored evs boot); [|exact Hidle].
  intros _. reflexivity.
Qed.

End ReloadFacts.

(** ** The chat container *)
Module ShownFacts.
Import Model Handlers Controller Reloads.

Lemma renderChatHistory_shown (w : World) :
  chatContainer (renderChatHistory w) = renderedHistory (renderChatHistory w).
Proof. reflexivity. Qed.

Lemma renderApp_shown (w : World) : shown (renderApp w).
Proof.
  unfold shown, renderApp. destruct (isAuthenticated (state w)) eqn:E.
  - intros _ _. reflexivity.
  - cbn. rewrite E. discriminate.
Qed.

Lemma handleSearchBegin_shown (w : World) :
  shown w -> shown (snd (handleSearchBegin w)).
Proof.
  intros H. unfold handleSearchBegin.
  destruct (Js.isEmpty (Js.trim (searchInput w)) || isLoading w
            || noActiveChat (activeChatId (state w))); [exact H|].
  cbn [state withLoading].
  destruct (findChat (chats (state w)) (activeChatId (state w))) as [c|];
    intros _; cbn; discriminate.
Qed.

Lemma step_shown (w : World) (ev : Event) : shown w -> shown (step w ev).
Proof.
  intros H. destruct ev; cbn [step].
  - exact H.
  - now apply handleSearchBegin_shown.
  - destruct (inFlight w !! n) as [f|]; [|exact H].
    destruct (runHandler f e w) as [[[]|err|] st]; [| |exact H]; intros _ _;
      apply SettleFacts.handleSearchEnd_settled.
  - unfold pageLoad. destruct (loadState (freshPage (localStorage w))) as [w'|err].
    + apply renderApp_shown.
    + intros Ha. discriminate Ha.
  - apply renderApp_shown.
  - intros _ _. reflexivity.
  - unfold handleTabSwitch. destruct (sameId (activeChatId (state w)) chatId); [exact H|].
    intros _ _. reflexivity.
  - intros _ _. reflexivity.
  - intros _ _. reflexivity.
Qed.

Lemma run_shown (evs : list Event) : forall w, shown w -> shown (run w evs).
Proof.
  induction evs as [|ev evs IH]; intros w H; [exact H|].
  cbn [run fold_left]. apply IH. now apply step_shown.
Qed.

Lemma length_imap {A B} (f : nat -> A -> B) (l : list A) : length (imap f l) = length l.
Proof. revert f. induction l as [|a l IH]; intros f; [reflexivity|]. cbn. now rewrite IH. Qed.

(** X17.  While the user is signed in and no request is pending, the
    chat container shows the active chat as the session has it: the
    welcome screen when the chat has no message, and otherwise one bubble
    per message, in order, a user bubble holding the text of a user
    message, and the artifact button on the bubbles of the answers that
    have code, and on no other. *)
Theorem chat_view_shows_active_chat (evs : list Event) :
  isAuthenticated (state (run boot evs)) = true ->
  isLoading (run boot evs) = false ->
  chatContainer (run boot evs) = renderedHistory (run boot evs)
  /\ forall chat,
      findChat (chats (state (run boot evs))) (activeChatId (state (run boot evs)))
      = Some chat ->
      match messagesOf (store (run boot evs)) (history chat) with
      | [] => chatContainer (run boot evs) = Welcome
      | ms =>
          exists bs,
            chatContainer (run boot evs) = Bubbles bs
            /\ length bs = length ms
            /\ forall i m b, ms !! i = Some m -> bs !! i = Some b ->
                 ofUser b = match role m with User => true | Assistant => false end
                 /\ (role m = User -> content b = text m)
                 /\ artifactButton b
                    = match role m, code m with Assistant, Some _ => true | _, _ => false end
      end.
Proof.
  intros Ha Hl. pose proof (run_shown evs boot (renderApp_shown _) Ha Hl) as Hs.
  split; [exact Hs|]. intros chat Hf. rewrite Hs. unfold renderedHistory. rewrite Hf.
  destruct (messagesOf (store (run boot evs)) (history chat)) as [|m0 ms] eqn:E;
    [reflexivity|].
  eexists. split; [reflexivity|]. split; [apply length_imap|].
  intros i m b Hm Hb. rewrite list_lookup_imap, Hm in Hb.
  change (Some (bubbleOf (activeArtifactMessageIndex (run boot evs)) i m) = Some b) in Hb.
  injection Hb as <-. unfold bubbleOf, markActive.
  destruct (activeArtifactMessageIndex (run boot evs)) as [a|];
    [destruct (a =? i)%nat|]; destruct (role m); cbn; repeat split;
    try discriminate; try reflexivity; destruct (code m); reflexivity.
Qed.

End ShownFacts.

(** ** Signing out *)
Module SignOutFacts.
Import Model Handlers Controller Reloads ReloadFacts.

Lemma sessionOf_default (w : World) :
  sessionOf w = Codec.stateValue [] defaultState -> state w = defaultState.
Proof.
  unfold sessionOf, Codec.stateValue. destruct (state w) as [a cs act n]. cbn.
  intros [= -> Hcs -> ->]. destruct cs; [reflexivity | discriminate].
Qed.

(** X18.  Signing out leaves no chat behind: the state is the initial
    one, the artifact index is cleared, the chat container shows the
    sign-in prompt, what is stored is the serialisation of the initial
    state whatever the session held, and a reload from there gives the
    initial state and the sign-in prompt again. *)
Theorem sign_out_forgets_session (w : World) :
  isAuthenticated (state w) = true ->
  state (handleAuthClick w) = defaultState
  /\ activeArtifactMessageIndex (handleAuthClick w) = None
  /\ chatContainer (handleAuthClick w) = SignInPrompt
  /\ localStorage (handleAuthClick w)
     = Some (Json.stringify (Codec.encodeState [] defaultState))
  /\ state (step (handleAuthClick w) Reload) = defaultState
  /\ chatContainer (step (handleAuthClick w) Reload) = SignInPrompt.
Proof.
  intros Ha.
  assert (Hs : state (handleAuthClick w) = defaultState).
  { rewrite ChatIdFacts.handleAuthClick_state, Ha. reflexivity. }
  assert (Hst : localStorage (handleAuthClick w)
                = Some (Json.stringify (Codec.encodeState [] defaultState))).
  { rewrite SessionFacts.handleAuthClick_storage. unfold serialized. rewrite Hs. reflexivity. }
  split; [exact Hs|].
  split; [unfold handleAuthClick, renderApp; rewrite Ha; reflexivity|].
  split; [unfold handleAuthClick, renderApp; rewrite Ha; reflexivity|].
  split; [exact Hst|].
  cbn [step]. rewrite Hst. unfold pageLoad.
  destruct (PersistFacts.loadState_serialized [] defaultState
              (freshPage (Some (Json.stringify (Codec.encodeState [] defaultState))))
              eq_refl) as (w' & Hl & Hv).
  rewrite Hl. apply sessionOf_default in Hv.
  unfold renderApp. rewrite Hv. split; [exact Hv | reflexivity].
Qed.

End SignOutFacts.

(** ** An answer and the chat that asked *)
Module MeanwhileFacts.
Import Model Handlers Controller Meanwhile.

Lemma find_app_found {A} (p : A -> bool) (l more : list A) (a : A) :
  List.find p l = Some a -> List.find p (l ++ more) = Some a.
Proof.
  induction l as [|x l IH]; [discriminate|]. cbn [List.find app].
  destruct (p x); [trivial | exact IH].
Qed.

Lemma step_pendingIn (f : Frame) (asked : Z) (store0 : list Message) (h : list loc)
      (w : World) (ev : Event) :
  bystander ev = true ->
  pendingIn f asked store0 h w -> pendingIn f asked store0 h (step w ev).
Proof.
  intros Hb (Hl & Hf & Hs & t & Hc). destruct ev; try discriminate Hb; cbn [step].
  - repeat split; try assumption. now exists t.
  - rewrite (ControllerFacts.handleSearchBegin_dropped w) by (right; now left).
    repeat split; try assumption. now exists t.
  - destruct (ControllerFacts.handleNewChat_frame w) as (H1 & H2 & H3).
    unfold pendingIn. rewrite H1, H2, H3, ChatIdFacts.handleNewChat_state.
    repeat split; try assumption. exists t. cbn [chats findChat] in *.
    now apply find_app_found.
  - destruct (ControllerFacts.handleTabSwitch_frame chatId w) as (H1 & H2 & H3).
    unfold pendingIn. rewrite H1, H2, H3. repeat split; try assumption. exists t.
    unfold handleTabSwitch. destruct (sameId (activeChatId (state w)) chatId); exact Hc.
  - repeat split; try assumption. now exists t.
  - repeat split; try assumption. now exists t.
Qed.

Lemma run_pendingIn (f : Frame) (asked : Z) (store0 : list Message) (h : list loc)
      (evs : list Event) :
  forallb bystander evs = true ->
  forall w, pendingIn f asked store0 h w -> pendingIn f asked store0 h (run w evs).
Proof.
  induction evs as [|ev evs IH]; intros Hb w H; [exact H|].
  cbn [forallb] in Hb. apply andb_true_iff in Hb as [Hev Hb].
  cbn [run fold_left]. apply (IH Hb). now apply step_pendingIn.
Qed.

(** X19.  The answer reaches the chat that asked.  While a request is
    pending the user may type, submit, open chats, switch tabs and look at
    artifacts: the handler still works on the pending message as it was
    created, and when it settles the flag is cleared and the chat that was
    active at the submission ends with the question and the answer,
    whichever chat is active by then. *)
Theorem answer_reaches_asking_chat (w w1 : World) (f : Frame) (asked : Z)
        (evs : list Event) (e : Env) :
  inFlight w = [] ->
  activeChatId (state w) = Some asked ->
  handleSearchBegin w = (Started f, w1) ->
  forallb bystander evs = true ->
  fst (runHandler f e (run w1 evs)) <> Waiting ->
  runHandler f e (run w1 evs) = dispatch (query f) (Scripts.fresh e)
  /\ isLoading (step (run w1 evs) (Settle 0 e)) = false
  /\ inFlight (step (run w1 evs) (Settle 0 e)) = []
  /\ exists chat older,
      findChat (chats (state (step (run w1 evs) (Settle 0 e)))) (Some asked) = Some chat
      /\ messagesOf (store (step (run w1 evs) (Settle 0 e))) (history chat)
         = older ++ [userMessage (query f);
                     settledMessage (fst (dispatch (query f) (Scripts.fresh e)))
                                    (msg (snd (dispatch (query f) (Scripts.fresh e))))].
Proof.
  intros Hidle Hact Hb Hevs Hsettles.
  destruct (SettleFacts.runHandler_started _ _ _ e Hb) as [Hl Hrun].
  destruct (SettleFacts.handleSearchBegin_started _ _ _ Hb)
    as (c & Hfind & _ & Hf & Hstore & Hact1 & Hfind1 & Hload1 & Hfl1).
  pose proof (SettleFacts.findChat_id _ _ _ Hfind) as Hid. rewrite Hact in Hid.
  injection Hid as Hid. rewrite <- Hid in *.
  assert (Hp : pendingIn f asked (store w1)
                 (history c ++ [length (store w); S (length (store w))]) w1).
  { repeat split; [exact Hload1 | now rewrite Hfl1, Hidle |].
    exists (title c). rewrite <- Hact1. exact Hfind1. }
  apply (run_pendingIn _ _ _ _ evs Hevs) in Hp.
  destruct Hp as (Hl2 & Hf2 & Hs2 & t & Hc2).
  set (w2 := run w1 evs) in *.
  assert (Hrun2 : runHandler f e w2 = dispatch (query f) (Scripts.fresh e)).
  { unfold runHandler. rewrite Hs2, Hl. reflexivity. }
  split; [exact Hrun2|]. rewrite Hrun2 in Hsettles.
  cbn [step]. rewrite Hf2. cbn [lookup list_lookup]. rewrite Hrun2.
  destruct (dispatch (query f) (Scripts.fresh e)) as [settled st] eqn:Hd.
  cbn [fst snd] in *.
  assert (Hw3' : match settled with
                 | Waiting => w2
                 | _ => handleSearchEnd f settled (msg st) w2
                 end = handleSearchEnd f settled (msg st) w2).
  { destruct settled; [reflexivity | reflexivity | now elim Hsettles]. }
  rewrite Hw3'.
  destruct (SettleFacts.handleSearchEnd_settled f settled (msg st) w2)
    as (Hld & _ & _ & Hstate).
  split; [exact Hld|]. split.
  { unfold handleSearchEnd.
    cbn [inFlight saveState withStorage renderChatHistory withView withLoading].
    destruct settled; cbn [inFlight withInFlight];
      rewrite ?(proj1 (proj2 (proj2 (ControllerFacts.writeMessage_frame _ _ _))));
      cbn [inFlight withInFlight];
      rewrite ?(proj1 (proj2 (proj2 (ControllerFacts.writeMessage_frame _ _ _)))), Hf2;
      cbn; rewrite Nat.eqb_refl; reflexivity. }
  rewrite Hstate, Hc2. eexists. eexists. split; [reflexivity|].
  cbn [history]. unfold messagesOf. rewrite omap_app. f_equal.
  assert (Hl2' : store w2 !! modelMessage f = Some emptyModelMessage) by now rewrite Hs2.
  rewrite (SettleFacts.store_handleSearchEnd _ _ _ _ _ Hl2').
  fold (settledMessage settled (msg st)).
  rewrite Hs2, Hf, Hstore. cbn [modelMessage query omap list_omap].
  assert (Hlen : (S (length (store w))
                  < length (store w ++ [userMessage (Js.trim (searchInput w)); emptyModelMessage]))%nat).
  { rewrite length_app. cbn. lia. }
  rewrite list_lookup_insert_ne by lia.
  rewrite (list_lookup_insert_eq _ _ _ Hlen).
  rewrite (list_lookup_middle (store w) [emptyModelMessage] _ _ eq_refl).
  reflexivity.
Qed.

End MeanwhileFacts.

(** ** A reload while a request is pending *)
Module PendingFacts.
Import Model Handlers Controller Reloads ReloadFacts.




End PendingFacts.

(** ** A stream that breaks off *)
Module BrokenStreamFacts.
Import Model Handlers Controller Outcomes StreamFacts.

Lemma sourcesAfter_fields (cs : list Chunk) :
  forall m,
    sourcesAfter cs m
    = mkMessage (role m) (text m) (image m) (video m)
                (match lastNonEmpty cs with Some l => Some l | None => sources m end)
                (code m).
Proof.
  induction cs as [|chunk cs IH]; intros m; [destruct m; reflexivity|].
  unfold sourcesAfter. cbn [fold_left lastNonEmpty].
  fold (sourcesAfter cs (takeSources chunk m)). rewrite IH.
  destruct (lastNonEmpty cs); unfold takeSources;
    destruct (groundingChunks chunk) as [[|c0 l0]|]; reflexivity.
Qed.

(** X21.  A stream that breaks off.  When the stream of a code or
    search request fails after some increments, the handler throws, having
    shown the renderings of what had arrived; [handleSearch] returns all
    the same, with the flag clear, and the answer in the chat is the
    apology: none of the text received stays in the message, no code is
    extracted, and for a search the message keeps the citations of the
    last increment that had any. *)
Theorem broken_stream_leaves_apology (w w1 : World) (f : Frame) (e : Env)
        (stream : Stream) (rest : list (Reply Stream)) (err : JsError) :
  handleSearchBegin w = (Started f, w1) ->
  generateContentStream e = Resolve stream :: rest ->
  ending stream = StreamFails err ->
  Classifier.classify (query f) = Classifier.Code
  \/ Classifier.classify (query f) = Classifier.TextSearch ->
  exists w3 chat older,
    handleSearch e w = (Returned tt, w3)
    /\ isLoading w3 = false
    /\ findChat (chats (state w3)) (activeChatId (state w3)) = Some chat
    /\ messagesOf (store w3) (history chat)
       = older ++ [userMessage (query f);
                   mkMessage Assistant apology None None
                             (match Classifier.classify (query f) with
                              | Classifier.TextSearch => lastNonEmpty (chunks stream)
                              | _ => None
                              end) None]
    /\ fst (runHandler f e w1) = Threw err
    /\ effects (snd (runHandler f e w1))
       = CallGenerateContentStream
           (match Classifier.classify (query f) with
            | Classifier.TextSearch => "gemini-2.5-flash"
            | _ => "gemini-2.5-pro"
            end) (query f)
           :: rendersOf EmptyString (textsOf (chunks stream)).
Proof.
  intros Hb Hs He Hc.
  destruct (SettleFacts.runHandler_started _ _ _ e Hb) as [_ Hrun].
  unfold dispatch in Hrun.
  destruct Hc as [Hc|Hc]; rewrite Hc in *.
  - rewrite (handleCodeGeneration_stream _ (mkHState emptyModelMessage e []) stream rest Hs)
      in Hrun.
    cbn zeta in Hrun. rewrite He in Hrun. cbn [msg env effects app] in Hrun.
    destruct (SettleFacts.handleSearch_last_message _ _ _ _ _ _ Hb Hrun)
      as (chat & older & H1 & H2).
    eexists. exists chat, older. split.
    { unfold handleSearch. rewrite Hb, Hrun. reflexivity. }
    split; [apply SettleFacts.handleSearchEnd_settled|]. split; [exact H1|].
    split; [exact H2|]. now rewrite Hrun.
  - rewrite (handleTextSearch_stream _ (mkHState emptyModelMessage e []) stream rest Hs)
      in Hrun.
    cbn zeta in Hrun. rewrite He in Hrun. cbn [msg env effects app] in Hrun.
    destruct (SettleFacts.handleSearch_last_message _ _ _ _ _ _ Hb Hrun)
      as (chat & older & H1 & H2).
    eexists. exists chat, older. split.
    { unfold handleSearch. rewrite Hb, Hrun. reflexivity. }
    split; [apply SettleFacts.handleSearchEnd_settled|]. split; [exact H1|].
    split; [|now rewrite Hrun].
    rewrite H2. cbn [settledMessage msg]. rewrite sourcesAfter_fields.
    destruct (lastNonEmpty (chunks stream)); reflexivity.
Qed.

End BrokenStreamFacts.

(** ** A video request that goes well *)
Module VideoRunFacts.
Import Model Handlers Outcomes PollFacts.

(** The attempt from the kick-off on, when every call is answered and
    the video is there. *)
Lemma videoAttempt_retry_run (query : string) (st : HState)
      (first final : Operation) (pending : list Operation) (link url : string)
      (response : Response) gv gp fs bs :
  generateVideos (env st) = Resolve first :: gv ->
  getVideosOperation (env st) = map Resolve pending ++ Resolve final :: gp ->
  done first = false ->
  Forall (fun o => done o = false) pending ->
  done final = true ->
  usableLink (downloadLink final) = Some link ->
  fetch (env st) = Resolve response :: fs ->
  ok response = true ->
  blob (env st) = Resolve url :: bs ->
  videoAttempt query true st
  = (Returned tt,
     mkHState (setText videoDoneText (setVideo url (msg st)))
              (putBlob bs (putFetch fs (putGetVideosOperation gp
                 (putGenerateVideos gv (env st)))))
              (effects st
                 ++ [SetAnswerHtml kickoffHtml; CallGenerateVideos query]
                 ++ concat (repeat pollTurn (S (length pending)))
                 ++ [SetVideoStatus "Almost there! Fetching your video...";
                     CallFetch (link +:+ "&key=" +:+ apiKey (env st)); CallBlob])).
Proof.
  intros Hgv Hgp Hfirst Hpending Hfinal Hlink Hfetch Hok Hblob.
  destruct st as [m e effs]. cbn [env msg effects] in *.
  unfold videoAttempt. cbn [negb].
  unfold bind at 1. unfold ret at 1.
  unfold bind at 1. unfold effect at 1. cbn [msg env effects].
  unfold bind at 1. unfold await at 1.
  unfold bind at 1. unfold effect at 1. cbn [msg env effects].
  unfold bind at 1. unfold getEnv at 1. cbn [msg env effects].
  rewrite Hgv. unfold deliver at 1. unfold bind at 1, setEnv at 1, ret at 1.
  cbn [msg env effects].
  unfold bind at 1. unfold getEnv at 1. cbn [msg env effects].
  change (getVideosOperation (putGenerateVideos gv e)) with (getVideosOperation e).
  rewrite Hgp.
  unfold bind at 1.
  rewrite (pollLoop_pending pending (Resolve final :: gp) first _ Hfirst Hpending).
  rewrite (pollLoop_done gp final _ Hfinal). cbn [msg env effects].
  unfold bind at 1, effect at 1. cbn [msg env effects].
  rewrite Hlink.
  unfold bind at 1, getEnv at 1. cbn [msg env effects].
  unfold bind at 1, await at 1.
  unfold bind at 1, effect at 1. cbn [msg env effects].
  unfold bind at 1, getEnv at 1. cbn [msg env effects].
  change (fetch (putGetVideosOperation gp (putGenerateVideos gv e))) with (fetch e).
  rewrite Hfetch. unfold deliver at 1. unfold bind at 1, setEnv at 1, ret at 1.
  cbn [msg env effects]. rewrite Hok. cbn [negb].
  unfold bind at 1, await at 1.
  unfold bind at 1, effect at 1. cbn [msg env effects].
  unfold bind at 1, getEnv at 1. cbn [msg env effects].
  change (blob (putFetch fs (putGetVideosOperation gp (putGenerateVideos gv e)))) with (blob e).
  rewrite Hblob. unfold deliver at 1. unfold bind at 1, setEnv at 1, ret at 1.
  cbn [msg env effects].
  unfold bind, modifyMessage. cbn [msg env effects].
  f_equal. f_equal.
  rewrite <- !List.app_assoc. reflexivity.
Qed.

Lemma videoAttempt_after_key (query : string) (st : HState) :
  videoAttempt query false st
  = match keyPart st with
    | (Returned _, st') => videoAttempt query true st'
    | (Threw e, st') => (Threw e, st')
    | (Waiting, st') => (Waiting, st')
    end.
Proof.
  unfold videoAttempt. cbn [negb]. fold keyPart.
  unfold bind at 1.
  destruct (keyPart st) as [[[]|e|] st']; reflexivity.
Qed.

Lemma keyPart_run (st : HState) (hasKey : bool) hs os :
  hasSelectedApiKey (env st) = Resolve hasKey :: hs ->
  (hasKey = false -> openSelectKey (env st) = Resolve tt :: os) ->
  keyPart st
  = (Returned tt,
     mkHState (msg st)
              (if hasKey then putHasSelectedApiKey hs (env st)
               else putOpenSelectKey os (putHasSelectedApiKey hs (env st)))
              (effects st ++ keyCheck hasKey)).
Proof.
  intros Hh Ho. destruct st as [m e effs]. cbn [env msg effects] in *.
  unfold keyPart.
  unfold bind at 1, await at 1.
  unfold bind at 1, effect at 1. cbn [msg env effects].
  unfold bind at 1, getEnv at 1. cbn [msg env effects].
  rewrite Hh. unfold deliver at 1. unfold bind at 1, setEnv at 1, ret at 1.
  cbn [msg env effects].
  destruct hasKey; cbn [negb].
  - unfold ret, keyCheck. reflexivity.
  - specialize (Ho eq_refl).
    unfold bind at 1, effect at 1. cbn [msg env effects].
    unfold bind at 1, sleep at 1, effect at 1. cbn [msg env effects].
    unfold await at 1.
    unfold bind at 1, effect at 1. cbn [msg env effects].
    unfold bind at 1, getEnv at 1. cbn [msg env effects].
    change (openSelectKey (putHasSelectedApiKey hs e)) with (openSelectKey e).
    rewrite Ho. unfold deliver at 1. unfold bind at 1, setEnv at 1, ret at 1.
    cbn [msg env effects]. unfold keyCheck.
    rewrite <- !List.app_assoc. reflexivity.
Qed.

(** X22.  A video request that goes well.  When the key check is
    answered, and the dialog too when no key was selected, the generation
    starts, the operation is done after some polls, it has a download
    link, and the download and the blob succeed, the handler returns with
    the video and the text of success in the message.  A first attempt
    asks once whether a key is selected, a retry does not ask; the
    generation is kicked off once, the operation is asked for once for
    each time it was seen running, with ten seconds before each call, and
    the link is fetched with the key appended. *)
Theorem handleVideoGeneration_delivers (query : string) (isRetry : bool) (st : HState)
        (hasKey : bool) (first final : Operation) (pending : list Operation)
        (link url : string) (response : Response) hs os gv gp fs bs :
  (isRetry = false ->
   hasSelectedApiKey (env st) = Resolve hasKey :: hs
   /\ (hasKey = false -> openSelectKey (env st) = Resolve tt :: os)) ->
  generateVideos (env st) = Resolve first :: gv ->
  getVideosOperation (env st) = map Resolve pending ++ Resolve final :: gp ->
  done first = false ->
  Forall (fun o => done o = false) pending ->
  done final = true ->
  usableLink (downloadLink final) = Some link ->
  fetch (env st) = Resolve response :: fs ->
  ok response = true ->
  blob (env st) = Resolve url :: bs ->
  fst (handleVideoGeneration query isRetry st) = Returned tt
  /\ msg (snd (handleVideoGeneration query isRetry st))
     = setText videoDoneText (setVideo url (msg st))
  /\ effects (snd (handleVideoGeneration query isRetry st))
     = effects st ++ (if isRetry then [] else keyCheck hasKey)
         ++ videoRun query (S (length pending)) link (apiKey (env st)).
Proof.
  intros Hkey Hgv Hgp Hfirst Hpending Hfinal Hlink Hfetch Hok Hblob.
  remember (handleVideoGeneration query isRetry st) as r eqn:E.
  unfold handleVideoGeneration in E. cbn [handleVideoGenerationAt] in E.
  unfold tryCatch at 1 in E.
  destruct isRetry.
  - rewrite (videoAttempt_retry_run query _ first final pending link url response gv gp fs bs)
      in E; try assumption.
    subst r. cbn [fst snd msg effects env app]. repeat split; reflexivity.
  - destruct (Hkey eq_refl) as [Hh Ho].
    rewrite videoAttempt_after_key, (keyPart_run st hasKey hs os Hh Ho) in E.
    rewrite (videoAttempt_retry_run query _ first final pending link url response gv gp fs bs)
      in E; try assumption; try (destruct hasKey; cbn [env]; assumption).
    subst r. cbn [fst snd msg effects env]. split; [reflexivity|]. split; [reflexivity|].
    rewrite <- !List.app_assoc. unfold videoRun.
    destruct hasKey; reflexivity.
Qed.

End VideoRunFacts.

(** ** An answer that comes after the sign-out *)
Module LateAnswerFacts.
Import Model Handlers Controller Page PageFacts.

Lemma writeMessage_state (l : loc) (g : Message -> Message) (w : World) :
  state (writeMessage l g w) = state w.
Proof. unfold writeMessage. destruct (store w !! l); reflexivity. Qed.

(** What [handleSearch] leaves when it ends with no chat in the
    session. *)
Lemma handleSearchEnd_signedOut (f : Frame) (settled : Outcome unit) (left : Message)
      (w : World) :
  state w = defaultState ->
  state (Controller.handleSearchEnd f settled left w) = defaultState
  /\ chatContainer (Controller.handleSearchEnd f settled left w) = Welcome
  /\ isLoading (Controller.handleSearchEnd f settled left w) = false
  /\ localStorage (Controller.handleSearchEnd f settled left w)
     = Some (Json.stringify (Codec.encodeState [] defaultState)).
Proof.
  intros Hs. unfold Controller.handleSearchEnd.
  set (w1 := writeMessage (modelMessage f) (fun _ => left) w).
  set (w2 := withInFlight (removeFrame f (inFlight w1)) w1).
  set (w3 := match settled with
             | Threw _ => writeMessage (modelMessage f) (setText apology) w2
             | _ => w2
             end).
  assert (H3 : state w3 = defaultState).
  { subst w3. destruct settled; rewrite ?writeMessage_state; subst w2; cbn [state withInFlight];
      subst w1; now rewrite writeMessage_state. }
  cbn [Controller.saveState Controller.renderChatHistory state chatContainer isLoading
       localStorage withStorage withView withLoading].
  unfold renderedHistory, serialized, Controller.renderChatHistory.
  cbn [state store withView withLoading]. rewrite H3.
  repeat split; reflexivity.
Qed.

Lemma dom_handleSignOut (p : Page) :
  isAuthenticated (state (world p)) = true ->
  authButtonText (dom (handleAuthClick p)) = Some "Sign In"
  /\ searchFormHidden (dom (handleAuthClick p)) = Some true
  /\ tabsHidden (dom (handleAuthClick p)) = Some true.
Proof.
  intros Ha. unfold handleAuthClick. rewrite Ha. unfold renderApp.
  cbn [saveState onWorld world]. rewrite world_closeArtifactPane.
  cbn [world onWorld state Controller.saveState withStorage Controller.closeArtifactPane
       Controller.renderChatHistory withView withArtifact withState isAuthenticated
       defaultState].
  repeat split; reflexivity.
Qed.

(** X23.  An answer that comes after the user has signed out.  Signing
    out while a request is pending shows the sign-in prompt; when the
    request settles, the state is still the initial one and nothing of the
    answer is stored, the button still reads Sign In and the search form
    and the tab bar stay hidden, but the chat container no longer shows
    the sign-in prompt: it shows the welcome screen of an empty chat. *)
Theorem answer_after_sign_out (p : Page) (f : Frame) (e : Env) :
  isAuthenticated (state (world p)) = true ->
  inFlight (world p) !! 0%nat = Some f ->
  fst (runHandler f e (world (fire p AuthClick))) <> Waiting ->
  chatContainer (world (fire p AuthClick)) = SignInPrompt
  /\ state (world (fire (fire p AuthClick) (Settle 0 e))) = defaultState
  /\ chatContainer (world (fire (fire p AuthClick) (Settle 0 e))) = Welcome
  /\ isLoading (world (fire (fire p AuthClick) (Settle 0 e))) = false
  /\ localStorage (world (fire (fire p AuthClick) (Settle 0 e)))
     = Some (Json.stringify (Codec.encodeState [] defaultState))
  /\ authButtonText (dom (fire (fire p AuthClick) (Settle 0 e))) = Some "Sign In"
  /\ searchFormHidden (dom (fire (fire p AuthClick) (Settle 0 e))) = Some true
  /\ tabsHidden (dom (fire (fire p AuthClick) (Settle 0 e))) = Some true.
Proof.
  intros Ha Hf Hsettles.
  destruct (dom_handleSignOut p Ha) as (Hb & Hform & Htabs).
  assert (Hw : world (fire p AuthClick) = Controller.handleAuthClick (world p)).
  { apply world_handleAuthClick. }
  assert (Hs : state (world (fire p AuthClick)) = defaultState).
  { rewrite Hw, ChatIdFacts.handleAuthClick_state, Ha. reflexivity. }
  assert (Hin : inFlight (world (fire p AuthClick)) !! 0%nat = Some f).
  { rewrite Hw. destruct (ControllerFacts.handleAuthClick_frame (world p)) as (_ & -> & _).
    exact Hf. }
  split.
  { rewrite Hw. unfold Controller.handleAuthClick, Controller.renderApp. rewrite Ha.
    reflexivity. }
  set (q := fire p AuthClick) in *.
  assert (Hlater : exists settled left,
             fire q (Settle 0 e) = handleSearchEnd f settled left q).
  { cbn [fire]. rewrite Hin.
    destruct (runHandler f e (world q)) as [[[]|err|] st] eqn:E.
    - now exists (Returned tt), (msg st).
    - now exists (Threw err), (msg st).
    - now elim Hsettles. }
  destruct Hlater as (settled & left & ->).
  destruct (handleSearchEnd_signedOut f settled left (world q) Hs) as (H1 & H2 & H3 & H4).
  rewrite world_handleSearchEnd.
  repeat split; try assumption.
Qed.

End LateAnswerFacts.

(** ** Nothing is lost *)
Module KeptFacts.
Import Model Handlers Controller Kept.

Lemma grows_refl (c : Chat) : grows c c.
Proof. repeat split. exists []. now rewrite List.app_nil_r. Qed.

Lemma grows_trans (a b c : Chat) : grows a b -> grows b c -> grows a c.
Proof.
  intros (Hi & Ht & x & Hx) (Hi' & Ht' & y & Hy).
  split; [congruence|]. split; [congruence|].
  exists (x ++ y). now rewrite Hy, Hx, <- List.app_assoc.
Qed.

Lemma Forall2_grows_refl (cs : list Chat) : Forall2 grows cs cs.
Proof. induction cs; constructor; [apply grows_refl | assumption]. Qed.

Lemma keptChats_refl (cs : list Chat) : keptChats cs cs.
Proof. exists cs, []. split; [now rewrite List.app_nil_r | apply Forall2_grows_refl]. Qed.

Lemma Forall2_grows_trans (a b : list Chat) :
  Forall2 grows a b -> forall c, Forall2 grows b c -> Forall2 grows a c.
Proof.
  induction 1 as [|x y xs ys Hxy H IH]; intros c Hc; inversion Hc; subst; constructor.
  - now apply grows_trans with y.
  - now apply IH.
Qed.

Lemma keptChats_trans (a b c : list Chat) :
  keptChats a b -> keptChats b c -> keptChats a c.
Proof.
  intros (old & more & -> & H1) (old' & more' & -> & H2).
  apply Forall2_app_inv_l in H2 as (o1 & o2 & Ho1 & Ho2 & ->).
  exists o1, (o2 ++ more'). split; [now rewrite <- List.app_assoc|].
  now apply Forall2_grows_trans with old.
Qed.

Lemma kept_refl (w : World) : kept w w.
Proof. split; [apply keptChats_refl|]. intros l m H1 H2. now split. Qed.

Lemma kept_trans (a b c : World) : kept a b -> kept b c -> kept a c.
Proof.
  intros [H1 H2] [H3 H4]. split; [now apply keptChats_trans with (chats (state b))|].
  intros l m Hl Hs. destruct (H2 l m Hl Hs) as [Hl' Hs']. now apply H4.
Qed.

(** A world that differs in neither chats, nor message objects, nor
    suspended calls. *)
Lemma kept_same (w w' : World) :
  chats (state w') = chats (state w) -> store w' = store w -> inFlight w' = inFlight w ->
  kept w w'.
Proof.
  intros Hc Hs Hf. split; [rewrite Hc; apply keptChats_refl|].
  intros l m Hl Hset. rewrite Hs. split; [exact Hl|].
  unfold settledAt. now rewrite Hf.
Qed.

Lemma pushHistory_grows (n : Z) (l : loc) (cs : list Chat) :
  Forall2 grows cs (pushHistory n l cs).
Proof.
  induction cs as [|c cs IH]; cbn [pushHistory]; [constructor|].
  destruct (id c =? n).
  - constructor; [|apply Forall2_grows_refl].
    repeat split. now exists [l].
  - constructor; [apply grows_refl | exact IH].
Qed.

Lemma handleSearchBegin_kept (w : World) : kept w (snd (handleSearchBegin w)).
Proof.
  unfold handleSearchBegin.
  destruct (Js.isEmpty (Js.trim (searchInput w)) || isLoading w
            || noActiveChat (activeChatId (state w))); [apply kept_refl|].
  cbn [state withLoading].
  destruct (findChat (chats (state w)) (activeChatId (state w))) as [activeChat|];
    [|now apply kept_same].
  cbn. split.
  - eexists _, []. split; [now rewrite List.app_nil_r|].
    eapply Forall2_grows_trans; apply pushHistory_grows.
  - intros l m Hl Hset.
    assert (Hlt : (l < length (store w))%nat) by (eapply lookup_lt_Some; eassumption).
    split.
    + cbn [store inFlight withInFlight withView pushToChat withState withStore].
      rewrite !lookup_app_l; [exact Hl | exact Hlt | rewrite length_app; lia].
    + unfold settledAt.
      cbn [store inFlight withInFlight withView pushToChat withState withStore
           withInput renderChatHistory saveState withStorage withLoading].
      intros f Hf. apply in_app_or in Hf as [Hf | [<- | []]]; [now apply Hset|].
      cbn [modelMessage]. rewrite length_app. cbn [length]. lia.
Qed.

Lemma writeMessage_other (l l' : loc) (g : Message -> Message) (w : World) (m : Message) :
  l' <> l -> store w !! l = Some m -> store (writeMessage l' g w) !! l = Some m.
Proof.
  intros Hne Hl. unfold writeMessage. destruct (store w !! l'); [|exact Hl].
  cbn [store withStore]. now rewrite list_lookup_insert_ne.
Qed.

Lemma handleSearchEnd_kept (f : Frame) (settled : Outcome unit) (left : Message)
      (w : World) :
  In f (inFlight w) -> kept w (handleSearchEnd f settled left w).
Proof.
  intros Hin. unfold handleSearchEnd.
  set (w1 := writeMessage (modelMessage f) (fun _ => left) w).
  set (w2 := withInFlight (removeFrame f (inFlight w1)) w1).
  set (w3 := match settled with
             | Threw _ => writeMessage (modelMessage f) (setText apology) w2
             | _ => w2
             end).
  assert (Hst : state w3 = state w).
  { subst w3. destruct settled;
      rewrite ?(proj1 (ControllerFacts.writeMessage_frame _ _ _)); subst w2;
      cbn [state withInFlight]; subst w1;
      now rewrite (proj1 (ControllerFacts.writeMessage_frame _ _ _)). }
  assert (Hfl : inFlight w3 = removeFrame f (inFlight w)).
  { subst w3. destruct settled;
      rewrite ?(proj1 (proj2 (proj2 (ControllerFacts.writeMessage_frame _ _ _)))); subst w2;
      cbn [inFlight withInFlight]; subst w1;
      now rewrite (proj1 (proj2 (proj2 (ControllerFacts.writeMessage_frame _ _ _)))). }
  split.
  - cbn [saveState renderChatHistory state withStorage withView withLoading].
    rewrite Hst. apply keptChats_refl.
  - intros l m Hl Hset.
    assert (Hne : modelMessage f <> l) by now apply Hset.
    cbn [saveState renderChatHistory store inFlight withStorage withView withLoading].
    split.
    + assert (H2 : store w2 !! l = Some m).
      { subst w2. cbn [store withInFlight]. subst w1. now apply writeMessage_other. }
      subst w3. destruct settled; [exact H2 | | exact H2].
      now apply writeMessage_other.
    + unfold settledAt.
      cbn [saveState renderChatHistory store inFlight withStorage withView withLoading].
      rewrite Hfl. intros g Hg. apply Hset.
      unfold removeFrame in Hg. now apply List.filter_In in Hg as [Hg _].
Qed.

Lemma handleNewChat_kept (w : World) : kept w (handleNewChat w).
Proof.
  split.
  - cbn. eexists _, _. split; [reflexivity | apply Forall2_grows_refl].
  - intros l m Hl Hset. now split.
Qed.

Lemma step_kept (w : World) (ev : Event) : lasting ev = true -> kept w (step w ev).
Proof.
  intros Hev. destruct ev as [t| |n e| | | |chatId|index|]; try discriminate Hev;
    cbn [step].
  - now apply kept_same.
  - apply handleSearchBegin_kept.
  - destruct (inFlight w !! n) as [f|] eqn:Hn; [|apply kept_refl].
    assert (Hin : In f (inFlight w)).
    { apply list_elem_of_In. eapply list_elem_of_lookup_2. exact Hn. }
    destruct (runHandler f e w) as [[[]|err|] st]; [| |apply kept_refl];
      now apply handleSearchEnd_kept.
  - apply handleNewChat_kept.
  - unfold handleTabSwitch. destruct (sameId _ _); [apply kept_refl | now apply kept_same].
  - now apply kept_same.
  - now apply kept_same.
Qed.

(** X24.  Nothing is lost.  Whatever the user and the handlers do,
    short of signing out or reloading the page, every chat stays where it
    is in the list of chats, with its id and its title, and keeps its
    messages in their order, new ones coming after them; and a message
    object that no call of [handleSearch] is waiting to write to is never
    changed, nor handed to a later call. *)
Theorem chats_and_messages_kept (w : World) (evs : list Event) :
  forallb lasting evs = true ->
  kept w (run w evs).
Proof.
  revert w. induction evs as [|ev evs IH]; intros w H; [apply kept_refl|].
  cbn [forallb] in H. apply andb_true_iff in H as [Hev H].
  cbn [run fold_left]. apply kept_trans with (step w ev);
    [now apply step_kept | now apply IH].
Qed.

End KeptFacts.

(** ** [escapeHtml] at sample texts *)
Module EscapeExamples.
Import Markdown Html EscapeFacts.

(** A text without any of the five characters. *)
Lemma escapeHtml_leaves_no_markup_witness :
  escapeHtml "plain text, no markup" = "plain text, no markup".
Proof.
  apply (proj2 (proj2 (escapeHtml_leaves_no_markup "plain text, no markup"))).
  reflexivity.
Defined.

(** Injectivity at a text with two of the five characters. *)
Lemma escapeHtml_loses_nothing_witness : "a < b & c" = "a < b & c".
Proof.
  apply (proj2 (proj2 escapeHtml_loses_nothing) "a < b & c" "a < b & c").
  reflexivity.
Defined.

End EscapeExamples.

(** ** The renderer at sample texts *)
Module RenderExamples.
Import Markdown Html RenderFacts CodeBlockFacts BoldFacts.

(** A line, a block of html holding markup, a line. *)
Lemma simpleMarkdownToHtml_code_block_witness :
  simpleMarkdownToHtml ("Look:" +:+ nl +:+ fenced "html" ("<b>x</b>" +:+ nl) +:+ "Done.")
  = blocksHtml (blocksOf ("Look:" +:+ nl))
      +:+ "<pre><code class=" +:+ dquote +:+ "language-" +:+ "html" +:+ dquote +:+ ">"
      +:+ escapeHtml (Js.trim ("<b>x</b>" +:+ nl)) +:+ "</code></pre>"
      +:+ simpleMarkdownToHtml "Done.".
Proof.
  apply (simpleMarkdownToHtml_code_block ("Look:" +:+ nl) "html" ("<b>x</b>" +:+ nl) "Done.");
    reflexivity.
Defined.

(** A bold word in a line. *)
Lemma simpleMarkdownToHtml_bold_witness :
  simpleMarkdownToHtml ("so " +:+ "**" +:+ "very" +:+ "**" +:+ " good")
  = blocksHtml (blocksOf ("so " +:+ "<strong>" +:+ "very" +:+ "</strong>" +:+ " good")).
Proof.
  apply (simpleMarkdownToHtml_bold "so " "very" " good"); reflexivity.
Defined.

End RenderExamples.

(** ** The classifier at sample queries *)
Module CaseExamples.
Import Classifier CaseFacts.

(** An image query written with capitals. *)
Lemma classify_ignores_case_witness :
  classify "DRAW a Cat" = classify "draw a cat".
Proof.
  apply (proj2 classify_ignores_case "DRAW a Cat" "draw a cat"). reflexivity.
Defined.

End CaseExamples.

(** ** The handlers at sample scripts *)
Module HandlerExamples.
Import Model Handlers Outcomes Controller.
Import PollFacts VideoSafeFacts VideoPostFacts StreamFacts ImageFacts.

(** An answer whose second part holds the image. *)
Lemma handleImageGeneration_message_witness :
  fst (handleImageGeneration "draw a cat" (Scripts.fresh Demo.pictured)) = Returned tt
  /\ msg (snd (handleImageGeneration "draw a cat" (Scripts.fresh Demo.pictured)))
     = (if Js.isEmpty (firstInlineData [None; Some "iVBORw0KGgo="])
        then setText noImageText (msg (Scripts.fresh Demo.pictured))
        else setText (imageText "draw a cat")
                     (setImage ("data:image/png;base64,"
                                  +:+ firstInlineData [None; Some "iVBORw0KGgo="])
                               (msg (Scripts.fresh Demo.pictured))))
  /\ effects (snd (handleImageGeneration "draw a cat" (Scripts.fresh Demo.pictured)))
     = effects (Scripts.fresh Demo.pictured)
         ++ [SetAnswerHtml "<p>Generating your image...</p>";
             CallGenerateContent "gemini-2.5-flash-image" "draw a cat"].
Proof.
  apply (proj1 handleImageGeneration_message "draw a cat" (Scripts.fresh Demo.pictured)
           (mkGenerated [[None; Some "iVBORw0KGgo="]]) [] [None; Some "iVBORw0KGgo="] []);
    reflexivity.
Defined.

(** Two calls find the operation running, the third finds it done. *)
Lemma pollLoop_waits_once_per_poll_witness :
  pollLoop (map Resolve [Demo.running; Demo.running] ++ Resolve Demo.finished :: [])
           Demo.running (Scripts.fresh Scripts.quiet)
  = (Returned Demo.finished,
     mkHState (msg (Scripts.fresh Scripts.quiet))
              (putGetVideosOperation [] (env (Scripts.fresh Scripts.quiet)))
              (effects (Scripts.fresh Scripts.quiet)
                 ++ concat (repeat pollTurn (S (length [Demo.running; Demo.running]))))).
Proof.
  apply (proj1 (proj2 pollLoop_waits_once_per_poll)
           [Demo.running; Demo.running] Demo.finished [] Demo.running
           (Scripts.fresh Scripts.quiet)).
  - reflexivity.
  - repeat constructor.
  - reflexivity.
Defined.

(** A script where generation is refused twice. *)
Lemma handleVideoGeneration_never_throws_witness :
  fst (handleVideoGeneration "animate a logo" false (Scripts.fresh Scripts.refusedTwice))
  <> Threw TypeError.
Proof.
  apply (handleVideoGeneration_never_throws "animate a logo" false
           (Scripts.fresh Scripts.refusedTwice)).
  reflexivity.
Defined.

(** A first attempt with a key selected. *)
Lemma handleVideoGeneration_delivers_witness :
  msg (snd (handleVideoGeneration "animate a logo" false (Scripts.fresh Demo.filmed)))
  = setText videoDoneText (setVideo "blob:1" (msg (Scripts.fresh Demo.filmed))).
Proof.
  apply (VideoRunFacts.handleVideoGeneration_delivers
           "animate a logo" false (Scripts.fresh Demo.filmed) true
           Demo.running Demo.finished [Demo.running] "https://v/1?x=1" "blob:1"
           (mkResponse true "OK") [] [] [] [] [] []);
    try reflexivity.
  - intros _. split; [reflexivity | discriminate].
  - repeat constructor.
Defined.

End HandlerExamples.

(** ** Streams at sample scripts *)
Module StreamExamples.
Import Model Handlers Outcomes Controller.
Import StreamFacts BrokenStreamFacts.

(** A search answered in increments, some without text. *)
Lemma streamed_answer_adds_up_witness :
  handleTextSearch "who won" (Scripts.fresh Scripts.citedSearch)
  = (Returned tt,
     mkHState (setText (Js.concatAll (textsOf (chunks Scripts.cited)))
                       (sourcesAfter (chunks Scripts.cited)
                                     (msg (Scripts.fresh Scripts.citedSearch))))
              (putGenerateContentStream [] (env (Scripts.fresh Scripts.citedSearch)))
              (effects (Scripts.fresh Scripts.citedSearch)
                 ++ CallGenerateContentStream "gemini-2.5-flash" "who won"
                 :: rendersOf EmptyString (textsOf (chunks Scripts.cited)))).
Proof.
  apply (proj1 (proj2 streamed_answer_adds_up) "who won"
           (Scripts.fresh Scripts.citedSearch) Scripts.cited []);
    reflexivity.
Defined.

(** A search whose stream fails after one increment with a citation. *)
Lemma broken_stream_leaves_apology_witness :
  exists w3 chat older,
    handleSearch Demo.brokenSearch Pages.asked = (Returned tt, w3)
    /\ isLoading w3 = false
    /\ findChat (chats (state w3)) (activeChatId (state w3)) = Some chat
    /\ messagesOf (store w3) (history chat)
       = older ++ [userMessage "who won the 2022 world cup";
                   mkMessage Assistant apology None None (Some [Scripts.citeA]) None].
Proof.
  destruct (broken_stream_leaves_apology Pages.asked (snd (handleSearchBegin Pages.asked))
              (mkFrame "who won the 2022 world cup" 1%nat) Demo.brokenSearch
              Demo.broken [] (Error "network error"))
    as (w3 & chat & older & H1 & H2 & H3 & H4 & _).
  - reflexivity.
  - reflexivity.
  - reflexivity.
  - right. reflexivity.
  - exists w3, chat, older. repeat split; assumption.
Defined.

End StreamExamples.

(** ** The page at sample runs *)
Module PageExamples.
Import Model Handlers Controller Session Page Synced.
Import PageTheorems PaneFacts SyncedFacts SessionFacts.

(** The third part, after signing in and typing a query. *)
Lemma active_chat_found_witness :
  exists f, fst (Controller.handleSearchBegin
                   (world (run boot [AuthClick; Type_ "draw a cat"]))) = Started f.
Proof.
  apply (proj2 (proj2 (active_chat_found [AuthClick; Type_ "draw a cat"])));
    [reflexivity | reflexivity | discriminate].
Defined.

(** Two chats, the first one active again. *)
Lemma tabs_show_chats_witness :
  tabsHidden (dom (run boot [AuthClick; NewChat; TabSwitch 1])) = Some false.
Proof.
  apply (tabs_show_chats [AuthClick; NewChat; TabSwitch 1]). reflexivity.
Defined.

(** The first part, at the answer of a code request. *)
Lemma artifact_pane_opens_and_closes_witness :
  exists chat message c,
    findChat (chats (state (world Demo.answered)))
             (activeChatId (state (world Demo.answered))) = Some chat
    /\ messagesOf (store (world Demo.answered)) (history chat) !! 1%nat = Some message
    /\ code message = Some c
    /\ srcdoc (dom (handleArtifactView 1 Demo.answered)) = Some (artifactDoc c)
    /\ artifactHidden (dom (handleArtifactView 1 Demo.answered)) = Some false.
Proof.
  destruct (proj1 artifact_pane_opens_and_closes Demo.answered 1%nat)
    as (chat & message & c & H1 & H2 & H3 & H4 & H5 & _).
  - vm_compute. reflexivity.
  - vm_compute. reflexivity.
  - exists chat, message, c. repeat split; assumption.
Defined.

(** The sixth part, at a page with a search pending. *)
Lemma controls_follow_state_witness :
  searchButtonDisabled (dom Demo.asking) = Some true.
Proof.
  apply (proj1 (proj2 (proj2 (proj2 (proj2 (proj2
           (PageTheorems.controls_follow_state
              [AuthClick; Type_ "who won the 2022 world cup"; Submit]))))))).
  reflexivity.
Defined.

(** The user signs out of a page with a search pending. *)
Lemma answer_after_sign_out_witness :
  chatContainer (world (fire (fire Demo.asking AuthClick) (Settle 0 Scripts.citedSearch)))
  = Welcome.
Proof.
  apply (LateAnswerFacts.answer_after_sign_out
           Demo.asking (mkFrame "who won the 2022 world cup" 1%nat) Scripts.citedSearch).
  - reflexivity.
  - reflexivity.
  - vm_compute. discriminate.
Defined.

End PageExamples.

(** ** The session at sample runs *)
Module SessionExamples.
Import Model Handlers Controller Reloads Meanwhile.
Import ReloadFacts ShownFacts SignOutFacts MeanwhileFacts PendingFacts.

(** A session with an answered search and a second chat. *)
Lemma reload_restores_session_witness :
  sessionOf (step (run boot [AuthClick; Type_ "who won"; Submit;
                             Settle 0 Scripts.citedSearch; NewChat]) Reload)
  = sessionOf (run boot [AuthClick; Type_ "who won"; Submit;
                         Settle 0 Scripts.citedSearch; NewChat]).
Proof.
  apply (reload_restores_session [AuthClick; Type_ "who won"; Submit;
                                  Settle 0 Scripts.citedSearch; NewChat]).
  reflexivity.
Defined.


(** Signing out of a session with two chats. *)
Lemma sign_out_forgets_session_witness :
  state (handleAuthClick (run boot [AuthClick; NewChat])) = defaultState.
Proof.
  apply (sign_out_forgets_session (run boot [AuthClick; NewChat])). reflexivity.
Defined.

(** After an answered search. *)
Lemma chat_view_shows_active_chat_witness :
  chatContainer (run boot [AuthClick; Type_ "who won"; Submit; Settle 0 Scripts.citedSearch])
  = renderedHistory (run boot [AuthClick; Type_ "who won"; Submit;
                               Settle 0 Scripts.citedSearch]).
Proof.
  apply (chat_view_shows_active_chat [AuthClick; Type_ "who won"; Submit;
                                      Settle 0 Scripts.citedSearch]);
    reflexivity.
Defined.

(** A new chat, a switch back, and a second submission meanwhile. *)
Lemma answer_reaches_asking_chat_witness :
  runHandler (mkFrame "who won the 2022 world cup" 1%nat) Scripts.citedSearch
             (run (snd (handleSearchBegin Pages.asked))
                  [NewChat; TabSwitch 1; Type_ "draw"; Submit])
  = dispatch "who won the 2022 world cup" (Scripts.fresh Scripts.citedSearch).
Proof.
  apply (answer_reaches_asking_chat Pages.asked (snd (handleSearchBegin Pages.asked))
           (mkFrame "who won the 2022 world cup" 1%nat) 1
           [NewChat; TabSwitch 1; Type_ "draw"; Submit] Scripts.citedSearch).
  - reflexivity.
  - reflexivity.
  - reflexivity.
  - reflexivity.
  - vm_compute. discriminate.
Defined.

(** A new chat, the answer, a switch back and a second question. *)
Lemma chats_and_messages_kept_witness :
  Kept.kept (Page.world Demo.asking)
            (run (Page.world Demo.asking)
                 [NewChat; Settle 0 Scripts.citedSearch; TabSwitch 1; Type_ "draw a cat";
                  Submit]).
Proof.
  apply (KeptFacts.chats_and_messages_kept
           (Page.world Demo.asking)
           [NewChat; Settle 0 Scripts.citedSearch; TabSwitch 1; Type_ "draw a cat"; Submit]).
  reflexivity.
Defined.

End SessionExamples.
